(** * Staff pay calculator (Google Apps Script, [Code.js])

    A shallow embedding of the unpaid-work selector
    [getUnpaidWorkFromMaster], the rate resolution and aggregation of
    [calculatePayments], the invoice builder [createInvoice], the ledger
    write [markWorkAsInvoiced] and the request handlers that chain them,
    with the properties the specification states about them.

    Modelling conventions.
    - A spreadsheet is the list of the rows of its data range; a cell
      outside the stored rows is blank, as in Sheets, and the grid has
      room for every write.  [getValues] gives the rectangular array the
      script reads.
    - A cell value is a JavaScript primitive or a date ([cell]).  Numbers
      are the integers (amounts are whole VND) plus [NaN], which
      [parseFloat] returns for a rate that does not parse; sums are exact.
    - The configuration dictionaries [payConfig] and [staffMapping] are
      finite maps over the property key [String(x)]; an object the script
      fills key by key ([cols], [payments], [tasksByType]) is the list of
      its entries in insertion order, the order its enumeration follows.
      No key is the name of a member of [Object.prototype] or a canonical
      array index, for which JavaScript has rules of its own.
    - Script code that reads or writes a spreadsheet runs in the monad
      [M]: a state of the spreadsheets, and an outcome that is a value or
      a thrown exception.  A write made before an exception stays.
    - The Pay Config and staff sheets are taken after the parsing of their
      cells ([PayConfigRow], [StaffRow]).
    - The diagnostic log kept in the script properties, cell formatting
      and formula copying are left out. *)

From Stdlib Require Import ZArith String Ascii List Bool Lia Sorted Permutation.
From stdpp Require Import gmap strings list pretty.
Import ListNotations.

Local Open Scope Z_scope.

(** ** JavaScript values *)

Module JS.

Inductive number := NaN | Num (z : Z).

Definition num_add (a b : number) : number :=
  match a, b with
  | Num x, Num y => Num (x + y)
  | _, _ => NaN
  end.

(** [rate > 0] *)
Definition num_gt0 (a : number) : bool :=
  match a with Num x => 0 <? x | NaN => false end.

(** Truthiness of a number: [0] and [NaN] are falsy. *)
Definition num_truthy (a : number) : bool :=
  match a with Num x => negb (x =? 0) | NaN => false end.

Inductive cell :=
| CUndefined
| CStr (s : string)
| CNum (n : number)
| CBool (b : bool)
| CDate (s : string).
(* [CDate s] is a Date object whose [toString()] is [s]; two dates with the
   same text are taken as one value. *)

#[global] Instance number_eq_dec : EqDecision number.
Proof. solve_decision. Defined.

#[global] Instance cell_eq_dec : EqDecision cell.
Proof. solve_decision. Defined.

Definition truthy (c : cell) : bool :=
  match c with
  | CUndefined => false
  | CStr s => negb (String.eqb s "")
  | CNum n => num_truthy n
  | CBool b => b
  | CDate _ => true
  end.

(** [String(c)]: template literals, property keys and [toString()]. *)
Definition toStr (c : cell) : string :=
  match c with
  | CUndefined => "undefined"
  | CStr s => s
  | CNum (Num z) => pretty z
  | CNum NaN => "NaN"
  | CBool true => "true"
  | CBool false => "false"
  | CDate s => s
  end.

(** [a === b]: [NaN] is not equal to itself. *)
Definition strictEq (a b : cell) : bool :=
  match a with
  | CNum NaN => false
  | _ => bool_decide (a = b)
  end.

(** [a || b] *)
Definition or_else (a b : cell) : cell := if truthy a then a else b.

(** [s.toLowerCase()] on the ASCII letters; a character outside ASCII is
    kept as it is (none lowers to a letter of the word the selector looks
    for). *)
Definition lower_ascii (a : ascii) : ascii :=
  let n := nat_of_ascii a in
  if ((65 <=? n) && (n <=? 90))%nat then ascii_of_nat (n + 32) else a.

Fixpoint toLowerCase (s : string) : string :=
  match s with
  | EmptyString => EmptyString
  | String a t => String (lower_ascii a) (toLowerCase t)
  end.

Fixpoint includes (needle hay : string) : bool :=
  String.prefix needle hay ||
  match hay with
  | EmptyString => false
  | String _ t => includes needle t
  end.

(** [l.indexOf(x)], [-1] when absent. *)
Fixpoint indexOf (x : cell) (l : list cell) : Z :=
  match l with
  | [] => -1
  | y :: t =>
      if strictEq y x then 0
      else let r := indexOf x t in if r <? 0 then -1 else r + 1
  end.

(** [row[i]] on an array of cells; [i] is [None] when the index itself is
    [undefined]. *)
Definition at_ (row : list cell) (i : option Z) : cell :=
  match i with
  | Some z => if z <? 0 then CUndefined else nth (Z.to_nat z) row CUndefined
  | None => CUndefined
  end.

(** [String(n).padStart(3, '0')] *)
Definition padStart3 (s : string) : string :=
  match String.length s with
  | O => "000" +:+ s
  | 1%nat => "00" +:+ s
  | 2%nat => "0" +:+ s
  | _ => s
  end.

Definition newline : string := String (ascii_of_nat 10) EmptyString.

(** [xs.join(sep)] *)
Fixpoint join (sep : string) (xs : list string) : string :=
  match xs with
  | [] => ""
  | [x] => x
  | x :: t => x +:+ sep +:+ join sep t
  end.

End JS.
Import JS.

(** ** Spreadsheets *)

Module Sheet.

Definition sheet := list (list cell).

Definition blank : cell := CStr "".

Definition getLastRow (sh : sheet) : nat := length sh.

Definition getLastColumn (sh : sheet) : nat :=
  fold_right (fun r w => Nat.max (length r) w) O sh.

Definition padRow (w : nat) (r : list cell) : list cell :=
  r ++ repeat blank (w - length r).

(** [sheet.getDataRange().getValues()]: a rectangular array. *)
Definition getValues (sh : sheet) : list (list cell) :=
  map (padRow (getLastColumn sh)) sh.

(** [sheet.getRange(headerRow, 1, 1, sheet.getLastColumn()).getValues()[0]];
    on a sheet with no column at all, where the service refuses the
    range, the model gives the empty row. *)
Definition headerValues (sh : sheet) (headerRow : nat) : list cell :=
  nth (headerRow - 1) (getValues sh) (repeat blank (getLastColumn sh)).

(** The value of the cell at row [r], column [c], both counted from 1. *)
Definition getCell (sh : sheet) (r c : nat) : cell :=
  nth (c - 1) (nth (r - 1) sh []) blank.

(** [l[n] = v] where the array grows, filled with [d], when [n] is past
    its end. *)
Fixpoint set_nth {A} (d : A) (n : nat) (v : A) (l : list A) : list A :=
  match n, l with
  | O, [] => [v]
  | O, _ :: t => v :: t
  | S n', [] => d :: set_nth d n' v []
  | S n', x :: t => x :: set_nth d n' v t
  end.

(** The sheet with [v] in the cell at row [i], column [j], both counted
    from 0; the data range grows to hold the cell. *)
Definition writeCell (sh : sheet) (i j : nat) (v : cell) : sheet :=
  set_nth [] i (set_nth blank j v (nth i sh [])) sh.

(** [sheet.getRange(r, c).setValue(v)]; a range whose row or column is
    below 1 is refused by the service. *)
Definition setValue (sh : sheet) (r c : Z) (v : cell) : option sheet :=
  if (r <? 1) || (c <? 1) then None
  else Some (writeCell sh (Z.to_nat (r - 1)) (Z.to_nat (c - 1)) v).

(** [data[i][j]] for [data = sheet.getDataRange().getValues()]. *)
Definition readCell (sh : sheet) (i : nat) (j : Z) : cell :=
  at_ (nth i (getValues sh) []) (Some j).

End Sheet.
Import Sheet.

(** ** Data model *)

(** One element of the array [getUnpaidWorkFromMaster] returns. *)
Record WorkItem := {
  rowIndex : Z;
  staffName : cell;
  taskType : cell;
  league : cell;
  round : cell;
  team1 : cell;
  team2 : cell;
  playbackLink : cell;
  doneDate : cell
}.

(** [payConfig[taskType]] *)
Record RateEntry := {
  defaultRate : number;
  customRates : gmap string number
}.

(** [{...work, rate, rateSource, hasValidRate}] *)
Record Task := {
  work : WorkItem;
  rate : number;
  rateSource : string;
  hasValidRate : bool
}.

(** [payments[legalName]] *)
Record PaymentRecord := {
  staffKey : cell;
  legalName : cell;
  hasMapping : bool;
  tasks : list Task;
  totalAmount : number
}.

(** An element of [errors.tasksWithNoRate]. *)
Record NoRateRecord := {
  nr_staffName : cell;
  nr_taskType : cell;
  nr_league : cell;
  nr_round : cell;
  nr_teams : string
}.

(** [errors]; a JavaScript [Set] is the list of its elements in insertion
    order. *)
Record Errors := {
  unmatchedTaskTypes : list cell;
  unmatchedStaffKeys : list cell;
  tasksWithNoRate : list NoRateRecord
}.

(** A data row of the Pay Config sheet, after [parseFloat]:
    [customRate] is [None] for [null] (blank Custom Rate cell). *)
Record PayConfigRow := {
  pc_taskType : cell;
  pc_defaultRate : number;
  pc_staffName : cell;
  pc_customRate : option number
}.

(** A data row of the staff sheet: the Key and Name cells. *)
Record StaffRow := {
  sr_key : cell;
  sr_name : cell
}.

(** The spreadsheets the script works on; [None] is a sheet that
    [getSheetByName] does not find. *)
Record World := {
  master : option sheet;
  payConfigSheet : option (list PayConfigRow);
  staffSheet : option (list StaffRow);
  invoicing : option sheet
}.

(** What the script takes from its environment in [createInvoice]:
    [new Date()], [Utilities.formatDate(timestamp, tz, 'yyyyMMdd')] and
    [Math.floor(Math.random() * 1000)]. *)
Record Env := {
  timestamp : cell;
  dateStr : string;
  random1000 : Z
}.

(** ** The script monad *)

Inductive Outcome (A : Type) :=
| Ok (a : A)
| Throw (e : string).
Arguments Ok {A} a.
Arguments Throw {A} e.

Definition M (A : Type) : Type := World -> Outcome A * World.

Definition ret {A} (a : A) : M A := fun w => (Ok a, w).

Definition bind {A B} (m : M A) (k : A -> M B) : M B :=
  fun w =>
    match m w with
    | (Ok a, w') => k a w'
    | (Throw e, w') => (Throw e, w')
    end.

Definition throw {A} (e : string) : M A := fun w => (Throw e, w).

Definition getW : M World := fun w => (Ok w, w).

Definition putW (w' : World) : M unit := fun _ => (Ok tt, w').

(** [try { m } catch (error) { h(error.toString()) }] *)
Definition tryCatch {A} (m : M A) (h : string -> M A) : M A :=
  fun w =>
    match m w with
    | (Ok a, w') => (Ok a, w')
    | (Throw e, w') => h e w'
    end.

Declare Scope script_scope.
Delimit Scope script_scope with script.
Notation "x <- c1 ;; c2" := (bind c1 (fun x => c2))
  (at level 100, c1 at next level, right associativity) : script_scope.
Notation "c1 ;;; c2" := (bind c1 (fun _ => c2))
  (at level 100, right associativity) : script_scope.

(** [xs.forEach(x => f(x))] for an [f] with effects. *)
Fixpoint forEachM {A} (f : A -> M unit) (xs : list A) : M unit :=
  match xs with
  | [] => ret tt
  | x :: t => bind (f x) (fun _ => forEachM f t)
  end.

(** ** Objects as ordered dictionaries *)

Fixpoint obj_get {V} (k : string) (o : list (string * V)) : option V :=
  match o with
  | [] => None
  | (k', v) :: t => if String.eqb k' k then Some v else obj_get k t
  end.

(** [o[k] = f(o[k])] for a key the object has; nothing for another. *)
Fixpoint obj_update {V} (k : string) (f : V -> V) (o : list (string * V))
    : list (string * V) :=
  match o with
  | [] => []
  | (k', v) :: t =>
      if String.eqb k' k then (k', f v) :: t else (k', v) :: obj_update k f t
  end.

(** [o[k] = v]: in place for a key the object has, at the end for a new
    one. *)
Fixpoint obj_set {V} (k : string) (v : V) (o : list (string * V))
    : list (string * V) :=
  match o with
  | [] => [(k, v)]
  | (k', v') :: t =>
      if String.eqb k' k then (k', v) :: t else (k', v') :: obj_set k v t
  end.

(** ** Column lookup *)

Definition quoted (s : string) : string :=
  String (ascii_of_nat 34) s +:+ String (ascii_of_nat 34) EmptyString.

(** [getColumnIndex(sheet, columnName, headerRow)]; [name] is
    [sheet.getName()]. *)
Definition getColumnIndex (name : string) (sh : sheet) (columnName : string)
    (headerRow : nat) : M Z :=
  let headers := headerValues sh headerRow in
  let index := indexOf (CStr columnName) headers in
  if index =? -1 then
    throw ("Error: Column " +:+ quoted columnName +:+ " not found in sheet "
           +:+ quoted name)
  else ret (index + 1).

(** [getColumnIndices(sheet, columnNames, headerRow)]: an object from
    column name to 0-based index, [-1] for a name the header row lacks. *)
Definition getColumnIndices (sh : sheet) (columnNames : list cell)
    (headerRow : nat) : list (string * Z) :=
  let headers := headerValues sh headerRow in
  fold_left
    (fun indices name =>
       let index := indexOf name headers in
       if index =? -1 then obj_set (toStr name) (-1) indices
       else obj_set (toStr name) index indices)
    columnNames [].

(** ** The unpaid-work selector *)

(** [actualHeaders.find(h => h && h.toString().toLowerCase().includes('status'))] *)
Definition findStatusColumnName (actualHeaders : list cell) : cell :=
  match
    find (fun h => truthy h && includes "status" (toLowerCase (toStr h)))
         actualHeaders
  with
  | Some h => h
  | None => CUndefined
  end.

Definition masterColumnNames (statusColumnName : cell) : list cell :=
  [ CStr "Assign"; CStr "Due Date"; CStr "LEAGUE"; CStr "Round";
    CStr "Team 1"; CStr "Team 2"; CStr "STATS LEVEL"; CStr "Youtube link";
    CStr "QA"; CStr "Playback Link"; statusColumnName;
    CStr "Team 1 Public Stats Link"; CStr "Team 2 Public Stats link";
    CStr "Paid"; CStr "Paid Date"; CStr "Payment Method"; CStr "Done Date" ].

(** [status === 'Done' && paid !== 'Paid' && paid !== 'Invoiced'] *)
Definition isUnpaid (status paid : cell) : bool :=
  strictEq status (CStr "Done")
  && negb (strictEq paid (CStr "Paid"))
  && negb (strictEq paid (CStr "Invoiced")).

(** The object pushed for the row at index [i] of [data]. *)
Definition workItemOf (cols : list (string * Z)) (i : nat) (row : list cell)
    : WorkItem :=
  {| rowIndex := Z.of_nat i + 1;
     staffName := at_ row (obj_get "Assign" cols);
     taskType := at_ row (obj_get "STATS LEVEL" cols);
     league := at_ row (obj_get "LEAGUE" cols);
     round := at_ row (obj_get "Round" cols);
     team1 := at_ row (obj_get "Team 1" cols);
     team2 := at_ row (obj_get "Team 2" cols);
     playbackLink := at_ row (obj_get "Playback Link" cols);
     doneDate := at_ row (obj_get "Done Date" cols) |}.

(** [cols] of [getUnpaidWorkFromMaster] for the sheet [sh]. *)
Abbreviation masterCols sh :=
  (getColumnIndices sh
     (masterColumnNames (findStatusColumnName (headerValues sh 2))) 2).

(** The body of [getUnpaidWorkFromMaster] once the sheet is at hand: the
    loop [for (let i = 2; i < data.length; i++)]. *)
Definition selectUnpaid (masterSheet : sheet) : list WorkItem :=
  let actualHeaders := headerValues masterSheet 2 in
  let statusColumnName := findStatusColumnName actualHeaders in
  let cols :=
    getColumnIndices masterSheet (masterColumnNames statusColumnName) 2 in
  let data := getValues masterSheet in
  fold_left
    (fun unpaidWork i =>
       let row := nth i data [] in
       let status := at_ row (obj_get (toStr statusColumnName) cols) in
       let paid := at_ row (obj_get "Paid" cols) in
       if isUnpaid status paid
       then unpaidWork ++ [workItemOf cols i row]
       else unpaidWork)
    (seq 2 (length data - 2)) [].

Definition getUnpaidWorkFromMaster : M (list WorkItem) :=
  (w <- getW ;;
   match master w with
   | None => throw "Error: MASTER sheet not found in work log spreadsheet"
   | Some masterSheet => ret (selectUnpaid masterSheet)
   end)%script.

(** ** Configuration *)

(** [getPayConfiguration]: the loop over the data rows of Pay Config. *)
Definition payConfigOfRows (rows : list PayConfigRow)
    : gmap string RateEntry :=
  fold_left
    (fun payConfig r =>
       let k := toStr (pc_taskType r) in
       let payConfig1 :=
         match payConfig !! k with
         | Some _ => payConfig
         | None =>
             <[k := {| defaultRate := pc_defaultRate r; customRates := ∅ |}]>
               payConfig
         end in
       match pc_customRate r with
       | Some customRate =>
           if truthy (pc_staffName r) && num_truthy customRate then
             match payConfig1 !! k with
             | Some e =>
                 <[k := {| defaultRate := defaultRate e;
                           customRates :=
                             <[toStr (pc_staffName r) := customRate]>
                               (customRates e) |}]> payConfig1
             | None => payConfig1
             end
           else payConfig1
       | None => payConfig1
       end)
    rows ∅.

Definition getPayConfiguration : M (gmap string RateEntry) :=
  (w <- getW ;;
   match payConfigSheet w with
   | None => throw "Error: Pay Config sheet not found"
   | Some rows => ret (payConfigOfRows rows)
   end)%script.

(** [getStaffMapping]: the loop over the data rows of the staff sheet. *)
Definition staffMappingOfRows (rows : list StaffRow) : gmap string cell :=
  fold_left
    (fun mapping r =>
       if truthy (sr_key r) && truthy (sr_name r)
       then <[toStr (sr_key r) := sr_name r]> mapping
       else mapping)
    rows ∅.

Definition getStaffMapping : M (gmap string cell) :=
  (w <- getW ;;
   match staffSheet w with
   | None => throw "Error: Staff Key to Staff name sheet not found"
   | Some rows => ret (staffMappingOfRows rows)
   end)%script.

(** [set.add(x)] *)
Definition Set_add (x : cell) (s : list cell) : list cell :=
  if bool_decide (x ∈ s) then s else s ++ [x].

(** ** Rate resolution and aggregation: [calculatePayments] *)

(** [staffMapping[staffKey]] *)
Definition staffMapping_at (staffMapping : gmap string cell) (staffKey : cell)
    : cell :=
  default CUndefined (staffMapping !! toStr staffKey).

(** The [rate] and [rateSource] the loop body computes for an item. *)
Definition resolveRate (payConfig : gmap string RateEntry)
    (staffKey taskType : cell) : number * string :=
  match payConfig !! toStr taskType with
  | Some entry =>
      match customRates entry !! toStr staffKey with
      | Some r =>
          if num_truthy r then (r, "custom")
          else (defaultRate entry, "default")
      | None => (defaultRate entry, "default")
      end
  | None => (Num 0, "none")
  end.

(** [staffMapping[staffKey] || staffKey] *)
Definition legalNameOf (staffMapping : gmap string cell) (staffKey : cell)
    : cell :=
  or_else (staffMapping_at staffMapping staffKey) staffKey.

(** The task object pushed for an item. *)
Definition taskOf (payConfig : gmap string RateEntry) (w : WorkItem) : Task :=
  let '(r, src) := resolveRate payConfig (staffName w) (taskType w) in
  {| work := w; rate := r; rateSource := src; hasValidRate := num_gt0 r |}.

Definition noRateRecordOf (w : WorkItem) : NoRateRecord :=
  {| nr_staffName := staffName w;
     nr_taskType := taskType w;
     nr_league := league w;
     nr_round := round w;
     nr_teams := toStr (team1 w) +:+ " vs " +:+ toStr (team2 w) |}.

(** One turn of [workLogData.forEach(work => ...)]. *)
Definition calculatePayments_step (payConfig : gmap string RateEntry)
    (staffMapping : gmap string cell)
    (acc : list (string * PaymentRecord) * Errors) (w : WorkItem)
    : list (string * PaymentRecord) * Errors :=
  let '(payments, errors) := acc in
  let staffKey_ := staffName w in
  let taskType_ := taskType w in
  let errors1 :=
    if negb (truthy (staffMapping_at staffMapping staffKey_)) then
      {| unmatchedTaskTypes := unmatchedTaskTypes errors;
         unmatchedStaffKeys := Set_add staffKey_ (unmatchedStaffKeys errors);
         tasksWithNoRate := tasksWithNoRate errors |}
    else errors in
  let errors2 :=
    match payConfig !! toStr taskType_ with
    | Some _ => errors1
    | None =>
        {| unmatchedTaskTypes := Set_add taskType_ (unmatchedTaskTypes errors1);
           unmatchedStaffKeys := unmatchedStaffKeys errors1;
           tasksWithNoRate := tasksWithNoRate errors1 ++ [noRateRecordOf w] |}
    end in
  let task := taskOf payConfig w in
  let legalName_ := legalNameOf staffMapping staffKey_ in
  let key := toStr legalName_ in
  let payments1 :=
    match obj_get key payments with
    | Some _ => payments
    | None =>
        payments ++
        [(key, {| staffKey := staffKey_;
                  legalName := legalName_;
                  hasMapping := truthy (staffMapping_at staffMapping staffKey_);
                  tasks := [];
                  totalAmount := Num 0 |})]
    end in
  let payments2 :=
    obj_update key
      (fun p => {| staffKey := staffKey p;
                   legalName := legalName p;
                   hasMapping := hasMapping p;
                   tasks := tasks p ++ [task];
                   totalAmount := num_add (totalAmount p) (rate task) |})
      payments1 in
  (payments2, errors2).

Definition noErrors : Errors :=
  {| unmatchedTaskTypes := []; unmatchedStaffKeys := []; tasksWithNoRate := [] |}.

Definition calculatePayments (workLogData : list WorkItem)
    (payConfig : gmap string RateEntry) (staffMapping : gmap string cell)
    : list (string * PaymentRecord) * Errors :=
  fold_left (calculatePayments_step payConfig staffMapping) workLogData
            ([], noErrors).

(** [Object.values(payments).reduce((sum, p) => sum + p.totalAmount, 0)] *)
Definition grandTotalOf (payments : list (string * PaymentRecord)) : number :=
  fold_left (fun sum p => num_add sum (totalAmount (snd p))) payments (Num 0).

(** ** The invoice builder: [createInvoice] *)

(** [invoiceColumns]: the 0-based index of each column in the header row
    of the Invoicing sheet, [-1] for a column the sheet lacks. *)
Record InvoiceColumns := {
  colInvoiceNumber : Z;
  colDate : Z;
  colContractor : Z;
  colWorkDone : Z;
  colTotal : Z;
  colPlaybackLinks : Z
}.

Definition invoiceColumnsOf (headers : list cell) : InvoiceColumns :=
  {| colInvoiceNumber := indexOf (CStr "Invoice Number") headers;
     colDate := indexOf (CStr "Date") headers;
     colContractor := indexOf (CStr "Contractor") headers;
     colWorkDone := indexOf (CStr "Work done") headers;
     colTotal := indexOf (CStr "Total") headers;
     colPlaybackLinks := indexOf (CStr "Playback Links") headers |}.

(** [Object.entries(invoiceColumns)] *)
Definition invoiceColumnEntries (ic : InvoiceColumns) : list (string * Z) :=
  [ ("Invoice Number", colInvoiceNumber ic); ("Date", colDate ic);
    ("Contractor", colContractor ic); ("Work done", colWorkDone ic);
    ("Total", colTotal ic); ("Playback Links", colPlaybackLinks ic) ].

(** [Math.max(...Object.values(invoiceColumns).filter(i => i !== -1))];
    [None] is the [-Infinity] of an empty argument list. *)
Definition maxColumnIndex (ic : InvoiceColumns) : option Z :=
  match
    List.filter (fun i => negb (i =? -1)) (map snd (invoiceColumnEntries ic))
  with
  | [] => None
  | x :: t => Some (fold_left Z.max t x)
  end.

(** [row[i] = v] *)
Definition arr_assign (row : list cell) (i : Z) (v : cell) : list cell :=
  set_nth CUndefined (Z.to_nat i) v row.

(** [tasksByType]: the tasks of a payment under the key of their type, in
    the order the types first occur. *)
Definition groupTasksByType (ts : list Task) : list (string * list Task) :=
  fold_left
    (fun tasksByType task =>
       let k := toStr (taskType (work task)) in
       let tasksByType1 :=
         match obj_get k tasksByType with
         | Some _ => tasksByType
         | None => tasksByType ++ [(k, [])]
         end in
       obj_update k (fun l => l ++ [task]) tasksByType1)
    ts [].

Definition workDoneSummaryOf (tasksByType : list (string * list Task))
    : string :=
  join newline
    (map (fun e => pretty (Z.of_nat (length (snd e))) +:+ " x " +:+ fst e)
         tasksByType).

Definition playbackLinksOf (tasksByType : list (string * list Task))
    : string :=
  join (newline +:+ newline)
    (map
       (fun e =>
          let header :=
            fst e +:+ " (" +:+ pretty (Z.of_nat (length (snd e)))
            +:+ " tasks):" in
          let links :=
            join newline
              (imap (fun index task =>
                       "  " +:+ pretty (Z.of_nat index + 1) +:+ ". "
                       +:+ toStr (playbackLink (work task)))
                    (snd e)) in
          header +:+ newline +:+ links)
       tasksByType).

(** The body of [Object.values(payments).forEach(payment => ...)]: the
    row pushed to [invoiceData].  With no column found, [new Array]
    receives [-Infinity + 1] and throws. *)
Definition invoiceRowOf (ic : InvoiceColumns) (env : Env)
    (invoiceNumber : string) (payment : PaymentRecord)
    : Outcome (list cell) :=
  let tasksByType := groupTasksByType (tasks payment) in
  let workDoneSummary := workDoneSummaryOf tasksByType in
  let playbackLinks := playbackLinksOf tasksByType in
  match maxColumnIndex ic with
  | None => Throw "RangeError: Invalid array length"
  | Some m =>
      let row := repeat blank (Z.to_nat (m + 1)) in
      let row :=
        if negb (colInvoiceNumber ic =? -1)
        then arr_assign row (colInvoiceNumber ic) (CStr invoiceNumber)
        else row in
      let row :=
        if negb (colDate ic =? -1)
        then arr_assign row (colDate ic) (timestamp env) else row in
      let row :=
        if negb (colContractor ic =? -1)
        then arr_assign row (colContractor ic) (legalName payment)
        else row in
      let row :=
        if negb (colWorkDone ic =? -1)
        then arr_assign row (colWorkDone ic) (CStr workDoneSummary)
        else row in
      let row :=
        if negb (colTotal ic =? -1)
        then arr_assign row (colTotal ic) (CNum (totalAmount payment))
        else row in
      let row :=
        if negb (colPlaybackLinks ic =? -1)
        then arr_assign row (colPlaybackLinks ic) (CStr playbackLinks)
        else row in
      Ok row
  end.

(** [invoiceData] after the loop over [Object.values(payments)]. *)
Fixpoint invoiceDataOf (ic : InvoiceColumns) (env : Env)
    (invoiceNumber : string) (payments : list (string * PaymentRecord))
    : Outcome (list (list cell)) :=
  match payments with
  | [] => Ok []
  | p :: t =>
      match invoiceRowOf ic env invoiceNumber (snd p) with
      | Throw e => Throw e
      | Ok row =>
          match invoiceDataOf ic env invoiceNumber t with
          | Throw e => Throw e
          | Ok rows => Ok (row :: rows)
          end
      end
  end.

(** [`INV-${dateStr}-${String(Math.floor(Math.random() * 1000)).padStart(3, '0')}`] *)
Definition invoiceNumberOf (env : Env) : string :=
  "INV-" +:+ dateStr env +:+ "-" +:+ padStart3 (pretty (random1000 env)).

Record InvoiceResult := {
  invoiceNumber : string;
  invoiceDate : cell;
  rowsCreated : nat
}.

Definition liftOutcome {A} (o : Outcome A) : M A := fun w => (o, w).

(** [invoicingSheet.getRange(r, c).setValue(v)] *)
Definition setInvoicingValue (r c : Z) (v : cell) : M unit :=
  (w <- getW ;;
   match invoicing w with
   | None => throw "TypeError: Cannot read properties of null"
   | Some sh =>
       match setValue sh r c v with
       | None => throw "Exception: The starting row or column of the range is too small"
       | Some sh' =>
           putW {| master := master w;
                   payConfigSheet := payConfigSheet w;
                   staffSheet := staffSheet w;
                   invoicing := Some sh' |}
       end
   end)%script.

(** [masterSheet.getRange(r, c).setValue(v)] *)
Definition setMasterValue (r c : Z) (v : cell) : M unit :=
  (w <- getW ;;
   match master w with
   | None => throw "TypeError: Cannot read properties of null"
   | Some sh =>
       match setValue sh r c v with
       | None => throw "Exception: The starting row or column of the range is too small"
       | Some sh' =>
           putW {| master := Some sh';
                   payConfigSheet := payConfigSheet w;
                   staffSheet := staffSheet w;
                   invoicing := invoicing w |}
       end
   end)%script.

(** [invoicingSheet.getRange(nextRow, columnIndex + 1, n, 1).setValues(columnData)]
    with [columnData = invoiceData.map(row => [row[columnIndex]])]. *)
Definition writeInvoiceColumn (nextRow : Z) (columnIndex : Z)
    (invoiceData : list (list cell)) : M unit :=
  forEachM
    (fun e : nat * list cell =>
       setInvoicingValue (nextRow + Z.of_nat (fst e)) (columnIndex + 1)
                         (at_ (snd e) (Some columnIndex)))
    (imap (fun k row => (k, row)) invoiceData).

(** [createInvoice(payments)].  The test [columnIndex < maxCols] of the
    write loop always holds, a found column lying inside the sheet. *)
Definition createInvoice (env : Env) (payments : list (string * PaymentRecord))
    : M InvoiceResult :=
  (w <- getW ;;
   match invoicing w with
   | None => throw "Error: Invoicing sheet not found"
   | Some invoicingSheet =>
       let headerRow := 2%nat in
       let headers := headerValues invoicingSheet headerRow in
       let ic := invoiceColumnsOf headers in
       let lastRow := getLastRow invoicingSheet in
       let nextRow :=
         if (headerRow <? lastRow)%nat then Z.of_nat lastRow + 1
         else Z.of_nat headerRow + 1 in
       let invoiceNumber_ := invoiceNumberOf env in
       invoiceData <- liftOutcome (invoiceDataOf ic env invoiceNumber_ payments) ;;
       (if (0 <? length invoiceData)%nat then
          forEachM
            (fun e : string * Z =>
               if negb (snd e =? -1)
               then writeInvoiceColumn nextRow (snd e) invoiceData
               else ret tt)
            (invoiceColumnEntries ic)
        else ret tt) ;;;
       ret {| invoiceNumber := invoiceNumber_;
              invoiceDate := timestamp env;
              rowsCreated := length invoiceData |}
   end)%script.

(** ** The ledger write: [markWorkAsInvoiced] *)

Definition markWorkAsInvoiced (workLogData : list WorkItem) : M unit :=
  (w <- getW ;;
   match master w with
   | None => throw "TypeError: Cannot read properties of null"
   | Some masterSheet =>
       paidColumnIndex <- getColumnIndex "MASTER" masterSheet "Paid" 2 ;;
       forEachM
         (fun work_ =>
            setMasterValue (rowIndex work_) paidColumnIndex (CStr "Invoiced"))
         workLogData
   end)%script.

(** ** Request handlers *)

Record Summary := {
  totalTasks : nat;
  totalStaff : nat;
  grandTotal : number
}.

Definition summaryOf (workLogData : list WorkItem)
    (payments : list (string * PaymentRecord)) : Summary :=
  {| totalTasks := length workLogData;
     totalStaff := length payments;
     grandTotal := grandTotalOf payments |}.

(** The JSON answer of [handleCalculatePayRequest]. *)
Inductive CommitResponse :=
| CommitNoUnpaidWork                       (* success: false, 'No unpaid work found' *)
| CommitSuccess (s : Summary) (e : Errors) (* success: true, 'Invoices created successfully' *)
| CommitError (e : string).                (* success: false, error *)

(** [handleCalculatePayRequest()] *)
Definition handleCalculatePayRequest (env : Env) : M CommitResponse :=
  tryCatch
    (workLogData <- getUnpaidWorkFromMaster ;;
     if (length workLogData =? 0)%nat then ret CommitNoUnpaidWork
     else
       payConfig <- getPayConfiguration ;;
       staffMapping <- getStaffMapping ;;
       let '(payments, errors) :=
         calculatePayments workLogData payConfig staffMapping in
       createInvoice env payments ;;;
       markWorkAsInvoiced workLogData ;;;
       ret (CommitSuccess (summaryOf workLogData payments) errors))%script
    (fun error => ret (CommitError error)).

(** The answer of [createInvoicesAndMark]. *)
Inductive MarkResponse :=
| MarkSuccess (r : InvoiceResult)
| MarkError (e : string).

(** [createInvoicesAndMark(workLogData, payments)] *)
Definition createInvoicesAndMark (env : Env) (workLogData : list WorkItem)
    (payments : list (string * PaymentRecord)) : M MarkResponse :=
  tryCatch
    (if (length workLogData =? 0)%nat then
       ret (MarkError "No work data provided")
     else if (length payments =? 0)%nat then
       ret (MarkError "No payment data provided")
     else
       invoiceResult <- createInvoice env payments ;;
       markWorkAsInvoiced workLogData ;;;
       ret (MarkSuccess invoiceResult))%script
    (fun error => ret (MarkError error)).

(** The object [calculateStaffPay] returns. *)
Inductive CalcResponse :=
| CalcNoUnpaidWork
| CalcSuccess (workLogData : list WorkItem)
              (payments : list (string * PaymentRecord))
              (errors : Errors) (summary : Summary)
| CalcError (e : string).

(** [calculateStaffPay()] *)
Definition calculateStaffPay : M CalcResponse :=
  tryCatch
    (workLogData <- getUnpaidWorkFromMaster ;;
     if (length workLogData =? 0)%nat then ret CalcNoUnpaidWork
     else
       payConfig <- getPayConfiguration ;;
       staffMapping <- getStaffMapping ;;
       let '(payments, errors) :=
         calculatePayments workLogData payConfig staffMapping in
       ret (CalcSuccess workLogData payments errors
                        (summaryOf workLogData payments)))%script
    (fun error => ret (CalcError error)).

(** *** The preview *)

(** An element of [tasks] in the payments the preview returns. *)
Record PreviewTask := {
  pt_rowIndex : Z;
  pt_staffName : string;
  pt_taskType : string;
  pt_league : string;
  pt_round : string;
  pt_team1 : string;
  pt_team2 : string;
  pt_rate : number;
  pt_rateSource : string;
  pt_hasValidRate : bool
}.

(** [result.payments[staffName]] of the preview. *)
Record PreviewPayment := {
  pp_staffKey : string;
  pp_legalName : string;
  pp_hasMapping : bool;
  pp_totalAmount : number;
  pp_taskCount : nat;
  pp_tasks : list PreviewTask
}.

(** [String(x || '')] *)
Definition stringOrEmpty (x : cell) : string := toStr (or_else x (CStr "")).

(** [Number(x || 0)] on a number *)
Definition numberOrZero (x : number) : number :=
  if num_truthy x then x else Num 0.

Definition previewTaskOf (task : Task) : PreviewTask :=
  {| pt_rowIndex := rowIndex (work task);
     pt_staffName := stringOrEmpty (staffName (work task));
     pt_taskType := stringOrEmpty (taskType (work task));
     pt_league := stringOrEmpty (league (work task));
     pt_round := stringOrEmpty (round (work task));
     pt_team1 := stringOrEmpty (team1 (work task));
     pt_team2 := stringOrEmpty (team2 (work task));
     pt_rate := numberOrZero (rate task);
     pt_rateSource := rateSource task;
     pt_hasValidRate := hasValidRate task |}.

Definition previewPaymentOf (payment : PaymentRecord) : PreviewPayment :=
  {| pp_staffKey := stringOrEmpty (staffKey payment);
     pp_legalName := stringOrEmpty (legalName payment);
     pp_hasMapping := hasMapping payment;
     pp_totalAmount := numberOrZero (totalAmount payment);
     pp_taskCount := length (tasks payment);
     pp_tasks := map previewTaskOf (tasks payment) |}.

(** [Object.keys(payments).forEach(staffName => result.payments[staffName] = ...)] *)
Definition previewPaymentsOf (payments : list (string * PaymentRecord))
    : list (string * PreviewPayment) :=
  map (fun e => (fst e, previewPaymentOf (snd e))) payments.

Inductive PreviewResponse :=
| PreviewNoUnpaidWork
| PreviewSuccess (summary : Summary) (errors : Errors)
                 (payments : list (string * PreviewPayment))
| PreviewError (e : string).

(** [handleCalculatePayPreviewRequest(true)]: the object returned. *)
Definition handleCalculatePayPreviewRequest : M PreviewResponse :=
  tryCatch
    (workLogData <- getUnpaidWorkFromMaster ;;
     if (length workLogData =? 0)%nat then ret PreviewNoUnpaidWork
     else
       payConfig <- getPayConfiguration ;;
       staffMapping <- getStaffMapping ;;
       let '(payments, errors) :=
         calculatePayments workLogData payConfig staffMapping in
       ret (PreviewSuccess (summaryOf workLogData payments) errors
                           (previewPaymentsOf payments)))%script
    (fun error => ret (PreviewError error)).

(** ** Returned objects as JavaScript values *)

#[local] Unset Elimination Schemes.
Inductive jsval :=
| JCell (c : cell)
| JArray (l : list jsval)
| JObject (fields : list (string * jsval)).
#[local] Set Elimination Schemes.

(** Deep equality: same primitives, arrays equal element by element,
    objects with the same keys and deep-equal values under each. *)
Fixpoint deepEqual (a b : jsval) : bool :=
  match a, b with
  | JCell x, JCell y => strictEq x y
  | JArray xs, JArray ys =>
      (fix go (xs ys : list jsval) : bool :=
         match xs, ys with
         | [], [] => true
         | x :: xs', y :: ys' => deepEqual x y && go xs' ys'
         | _, _ => false
         end) xs ys
  | JObject fs, JObject gs =>
      (length fs =? length gs)%nat &&
      (fix go (fs : list (string * jsval)) : bool :=
         match fs with
         | [] => true
         | (k, v) :: fs' =>
             match obj_get k gs with
             | Some v' => deepEqual v v'
             | None => false
             end && go fs'
         end) fs
  | _, _ => false
  end.

Definition JNum (z : Z) : jsval := JCell (CNum (Num z)).
Definition JStr (s : string) : jsval := JCell (CStr s).

Definition js_of_task (t : Task) : jsval :=
  JObject
    [ ("rowIndex", JNum (rowIndex (work t)));
      ("staffName", JCell (staffName (work t)));
      ("taskType", JCell (taskType (work t)));
      ("league", JCell (league (work t)));
      ("round", JCell (round (work t)));
      ("team1", JCell (team1 (work t)));
      ("team2", JCell (team2 (work t)));
      ("playbackLink", JCell (playbackLink (work t)));
      ("doneDate", JCell (doneDate (work t)));
      ("rate", JCell (CNum (rate t)));
      ("rateSource", JStr (rateSource t));
      ("hasValidRate", JCell (CBool (hasValidRate t))) ].

Definition js_of_payment (p : PaymentRecord) : jsval :=
  JObject
    [ ("staffKey", JCell (staffKey p));
      ("legalName", JCell (legalName p));
      ("hasMapping", JCell (CBool (hasMapping p)));
      ("tasks", JArray (map js_of_task (tasks p)));
      ("totalAmount", JCell (CNum (totalAmount p))) ].

Definition js_of_payments (ps : list (string * PaymentRecord)) : jsval :=
  JObject (map (fun e => (fst e, js_of_payment (snd e))) ps).

Definition js_of_previewTask (t : PreviewTask) : jsval :=
  JObject
    [ ("rowIndex", JNum (pt_rowIndex t));
      ("staffName", JStr (pt_staffName t));
      ("taskType", JStr (pt_taskType t));
      ("league", JStr (pt_league t));
      ("round", JStr (pt_round t));
      ("team1", JStr (pt_team1 t));
      ("team2", JStr (pt_team2 t));
      ("rate", JCell (CNum (pt_rate t)));
      ("rateSource", JStr (pt_rateSource t));
      ("hasValidRate", JCell (CBool (pt_hasValidRate t))) ].

Definition js_of_previewPayment (p : PreviewPayment) : jsval :=
  JObject
    [ ("staffKey", JStr (pp_staffKey p));
      ("legalName", JStr (pp_legalName p));
      ("hasMapping", JCell (CBool (pp_hasMapping p)));
      ("totalAmount", JCell (CNum (pp_totalAmount p)));
      ("taskCount", JNum (Z.of_nat (pp_taskCount p)));
      ("tasks", JArray (map js_of_previewTask (pp_tasks p))) ].

Definition js_of_previewPayments (ps : list (string * PreviewPayment))
    : jsval :=
  JObject (map (fun e => (fst e, js_of_previewPayment (snd e))) ps).

(** ** The selector as the specification words it *)

(** Indices in [data] of the ledger rows: all rows after the two header
    rows, in ledger order. *)
Definition ledgerRowIndices (sh : sheet) : list nat :=
  seq 2 (length (getValues sh) - 2).

(** The status of the row at index [i]: its cell under the header that
    contains the word status. *)
Definition rowStatus (sh : sheet) (i : nat) : cell :=
  let headers := headerValues sh 2 in
  readCell sh i (indexOf (findStatusColumnName headers) headers).

(** The paid value of the row at index [i]: its cell under [Paid]. *)
Definition rowPaid (sh : sheet) (i : nat) : cell :=
  readCell sh i (indexOf (CStr "Paid") (headerValues sh 2)).

(** Eligible work item: status "Done" and paid state not in
    {"Paid", "Invoiced"}. *)
Definition eligible_spec (sh : sheet) (i : nat) : bool :=
  bool_decide (rowStatus sh i = CStr "Done"
               /\ rowPaid sh i <> CStr "Paid"
               /\ rowPaid sh i <> CStr "Invoiced").


(** The eligible rows, in ledger order, each as a work item. *)
Definition unpaidWork_spec (sh : sheet) : list WorkItem :=
  map (fun i => workItemOf (masterCols sh) i (nth i (getValues sh) []))
      (List.filter (eligible_spec sh) (ledgerRowIndices sh)).

(** ** Aggregation as the specification words it *)

(** The grouping key of an item: its resolved legal name. *)
Definition legalKey (staffMapping : gmap string cell) (w : WorkItem) : string :=
  toStr (legalNameOf staffMapping (staffName w)).

(** Sum of a list of amounts. *)
Definition sumOf (l : list number) : number := fold_right num_add (Num 0) l.

(** All the tasks of all the payment records. *)
Definition allTasks (payments : list (string * PaymentRecord)) : list Task :=
  concat (map (fun e => tasks (snd e)) payments).

(** The items grouped under the key [k]. *)
Definition itemsOf (staffMapping : gmap string cell) (k : string)
    (ws : list WorkItem) : list WorkItem :=
  List.filter (fun w => String.eqb (legalKey staffMapping w) k) ws.


(** The payments part and the errors part of one turn of the loop. *)
Definition payments_step (payConfig : gmap string RateEntry)
    (staffMapping : gmap string cell)
    (payments : list (string * PaymentRecord)) (w : WorkItem) :=
  fst (calculatePayments_step payConfig staffMapping (payments, noErrors) w).

Definition errors_step (payConfig : gmap string RateEntry)
    (staffMapping : gmap string cell) (errors : Errors) (w : WorkItem) :=
  snd (calculatePayments_step payConfig staffMapping ([], errors) w).

(** The record created at the first sight of a legal name. *)
Definition freshRecord (staffMapping : gmap string cell) (w : WorkItem)
    : PaymentRecord :=
  {| staffKey := staffName w;
     legalName := legalNameOf staffMapping (staffName w);
     hasMapping := truthy (staffMapping_at staffMapping (staffName w));
     tasks := [];
     totalAmount := Num 0 |}.

(** [payments[legalName].tasks.push(task); payments[legalName].totalAmount += rate] *)
Definition pushTask (task : Task) (p : PaymentRecord) : PaymentRecord :=
  {| staffKey := staffKey p;
     legalName := legalName p;
     hasMapping := hasMapping p;
     tasks := tasks p ++ [task];
     totalAmount := num_add (totalAmount p) (rate task) |}.

(** What a payment record under the key [k] holds once the items [ws]
    have been processed. *)
Definition record_ok (payConfig : gmap string RateEntry)
    (staffMapping : gmap string cell) (ws : list WorkItem)
    (k : string) (p : PaymentRecord) : Prop :=
  tasks p = map (taskOf payConfig) (itemsOf staffMapping k ws)
  /\ totalAmount p = sumOf (map rate (tasks p))
  /\ exists w0 rest,
       itemsOf staffMapping k ws = w0 :: rest
       /\ staffKey p = staffName w0
       /\ legalName p = legalNameOf staffMapping (staffName w0)
       /\ hasMapping p = truthy (staffMapping_at staffMapping (staffName w0)).

Definition payments_ok (payConfig : gmap string RateEntry)
    (staffMapping : gmap string cell) (ws : list WorkItem)
    (payments : list (string * PaymentRecord)) : Prop :=
  List.NoDup (map fst payments)
  /\ (forall k p, In (k, p) payments -> record_ok payConfig staffMapping ws k p)
  /\ (forall w, In w ws -> In (legalKey staffMapping w) (map fst payments)).



(** ** Sample data *)

Module Sample.

Definition item (row : Z) (staff type : string) : WorkItem :=
  {| rowIndex := row;
     staffName := CStr staff;
     taskType := CStr type;
     league := CStr "NBL";
     round := CNum (Num 3);
     team1 := CStr "Hawks";
     team2 := CStr "Kings";
     playbackLink := CStr "https://playback.example/g";
     doneDate := CDate "Sat Jul 19 2025" |}.

(** Pay Config: Play-by-play at 100,000 by default and 150,000 for S1. *)
Definition payRows : list PayConfigRow :=
  [ {| pc_taskType := CStr "Play-by-play";
       pc_defaultRate := Num 100000;
       pc_staffName := CStr "S1";
       pc_customRate := Some (Num 150000) |} ].

Definition payConfig : gmap string RateEntry := payConfigOfRows payRows.

(** Staff directory: the keys S1 and S2 are the same legal payee. *)
Definition staffRows : list StaffRow :=
  [ {| sr_key := CStr "S1"; sr_name := CStr "Nguyen Van A" |};
    {| sr_key := CStr "S2"; sr_name := CStr "Nguyen Van A" |} ].

Definition staffMapping : gmap string cell := staffMappingOfRows staffRows.

Definition w1 : WorkItem := item 3 "S1" "Play-by-play".
Definition w2 : WorkItem := item 4 "S2" "Play-by-play".
Definition w3 : WorkItem := item 5 "S9" "Unknown level".

(** A MASTER sheet: a title row, the header row, and three rows of work:
    one done and paid, one done and unpaid, one not done. *)
Definition ledger : sheet :=
  [ [CStr "Work log"];
    [CStr "Assign"; CStr "STATS LEVEL"; CStr "LEAGUE"; CStr "Status";
     CStr "Paid"];
    [CStr "S1"; CStr "Play-by-play"; CStr "NBL"; CStr "Done"; CStr "Paid"];
    [CStr "S2"; CStr "Play-by-play"; CStr "NBL"; CStr "Done"; CStr ""];
    [CStr "S1"; CStr "Play-by-play"; CStr "NBL"; CStr "Assigned"] ].

(** An Invoicing sheet with its header row and no invoice yet. *)
Definition invoices : sheet :=
  [ [CStr "Invoices"];
    [CStr "Invoice Number"; CStr "Date"; CStr "Contractor"; CStr "Work done";
     CStr "Total"; CStr "Playback Links"] ].

Definition world : World :=
  {| master := Some ledger;
     payConfigSheet := Some payRows;
     staffSheet := Some staffRows;
     invoicing := Some invoices |}.

(** The same spreadsheets without the Invoicing sheet. *)
Definition worldNoInvoicing : World :=
  {| master := Some ledger;
     payConfigSheet := Some payRows;
     staffSheet := Some staffRows;
     invoicing := None |}.

Definition env : Env :=
  {| timestamp := CDate "Sun Jul 20 2025";
     dateStr := "20250720";
     random1000 := 7 |}.

End Sample.

(** The name whose index [getColumnIndices] leaves under the key [k]: the
    last of [names] with that key. *)
Fixpoint lastNamed (k : string) (names : list cell) : option cell :=
  match names with
  | [] => None
  | n :: t =>
      match lastNamed k t with
      | Some x => Some x
      | None => if String.eqb (toStr n) k then Some n else None
      end
  end.

(** ** Ledger writes as a function of the sheet *)

(** The MASTER sheet after ["Invoiced"] is written at column [c] (from 1)
    of each of the rows [rows] (from 1). *)
Definition markRows (sh : sheet) (rows : list Z) (c : Z) : sheet :=
  fold_left
    (fun sh r => writeCell sh (Z.to_nat (r - 1)) (Z.to_nat (c - 1))
                           (CStr "Invoiced"))
    rows sh.

(** The world with another MASTER sheet. *)
Definition withMaster (w : World) (sh : sheet) : World :=
  {| master := Some sh;
     payConfigSheet := payConfigSheet w;
     staffSheet := staffSheet w;
     invoicing := invoicing w |}.

(** The world with another Invoicing sheet. *)
Definition withInvoicing (w : World) (sh : sheet) : World :=
  {| master := master w;
     payConfigSheet := payConfigSheet w;
     staffSheet := staffSheet w;
     invoicing := Some sh |}.

(** Everything but the Invoicing sheet is the same in both worlds. *)
Definition sameLedger (w w' : World) : Prop :=
  master w' = master w
  /\ payConfigSheet w' = payConfigSheet w
  /\ staffSheet w' = staffSheet w.

(** The 1-based column of [Paid] in the MASTER sheet. *)
Definition paidColumn (sh : sheet) : Z :=
  indexOf (CStr "Paid") (headerValues sh 2) + 1.

(** Two sheets with the same number of rows and columns and the same
    second row, the header row of MASTER and of Invoicing. *)
Definition sameShape (sh sh' : sheet) : Prop :=
  length sh' = length sh
  /\ getLastColumn sh' = getLastColumn sh
  /\ nth 1 sh' [] = nth 1 sh [].

(** ** Invoice writes as a function of the sheet *)

(** [nextRow] of [createInvoice]: the row after the last row of the
    Invoicing sheet, and at least the row after its header row. *)
Definition invoiceNextRow (sh : sheet) : Z :=
  if (2 <? getLastRow sh)%nat then Z.of_nat (getLastRow sh) + 1
  else Z.of_nat 2 + 1.

(** The sheet after [writeInvoiceColumn]. *)
Definition writeColumn (sh : sheet) (nextRow col : Z)
    (data : list (list cell)) : sheet :=
  fold_left
    (fun sh e =>
       writeCell sh (Z.to_nat (nextRow + Z.of_nat (fst e) - 1))
                 (Z.to_nat (col + 1 - 1)) (at_ (snd e) (Some col)))
    (imap (fun k row => (k, row)) data) sh.

(** The sheet after the write loop of [createInvoice]. *)
Definition writeColumns (sh : sheet) (nextRow : Z) (entries : list (string * Z))
    (data : list (list cell)) : sheet :=
  fold_left
    (fun sh e =>
       if negb (snd e =? -1) then writeColumn sh nextRow (snd e) data else sh)
    entries sh.

(** [if (c !== -1) row[c] = v] *)
Definition assignIf (c : Z) (v : cell) (row : list cell) : list cell :=
  if negb (c =? -1) then arr_assign row c v else row.

(** ** The preview, read off the calculation *)

(** The answer of the preview for an answer of [calculateStaffPay]. *)
Definition previewOfCalc (r : CalcResponse) : PreviewResponse :=
  match r with
  | CalcNoUnpaidWork => PreviewNoUnpaidWork
  | CalcSuccess _ payments errors summary =>
      PreviewSuccess summary errors (previewPaymentsOf payments)
  | CalcError e => PreviewError e
  end.

(** ** The earlier invoice builder *)

Module Legacy.

(** [createInvoices] of the earlier version of the script kept beside
    [Code.js]: a sequence number counts the rows, and row [k] (from 0)
    receives
    [`INV-${dateStr}-${String(invoiceSequence).padStart(3, '0')}`]. *)
Definition invoiceNumberOfRow (env : Env) (k : nat) : string :=
  "INV-" +:+ dateStr env +:+ "-" +:+ padStart3 (pretty (Z.of_nat k + 1)).

End Legacy.

(** * Further definitions *)

(** ** Configuration as a function of the rows *)

(** One turn of the loop of [getPayConfiguration]. *)
Definition payConfig_step (payConfig : gmap string RateEntry)
    (r : PayConfigRow) : gmap string RateEntry :=
  let k := toStr (pc_taskType r) in
  let payConfig1 :=
    match payConfig !! k with
    | Some _ => payConfig
    | None =>
        <[k := {| defaultRate := pc_defaultRate r; customRates := ∅ |}]>
          payConfig
    end in
  match pc_customRate r with
  | Some customRate =>
      if truthy (pc_staffName r) && num_truthy customRate then
        match payConfig1 !! k with
        | Some e =>
            <[k := {| defaultRate := defaultRate e;
                      customRates :=
                        <[toStr (pc_staffName r) := customRate]>
                          (customRates e) |}]> payConfig1
        | None => payConfig1
        end
      else payConfig1
  | None => payConfig1
  end.

(** The row is of the task type with key [k]. *)
Definition isOfType (k : string) (r : PayConfigRow) : bool :=
  String.eqb (toStr (pc_taskType r)) k.

(** The row sets the custom rate of the staff key [s] for the type [k]:
    it names both, and its staff name and custom rate are truthy. *)
Definition setsCustomRate (k s : string) (r : PayConfigRow) : bool :=
  isOfType k r
  && String.eqb (toStr (pc_staffName r)) s
  && truthy (pc_staffName r)
  && match pc_customRate r with
     | Some c => num_truthy c
     | None => false
     end.


(** The column names [getUnpaidWorkFromMaster] reads the fields of an item
    from, beside the status column. *)
Definition masterFieldNames : list string :=
  [ "Assign"; "Due Date"; "LEAGUE"; "Round"; "Team 1"; "Team 2";
    "STATS LEVEL"; "Youtube link"; "QA"; "Playback Link";
    "Team 1 Public Stats Link"; "Team 2 Public Stats link";
    "Paid"; "Paid Date"; "Payment Method"; "Done Date" ].

(** ** Order of the keys of an object filled by a loop *)

(** The values of a list, each once, in the order of their first
    occurrence. *)
Fixpoint firstOccurrences {A} `{EqDecision A} (l : list A) : list A :=
  match l with
  | [] => []
  | x :: r =>
      x :: List.filter (fun y => negb (bool_decide (y = x))) (firstOccurrences r)
  end.


(** A string of decimal digits.  An object lists the keys that are array
    indices, which are such strings, before its other keys; the other keys
    come in the order of their creation. *)
Definition isDigit (a : ascii) : bool :=
  (48 <=? nat_of_ascii a)%nat && (nat_of_ascii a <=? 57)%nat.

Definition allDigits (s : string) : bool :=
  negb (String.eqb s "") && forallb isDigit (list_ascii_of_string s).

(** The key of a task in [tasksByType]. *)
Definition typeKey (t : Task) : string := toStr (taskType (work t)).

(** ** Sheets that keep their header row *)

(** [sh'] has the rows of [sh] or more, the same number of columns and
    the same second row. *)
Definition sameHeader (sh sh' : sheet) : Prop :=
  (length sh <= length sh')%nat
  /\ getLastColumn sh' = getLastColumn sh
  /\ nth 1 sh' [] = nth 1 sh [].

(** ** Further request handlers *)

(** The JSON answer of [handleStatusRequest]; [lastCheck], the time of the
    call, is left out. *)
Inductive StatusResponse :=
| StatusSuccess (unpaidTasks : nat)   (* success: true, status *)
| StatusError (e : string).           (* success: false, error *)

(** [handleStatusRequest()] *)
Definition handleStatusRequest : M StatusResponse :=
  tryCatch
    (workLogData <- getUnpaidWorkFromMaster ;;
     ret (StatusSuccess (length workLogData)))%script
    (fun error => ret (StatusError error)).

(** The JSON answer of [doPost]. *)
Inductive PostResponse :=
| PostPreview (r : PreviewResponse)
| PostCalc (r : CalcResponse)
| PostMark (r : MarkResponse) (summary : Summary)
                                      (* {...invoiceResult, summary} *)
| PostInvalid (functionName : cell).  (* error: Invalid function name *)

(** [doPost(e)] for a body [{function: functionName, preview: preview}].
    The functions it calls catch their own errors. *)
Definition doPost (env : Env) (functionName preview : cell) : M PostResponse :=
  (if strictEq functionName (CStr "calculateStaffPay") then
     if truthy preview then
       result <- handleCalculatePayPreviewRequest ;; ret (PostPreview result)
     else
       calcResult <- calculateStaffPay ;; ret (PostCalc calcResult)
   else if strictEq functionName (CStr "createInvoicesAndMark") then
     payResult <- calculateStaffPay ;;
     match payResult with
     | CalcSuccess workLogData payments _ summary =>
         invoiceResult <- createInvoicesAndMark env workLogData payments ;;
         ret (PostMark invoiceResult summary)
     | _ => ret (PostCalc payResult)
     end
   else ret (PostInvalid functionName))%script.

(** ** A ledger without the Paid column *)

Module SampleNoPaid.

Definition ledger : sheet :=
  [ [CStr "Work log"];
    [CStr "Assign"; CStr "STATS LEVEL"; CStr "LEAGUE"; CStr "Status"];
    [CStr "S1"; CStr "Play-by-play"; CStr "NBL"; CStr "Done"];
    [CStr "S2"; CStr "Play-by-play"; CStr "NBL"; CStr "Assigned"] ].

Definition world : World :=
  {| master := Some ledger;
     payConfigSheet := Some Sample.payRows;
     staffSheet := Some Sample.staffRows;
     invoicing := Some Sample.invoices |}.

End SampleNoPaid.

(** ** PDF export of invoice rows *)

(** The eight columns of the exported table. *)
Definition exportColumns : list string :=
  [ "Contractor"; "Work done"; "Total"; "Email"; "ACCOUNT NAME"; "ACC NUMBER";
    "BANK"; "Playback Links" ].

(** The object [exportInvoicesPDF] returns: with [success: true] the file
    name, the number of rows and, here, the table written to the temporary
    spreadsheet the PDF is made of; with [success: false] the error. *)
Inductive ExportResponse :=
| ExportSuccess (filename : string) (table : list (list cell))
                (rowsExported : nat)
| ExportFailure (error : string).

(** [a === b] for a value [a] read from a sheet: a Date read from a sheet
    is an object of its own, identical to no other value. *)
Definition strictEqRead (a b : cell) : bool :=
  match a with
  | CDate _ => false
  | _ => strictEq a b
  end.

(** [xs.filter((x, idx) => p(x, idx))] *)
Definition filteri {A} (p : A -> nat -> bool) (xs : list A) : list A :=
  map snd
    (List.filter (fun e : nat * A => p (snd e) (fst e))
                 (imap (fun idx x => (idx, x)) xs)).

(** The value exported for the cell [value] of column [exportIndex] of the
    table: the ACC NUMBER column is forced to text. *)
Definition exportCell (exportIndex : nat) (value : cell) : cell :=
  let accNumberIndex := indexOf (CStr "ACC NUMBER") (map CStr exportColumns) in
  if Z.of_nat exportIndex =? accNumberIndex then
    match value with
    | CUndefined => value
    | _ => CStr ("'" +:+ toStr value)
    end
  else value.

Section PdfExport.

(** The calendar: [new Date(v).toDateString()], and whether [new Date(v)]
    is at or after the cutoff, [daysBack] days before the time of the call
    ([None] is [null]). *)
Variable toDateString : cell -> string.
Variable notBeforeCutoff : option number -> cell -> bool.

(** The filter of [exportInvoicesPDF] on a data row. *)
Definition exportFilter (invoiceNumber : cell) (daysBack : option number)
    (specificDate : cell) (invoiceNumberCol dateCol : Z) (row : list cell)
    : bool :=
  if truthy invoiceNumber then
    if truthy specificDate then
      strictEqRead (at_ row (Some invoiceNumberCol)) invoiceNumber
      && String.eqb (toDateString (at_ row (Some dateCol)))
                    (toDateString specificDate)
    else strictEqRead (at_ row (Some invoiceNumberCol)) invoiceNumber
  else notBeforeCutoff daysBack (at_ row (Some dateCol)).

(** [exportInvoicesPDF(invoiceNumber, daysBack, specificDate)].  With no
    row left by the filter the object to return is built from
    [dataRows.length], and no variable [dataRows] exists: the reference
    error is caught by the handler of the function.  The PDF itself and the
    layout of the temporary spreadsheet are left out. *)
Definition exportInvoicesPDF (env : Env) (invoiceNumber : cell)
    (daysBack : option number) (specificDate : cell) (w : World)
    : ExportResponse :=
  match invoicing w with
  | None => ExportFailure "Error: Invoicing sheet not found"
  | Some invoicingSheet =>
      let headerRow := 2%nat in
      let lastRow := getLastRow invoicingSheet in
      if (lastRow <=? headerRow)%nat then ExportFailure "No invoice data found"
      else
        let allData := skipn (headerRow - 1) (getValues invoicingSheet) in
        let allHeaders := hd [] allData in
        let allDataRows := tl allData in
        let invoiceNumberCol := indexOf (CStr "Invoice Number") allHeaders in
        let dateCol := indexOf (CStr "Date") allHeaders in
        let exportColIndices :=
          map (fun col => indexOf (CStr col) allHeaders) exportColumns in
        let missingColumns :=
          filteri (fun col idx => nth idx exportColIndices 0 =? -1)
                  exportColumns in
        if (0 <? length missingColumns)%nat then
          ExportFailure ("Error: Missing columns: " +:+ join ", " missingColumns)
        else if invoiceNumberCol =? -1 then
          ExportFailure "Error: Invoice Number column not found"
        else
          let filteredAllDataRows :=
            List.filter
              (exportFilter invoiceNumber daysBack specificDate
                            invoiceNumberCol dateCol)
              allDataRows in
          let filteredRows :=
            map (fun row =>
                   imap (fun exportIndex colIndex =>
                           exportCell exportIndex (at_ row (Some colIndex)))
                        exportColIndices)
                filteredAllDataRows in
          if (length filteredRows =? 0)%nat then
            ExportFailure "ReferenceError: dataRows is not defined"
          else
            let filename :=
              if truthy invoiceNumber
              then "Invoice_" +:+ toStr invoiceNumber +:+ "_" +:+ dateStr env
                   +:+ ".pdf"
              else "Invoices_Recent_" +:+ dateStr env +:+ ".pdf" in
            ExportSuccess filename (map CStr exportColumns :: filteredRows)
                          (length filteredRows)
  end.

(** [exportLatestInvoicePDF()] *)
Definition exportLatestInvoicePDF (env : Env) (w : World) : ExportResponse :=
  match invoicing w with
  | None => ExportFailure "Error: Invoicing sheet not found"
  | Some invoicingSheet =>
      let headerRow := 2%nat in
      let lastRow := getLastRow invoicingSheet in
      if (lastRow <=? headerRow)%nat then ExportFailure "No invoice data found"
      else
        let headers := headerValues invoicingSheet headerRow in
        let invoiceNumberCol := indexOf (CStr "Invoice Number") headers in
        let dateCol := indexOf (CStr "Date") headers in
        if invoiceNumberCol =? -1 then
          ExportFailure "Error: Invoice Number column not found"
        else if dateCol =? -1 then
          ExportFailure "Error: Date column not found"
        else
          let latestInvoiceNumber :=
            getCell invoicingSheet lastRow (Z.to_nat (invoiceNumberCol + 1)) in
          let latestInvoiceDate :=
            getCell invoicingSheet lastRow (Z.to_nat (dateCol + 1)) in
          exportInvoicesPDF env latestInvoiceNumber None latestInvoiceDate w
  end.

End PdfExport.

(** The rows below the header row of the Invoicing sheet, as
    [getValues] gives them. *)
Definition invoiceDataRows (sh : sheet) : list (list cell) :=
  tl (skipn 1 (getValues sh)).

(** The eight cells exported for a row. *)
Definition exportRowOf (headers row : list cell) : list cell :=
  imap (fun exportIndex colIndex =>
          exportCell exportIndex (at_ row (Some colIndex)))
       (map (fun col => indexOf (CStr col) headers) exportColumns).

(** The header row of the Invoicing sheet has the eight export columns and
    the Invoice Number column. *)
Definition exportable (sh : sheet) : Prop :=
  (forall col, In col exportColumns ->
     indexOf (CStr col) (headerValues sh 2) <> -1)
  /\ indexOf (CStr "Invoice Number") (headerValues sh 2) <> -1.

(** An Invoicing sheet with all the columns and two invoices. *)
Module SampleExport.

Definition invoices : sheet :=
  [ [CStr "Invoices"];
    [CStr "Invoice Number"; CStr "Date"; CStr "Contractor"; CStr "Work done";
     CStr "Total"; CStr "Playback Links"; CStr "Email"; CStr "ACCOUNT NAME";
     CStr "ACC NUMBER"; CStr "BANK"];
    [CStr "INV-20250719-001"; CDate "Sat Jul 19 2025"; CStr "Tran Thi B";
     CStr "1 x Play-by-play"; CNum (Num 100000); CStr "links";
     CStr "b@example.org"; CStr "TRAN THI B"; CNum (Num 12345); CStr "VCB"];
    [CStr "INV-20250720-007"; CDate "Sun Jul 20 2025"; CStr "Nguyen Van A";
     CStr "2 x Play-by-play"; CNum (Num 250000); CStr "links";
     CStr "a@example.org"; CStr "NGUYEN VAN A"; CStr "0071000"; CStr "ACB"] ].

Definition world : World :=
  {| master := Some Sample.ledger;
     payConfigSheet := Some Sample.payRows;
     staffSheet := Some Sample.staffRows;
     invoicing := Some invoices |}.

(** A calendar for the sample: the day of a date is its text. *)
Definition toDateString (c : cell) : string := toStr c.
Definition notBeforeCutoff (daysBack : option number) (c : cell) : bool := true.

End SampleExport.

(** The rows of the Invoicing sheet below its header row, by number. *)
Definition invoiceRowNumbers (sh : sheet) : list nat := seq 3 (length sh - 2).

(** The cell of row [r] in the column named [col] of the Invoicing
    sheet. *)
Definition invoiceCell (sh : sheet) (r : nat) (col : string) : cell :=
  getCell sh r (Z.to_nat (indexOf (CStr col) (headerValues sh 2) + 1)).

(** The eight cells exported for row [r] of the Invoicing sheet. *)
Definition sheetExportRow (sh : sheet) (r : nat) : list cell :=
  [ invoiceCell sh r "Contractor"; invoiceCell sh r "Work done";
    invoiceCell sh r "Total"; invoiceCell sh r "Email";
    invoiceCell sh r "ACCOUNT NAME";
    match invoiceCell sh r "ACC NUMBER" with
    | CUndefined => CUndefined
    | v => CStr ("'" +:+ toStr v)
    end;
    invoiceCell sh r "BANK"; invoiceCell sh r "Playback Links" ].

(** ** The payment summary shown in the spreadsheet *)

(** The three counts of a payment in the summary. *)
Definition customRateTasks (payment : PaymentRecord) : nat :=
  length (List.filter (fun t => String.eqb (rateSource t) "custom")
                      (tasks payment)).

Definition defaultRateTasks (payment : PaymentRecord) : nat :=
  length (List.filter (fun t => String.eqb (rateSource t) "default")
                      (tasks payment)).

Definition noRateTasks (payment : PaymentRecord) : nat :=
  length (List.filter (fun t => negb (hasValidRate t)) (tasks payment)).

Section PaymentSummary.

(** [new Intl.NumberFormat('vi-VN', {style: 'currency', currency: 'VND'}).format(amount)] *)
Variable formatCurrency : number -> string.

(** The text one payment adds to [summary]. *)
Definition paymentSummaryOf (summary : string) (payment : PaymentRecord)
    : string :=
  let count (n : nat) := pretty (Z.of_nat n) in
  let summary := summary +:+ toStr (legalName payment) in
  let summary :=
    if negb (hasMapping payment)
    then summary +:+ " (⚠️ No legal name mapping)" else summary in
  let summary := summary +:+ ":" +:+ newline in
  let summary :=
    summary +:+ "  Tasks: " +:+ count (length (tasks payment)) +:+ newline in
  let summary :=
    if (0 <? customRateTasks payment)%nat
    then summary +:+ "    - " +:+ count (customRateTasks payment)
         +:+ " with custom rate" +:+ newline
    else summary in
  let summary :=
    if (0 <? defaultRateTasks payment)%nat
    then summary +:+ "    - " +:+ count (defaultRateTasks payment)
         +:+ " with default rate" +:+ newline
    else summary in
  let summary :=
    if (0 <? noRateTasks payment)%nat
    then summary +:+ "    - " +:+ count (noRateTasks payment)
         +:+ " with NO RATE ⚠️" +:+ newline
    else summary in
  summary +:+ "  Total: " +:+ formatCurrency (totalAmount payment)
  +:+ newline +:+ newline.

(** [summary] and [grandTotal] after the loop over the payments. *)
Definition paymentSummaryLoop (payments : list (string * PaymentRecord))
    : string * number :=
  fold_left
    (fun (acc : string * number) e =>
       (paymentSummaryOf (fst acc) (snd e),
        num_add (snd acc) (totalAmount (snd e))))
    payments
    ("Payment Summary:" +:+ newline +:+ newline, Num 0).

(** [createPaymentSummary(payments)] *)
Definition createPaymentSummary (payments : list (string * PaymentRecord))
    : string :=
  let '(summary, grandTotal) := paymentSummaryLoop payments in
  summary +:+ "Grand Total: " +:+ formatCurrency grandTotal.

End PaymentSummary.

(** ** The step-by-step test of the preview *)

(** The object [testPreview] returns. *)
Inductive TestPreviewResponse :=
| TestNoUnpaidWork                        (* success: false, 'No unpaid work found' *)
| TestSuccess (taskCount staffCount : nat) (* success: true *)
| TestError (e : string).                 (* success: false, error *)

(** [testPreview()] *)
Definition testPreview : M TestPreviewResponse :=
  tryCatch
    (workLogData <- getUnpaidWorkFromMaster ;;
     if (length workLogData =? 0)%nat then ret TestNoUnpaidWork
     else
       payConfig <- getPayConfiguration ;;
       staffMapping <- getStaffMapping ;;
       let '(payments, errors) :=
         calculatePayments workLogData payConfig staffMapping in
       ret (TestSuccess (length workLogData) (length payments)))%script
    (fun error => ret (TestError error)).

(** The answer of [testPreview] for an answer of [calculateStaffPay]. *)
Definition testOfCalc (r : CalcResponse) : TestPreviewResponse :=
  match r with
  | CalcNoUnpaidWork => TestNoUnpaidWork
  | CalcSuccess _ _ _ summary =>
      TestSuccess (totalTasks summary) (totalStaff summary)
  | CalcError e => TestError e
  end.

(** ** Script properties: the deployment URL *)

(** The script properties, a store of strings. *)
Definition Props := gmap string string.

(** [setCurrentDeploymentUrl(url)] for a string [url]; the object returned
    holds the URL. *)
Definition setCurrentDeploymentUrl (url : string) (props : Props)
    : Outcome string * Props :=
  if negb (truthy (CStr url)) then (Throw "Error: URL is required", props)
  else (Ok url, <["CURRENT_DEPLOYMENT_URL" := url]> props).

(** [getCurrentDeploymentUrl()]; [None] is [null]. *)
Definition getCurrentDeploymentUrl (props : Props) : option string :=
  props !! "CURRENT_DEPLOYMENT_URL".

(** [updateDeploymentAfterPush(deploymentId)] *)
Definition updateDeploymentAfterPush (deploymentId : cell) (props : Props)
    : Outcome string * Props :=
  let baseUrl := "https://script.google.com/macros/s/" in
  let fullUrl := baseUrl +:+ toStr deploymentId +:+ "/exec" in
  setCurrentDeploymentUrl fullUrl props.

(** ** The GET endpoint *)

(** The answer of [doGet]: the page of the web interface, or the JSON of
    the handler the action names.  The entries of the debug log and the
    time stamp of the test answer are left out. *)
Inductive GetResponse :=
| GetInterface                          (* createWebAppInterface() *)
| GetPreview (r : PreviewResponse)
| GetCommit (r : CommitResponse)
| GetStatus (r : StatusResponse)
| GetDebugLog
| GetTest
| GetExport (r : ExportResponse)
| GetInvalid.                           (* error: 'Invalid action. ...' *)

Section Get.

Variable toDateString : cell -> string.
Variable notBeforeCutoff : option number -> cell -> bool.

(** [parseInt(s)] *)
Variable parseInt : cell -> number.

(** [doGet(e)] for the parameters [action], [invoiceNumber] and
    [daysBack] of the request, [CUndefined] for a parameter the request
    lacks.  The handlers catch their own errors. *)
Definition doGet (env : Env) (action invoiceNumber daysBack : cell)
    : M GetResponse :=
  (if negb (truthy action) then ret GetInterface
   else if strictEq action (CStr "preview") then
     result <- handleCalculatePayPreviewRequest ;; ret (GetPreview result)
   else if strictEq action (CStr "calculatePay") then
     result <- handleCalculatePayRequest env ;; ret (GetCommit result)
   else if strictEq action (CStr "getStatus") then
     result <- handleStatusRequest ;; ret (GetStatus result)
   else if strictEq action (CStr "getDebugLog") then ret GetDebugLog
   else if strictEq action (CStr "test") then ret GetTest
   else if strictEq action (CStr "exportLatestInvoice") then
     w <- getW ;;
     ret (GetExport (exportLatestInvoicePDF toDateString notBeforeCutoff env w))
   else if strictEq action (CStr "exportInvoicePDF") then
     let days :=
       if truthy daysBack then parseInt daysBack else Num 30 in
     w <- getW ;;
     ret (GetExport
            (exportInvoicesPDF toDateString notBeforeCutoff env invoiceNumber
                               (Some days) CUndefined w))
   else ret GetInvalid)%script.

End Get.

(** * Lemmas *)

(** ** Column lookup *)

Lemma obj_get_set {V} (k k' : string) (v : V) (o : list (string * V)) :
  obj_get k' (obj_set k v o)
  = if String.eqb k k' then Some v else obj_get k' o.
Proof.
  induction o as [|[k0 v0] o IH]; cbn.
  - reflexivity.
  - destruct (String.eqb_spec k0 k) as [->|Hne]; cbn.
    + now destruct (String.eqb k k').
    + rewrite IH. destruct (String.eqb_spec k0 k') as [->|Hne']; [|reflexivity].
      destruct (String.eqb_spec k k') as [->|]; [congruence | reflexivity].
Qed.

Lemma getColumnIndices_step (k : string) (index : Z) (m : list (string * Z)) :
  (if index =? -1 then obj_set k (-1) m else obj_set k index m)
  = obj_set k index m.
Proof.
  destruct (Z.eqb_spec index (-1)) as [->|]; reflexivity.
Qed.

Lemma findStatusColumnName_cases (hs : list cell) :
  findStatusColumnName hs = CUndefined \/
  includes "status" (toLowerCase (toStr (findStatusColumnName hs))) = true.
Proof.
  unfold findStatusColumnName.
  destruct (find _ hs) as [h|] eqn:E; [right | left; reflexivity].
  apply find_some in E. destruct E as [_ E].
  apply andb_prop in E. tauto.
Qed.

Lemma status_key_not (hs : list cell) (name : string) :
  includes "status" (toLowerCase name) = false ->
  name <> "undefined" ->
  toStr (findStatusColumnName hs) <> name.
Proof.
  intros Hn Hu Heq.
  destruct (findStatusColumnName_cases hs) as [E|E].
  - rewrite E in Heq. simpl in Heq. congruence.
  - rewrite Heq in E. congruence.
Qed.

Lemma getColumnIndices_fold (headers : list cell) (names : list cell)
    (m : list (string * Z)) (k : string) :
  obj_get k
    (fold_left
       (fun indices name =>
          let index := indexOf name headers in
          if index =? -1 then obj_set (toStr name) (-1) indices
          else obj_set (toStr name) index indices)
       names m)
  = match lastNamed k names with
    | Some n => Some (indexOf n headers)
    | None => obj_get k m
    end.
Proof.
  revert m. induction names as [|n t IH]; intros m; cbn [fold_left lastNamed].
  - reflexivity.
  - rewrite IH. destruct (lastNamed k t); [reflexivity|].
    cbv zeta. rewrite getColumnIndices_step, obj_get_set.
    now destruct (String.eqb (toStr n) k).
Qed.

Lemma getColumnIndices_lookup (sh : sheet) (names : list cell) (hr : nat)
    (k : string) :
  obj_get k (getColumnIndices sh names hr)
  = option_map (fun n => indexOf n (headerValues sh hr)) (lastNamed k names).
Proof.
  unfold getColumnIndices. rewrite getColumnIndices_fold.
  now destruct (lastNamed k names).
Qed.

Lemma masterCols_Paid (sh : sheet) :
  obj_get "Paid" (masterCols sh) = Some (indexOf (CStr "Paid") (headerValues sh 2)).
Proof.
  rewrite getColumnIndices_lookup. reflexivity.
Qed.

Lemma status_key_eqb (hs : list cell) (name : string) :
  includes "status" (toLowerCase name) = false ->
  name <> "undefined" ->
  String.eqb name (toStr (findStatusColumnName hs)) = false.
Proof.
  intros H1 H2. apply String.eqb_neq. apply not_eq_sym.
  now apply status_key_not.
Qed.

Lemma masterCols_status (sh : sheet) :
  let s := findStatusColumnName (headerValues sh 2) in
  obj_get (toStr s) (masterCols sh) = Some (indexOf s (headerValues sh 2)).
Proof.
  intros s. rewrite getColumnIndices_lookup. fold s.
  unfold masterColumnNames. cbn [lastNamed toStr].
  subst s.
  rewrite !status_key_eqb by (first [reflexivity | discriminate]).
  now rewrite String.eqb_refl.
Qed.

(** ** The selector *)

Lemma fold_left_push_filter {A B} (p : A -> bool) (f : A -> B)
    (l : list A) (acc : list B) :
  fold_left (fun acc x => if p x then acc ++ [f x] else acc) l acc
  = acc ++ map f (List.filter p l).
Proof.
  revert acc. induction l as [|x l IH]; intros acc; cbn.
  - now rewrite app_nil_r.
  - rewrite IH. destruct (p x); cbn; [now rewrite <- app_assoc | reflexivity].
Qed.

Lemma strictEq_true (a b : cell) : strictEq a b = true -> a = b.
Proof.
  unfold strictEq. destruct a as [| |[|]| |]; try discriminate;
    apply bool_decide_eq_true.
Qed.

Lemma strictEq_CStr (a : cell) (s : string) :
  strictEq a (CStr s) = bool_decide (a = CStr s).
Proof.
  unfold strictEq. now destruct a as [| |[|]| |].
Qed.

Lemma isUnpaid_spec (status paid : cell) :
  isUnpaid status paid
  = bool_decide (status = CStr "Done"
                 /\ paid <> CStr "Paid" /\ paid <> CStr "Invoiced").
Proof.
  unfold isUnpaid. rewrite !strictEq_CStr.
  repeat case_bool_decide; cbn; try reflexivity; tauto.
Qed.

Lemma selectUnpaid_spec (sh : sheet) : selectUnpaid sh = unpaidWork_spec sh.
Proof.
  unfold selectUnpaid, unpaidWork_spec, ledgerRowIndices. cbv zeta.
  rewrite fold_left_push_filter. cbn [app]. f_equal.
  apply List.filter_ext. intros i.
  unfold eligible_spec, rowStatus, rowPaid, readCell.
  rewrite masterCols_Paid, masterCols_status. apply isUnpaid_spec.
Qed.

(** On the sample ledger the selector returns row 4 alone: row 3 is paid
    and row 5 is not done.  The sheet has no Round, Team, Playback Link or
    Done Date column, and the fields read from them are [undefined]. *)
Example selectUnpaid_sample :
  selectUnpaid Sample.ledger
  = [ {| rowIndex := 4;
         staffName := CStr "S2";
         taskType := CStr "Play-by-play";
         league := CStr "NBL";
         round := CUndefined;
         team1 := CUndefined;
         team2 := CUndefined;
         playbackLink := CUndefined;
         doneDate := CUndefined |} ].
Proof. vm_compute. reflexivity. Qed.


(** ** Amounts *)

Lemma num_add_comm (a b : number) : num_add a b = num_add b a.
Proof. destruct a, b; cbn; try reflexivity. f_equal. lia. Qed.

Lemma num_add_assoc (a b c : number) :
  num_add a (num_add b c) = num_add (num_add a b) c.
Proof. destruct a, b, c; cbn; try reflexivity. f_equal. lia. Qed.

Lemma num_add_0_l (a : number) : num_add (Num 0) a = a.
Proof. destruct a; reflexivity. Qed.

Lemma num_add_0_r (a : number) : num_add a (Num 0) = a.
Proof. rewrite num_add_comm. apply num_add_0_l. Qed.

Lemma sumOf_app (l1 l2 : list number) :
  sumOf (l1 ++ l2) = num_add (sumOf l1) (sumOf l2).
Proof.
  induction l1 as [|x l1 IH]; cbn [app sumOf fold_right].
  - now rewrite num_add_0_l.
  - fold (sumOf (l1 ++ l2)). fold (sumOf l1). rewrite IH. apply num_add_assoc.
Qed.



(** ** Ordered dictionaries *)

Lemma obj_get_In {V} (k : string) (o : list (string * V)) (v : V) :
  obj_get k o = Some v -> In (k, v) o.
Proof.
  induction o as [|[k' v'] o IH]; cbn; [discriminate|].
  destruct (String.eqb_spec k' k) as [->|Hne].
  - intros [= ->]. now left.
  - intros H. right. now apply IH.
Qed.

Lemma obj_get_None {V} (k : string) (o : list (string * V)) :
  obj_get k o = None <-> ~ In k (map fst o).
Proof.
  induction o as [|[k' v'] o IH]; cbn; [tauto|].
  destruct (String.eqb_spec k' k) as [->|Hne].
  - split; [discriminate | intros H; exfalso; apply H; now left].
  - rewrite IH. split; [intros H [E|E]; [congruence | tauto] | tauto].
Qed.

Lemma obj_get_app {V} (k : string) (o1 o2 : list (string * V)) :
  obj_get k (o1 ++ o2)
  = match obj_get k o1 with Some v => Some v | None => obj_get k o2 end.
Proof.
  induction o1 as [|[k' v'] o1 IH]; cbn; [reflexivity|].
  destruct (String.eqb k' k); [reflexivity | apply IH].
Qed.

Lemma obj_get_NoDup {V} (k : string) (o : list (string * V)) (v : V) :
  List.NoDup (map fst o) -> In (k, v) o -> obj_get k o = Some v.
Proof.
  induction o as [|[k' v'] o IH]; cbn; [tauto|].
  intros Hnd [E|Hin].
  - injection E as -> ->. now rewrite String.eqb_refl.
  - apply List.NoDup_cons_iff in Hnd. destruct Hnd as [Hk Hnd].
    destruct (String.eqb_spec k' k) as [->|Hne].
    + exfalso. apply Hk. apply in_map_iff. now exists (k, v).
    + now apply IH.
Qed.

Lemma obj_update_keys {V} (k : string) (f : V -> V) (o : list (string * V)) :
  map fst (obj_update k f o) = map fst o.
Proof.
  induction o as [|[k' v'] o IH]; cbn; [reflexivity|].
  destruct (String.eqb k' k); cbn; [reflexivity | now rewrite IH].
Qed.

Lemma obj_get_update {V} (k k' : string) (f : V -> V) (o : list (string * V)) :
  obj_get k' (obj_update k f o)
  = if String.eqb k k' then option_map f (obj_get k o) else obj_get k' o.
Proof.
  induction o as [|[k0 v0] o IH]; cbn.
  - now destruct (String.eqb k k').
  - destruct (String.eqb_spec k0 k) as [->|Hne]; cbn.
    + destruct (String.eqb_spec k k') as [->|Hne']; cbn; reflexivity.
    + rewrite IH.
      destruct (String.eqb_spec k0 k') as [->|Hne']; [|reflexivity].
      destruct (String.eqb_spec k k') as [->|]; [congruence | reflexivity].
Qed.

Lemma In_obj_NoDup {V} (k : string) (o : list (string * V)) (v : V) :
  List.NoDup (map fst o) -> (In (k, v) o <-> obj_get k o = Some v).
Proof.
  intros Hnd. split; [now apply obj_get_NoDup | apply obj_get_In].
Qed.

(** ** Aggregation: the loop body *)

Lemma calculatePayments_step_split cfg sm p e w :
  calculatePayments_step cfg sm (p, e) w
  = (payments_step cfg sm p w, errors_step cfg sm e w).
Proof. reflexivity. Qed.

Lemma calculatePayments_fold cfg sm ws p e :
  fold_left (calculatePayments_step cfg sm) ws (p, e)
  = (fold_left (payments_step cfg sm) ws p,
     fold_left (errors_step cfg sm) ws e).
Proof.
  revert p e. induction ws as [|w ws IH]; intros p e; cbn [fold_left].
  - reflexivity.
  - rewrite calculatePayments_step_split. apply IH.
Qed.

Lemma calculatePayments_split ws cfg sm :
  calculatePayments ws cfg sm
  = (fold_left (payments_step cfg sm) ws [],
     fold_left (errors_step cfg sm) ws noErrors).
Proof. apply calculatePayments_fold. Qed.

Lemma payments_step_eq cfg sm p w :
  payments_step cfg sm p w
  = obj_update (legalKey sm w) (pushTask (taskOf cfg w))
      (match obj_get (legalKey sm w) p with
       | Some _ => p
       | None => p ++ [(legalKey sm w, freshRecord sm w)]
       end).
Proof. reflexivity. Qed.


(** ** Aggregation: the payment records *)

Lemma itemsOf_snoc sm k ws w :
  itemsOf sm k (ws ++ [w])
  = itemsOf sm k ws ++ (if String.eqb (legalKey sm w) k then [w] else []).
Proof. unfold itemsOf. rewrite List.filter_app. reflexivity. Qed.

Lemma itemsOf_nil sm k ws :
  (forall w, In w ws -> legalKey sm w <> k) -> itemsOf sm k ws = [].
Proof.
  intros H. unfold itemsOf. induction ws as [|w ws IH]; cbn; [reflexivity|].
  destruct (String.eqb_spec (legalKey sm w) k) as [E|_].
  - exfalso. apply (H w); [now left | exact E].
  - apply IH. intros w' Hw'. apply H. now right.
Qed.

Lemma record_ok_push cfg sm ws w p :
  record_ok cfg sm ws (legalKey sm w) p ->
  record_ok cfg sm (ws ++ [w]) (legalKey sm w) (pushTask (taskOf cfg w) p).
Proof.
  intros (Ht & Hs & w0 & rest & Hi & Hk & Hl & Hm).
  unfold record_ok. rewrite itemsOf_snoc, String.eqb_refl. cbn [pushTask tasks totalAmount staffKey legalName hasMapping].
  split; [|split].
  - rewrite Ht, map_app. reflexivity.
  - rewrite Hs, map_app, sumOf_app. cbn [map sumOf fold_right].
    now rewrite num_add_0_r.
  - exists w0, (rest ++ [w]). rewrite Hi. auto.
Qed.

Lemma record_ok_fresh cfg sm ws w :
  itemsOf sm (legalKey sm w) ws = [] ->
  record_ok cfg sm (ws ++ [w]) (legalKey sm w)
            (pushTask (taskOf cfg w) (freshRecord sm w)).
Proof.
  intros Hi. unfold record_ok. rewrite itemsOf_snoc, String.eqb_refl, Hi.
  cbn [pushTask freshRecord tasks totalAmount staffKey legalName hasMapping
       app map sumOf fold_right].
  rewrite num_add_0_l, num_add_0_r.
  split; [reflexivity | split; [reflexivity|]].
  exists w, []. auto.
Qed.

Lemma record_ok_other cfg sm ws w k p :
  legalKey sm w <> k ->
  record_ok cfg sm ws k p -> record_ok cfg sm (ws ++ [w]) k p.
Proof.
  intros Hne H. unfold record_ok. rewrite itemsOf_snoc.
  destruct (String.eqb_spec (legalKey sm w) k) as [E|_]; [contradiction|].
  rewrite app_nil_r. exact H.
Qed.

Lemma payments_ok_step cfg sm ws p w :
  payments_ok cfg sm ws p ->
  payments_ok cfg sm (ws ++ [w]) (payments_step cfg sm p w).
Proof.
  intros (Hnd & Hrec & Hcov).
  rewrite payments_step_eq. set (k := legalKey sm w).
  destruct (obj_get k p) as [p0|] eqn:Hget.
  - (* the legal name has its record *)
    assert (Hnd2 : List.NoDup (map fst (obj_update k (pushTask (taskOf cfg w)) p)))
      by now rewrite obj_update_keys.
    split; [exact Hnd2 | split].
    + intros k' p' Hin. apply (In_obj_NoDup _ _ _ Hnd2) in Hin.
      rewrite obj_get_update in Hin.
      destruct (String.eqb_spec k k') as [<-|Hne].
      * rewrite Hget in Hin. cbn in Hin. injection Hin as <-.
        apply record_ok_push, Hrec, obj_get_In, Hget.
      * apply record_ok_other; [exact Hne|].
        apply Hrec, obj_get_In, Hin.
    + intros w' Hw'. rewrite obj_update_keys.
      apply in_app_or in Hw'. destruct Hw' as [Hw'|[<-|[]]].
      * now apply Hcov.
      * apply obj_get_In in Hget. apply in_map_iff. now exists (k, p0).
  - (* first sight of the legal name *)
    assert (Hk : ~ In k (map fst p)) by now apply obj_get_None.
    assert (Hnd1 : List.NoDup (map fst (p ++ [(k, freshRecord sm w)]))).
    { rewrite map_app. cbn [map fst]. apply List.NoDup_app; [exact Hnd | |].
      - repeat constructor. intros [].
      - intros x Hx [<-|[]]. contradiction. }
    assert (Hnd2 : List.NoDup (map fst (obj_update k (pushTask (taskOf cfg w))
                                      (p ++ [(k, freshRecord sm w)]))))
      by now rewrite obj_update_keys.
    split; [exact Hnd2 | split].
    + intros k' p' Hin. apply (In_obj_NoDup _ _ _ Hnd2) in Hin.
      rewrite obj_get_update, !obj_get_app in Hin. cbn in Hin.
      rewrite Hget, String.eqb_refl in Hin.
      destruct (String.eqb_spec k k') as [<-|Hne].
      * cbn in Hin. injection Hin as <-.
        apply record_ok_fresh, itemsOf_nil.
        intros w' Hw' E. apply Hk. fold k in E. rewrite <- E. now apply Hcov.
      * destruct (obj_get k' p) as [q|] eqn:Hq; [|discriminate].
        injection Hin as ->.
        apply record_ok_other; [exact Hne|]. apply Hrec, obj_get_In, Hq.
    + intros w' Hw'. rewrite obj_update_keys, map_app. apply in_or_app.
      apply in_app_or in Hw'. destruct Hw' as [Hw'|[<-|[]]].
      * left. now apply Hcov.
      * right. now left.
Qed.

Lemma payments_ok_calculatePayments cfg sm ws :
  payments_ok cfg sm ws (fst (calculatePayments ws cfg sm)).
Proof.
  rewrite calculatePayments_split. cbn [fst].
  induction ws as [|w ws IH] using rev_ind.
  - cbn. split; [constructor | split; intros; contradiction].
  - rewrite fold_left_app. cbn [fold_left]. now apply payments_ok_step.
Qed.

Lemma allTasks_app p q : allTasks (p ++ q) = allTasks p ++ allTasks q.
Proof. unfold allTasks. now rewrite map_app, concat_app. Qed.

Lemma allTasks_update k t o p0 :
  obj_get k o = Some p0 ->
  Permutation (allTasks (obj_update k (pushTask t) o)) (t :: allTasks o).
Proof.
  revert p0. induction o as [|[k' v'] o IH]; intros p0; cbn; [discriminate|].
  destruct (String.eqb_spec k' k) as [->|Hne]; intros Hget.
  - unfold allTasks. cbn. rewrite <- app_assoc. cbn.
    symmetry. apply Permutation_middle.
  - unfold allTasks in *. cbn.
    rewrite (IH _ Hget). symmetry. apply Permutation_middle.
Qed.

Lemma allTasks_step cfg sm p w :
  Permutation (allTasks (payments_step cfg sm p w)) (taskOf cfg w :: allTasks p).
Proof.
  rewrite payments_step_eq.
  destruct (obj_get (legalKey sm w) p) as [p0|] eqn:Hget.
  - now apply allTasks_update with p0.
  - rewrite allTasks_update with (p0 := freshRecord sm w).
    + rewrite allTasks_app. unfold allTasks at 2. cbn. now rewrite app_nil_r.
    + rewrite obj_get_app, Hget. cbn. now rewrite String.eqb_refl.
Qed.

Lemma allTasks_calculatePayments cfg sm ws :
  Permutation (allTasks (fst (calculatePayments ws cfg sm)))
              (map (taskOf cfg) ws).
Proof.
  rewrite calculatePayments_split. cbn [fst].
  induction ws as [|w ws IH] using rev_ind; [reflexivity|].
  rewrite fold_left_app. cbn [fold_left].
  rewrite allTasks_step, IH, map_app. cbn. apply Permutation_cons_append.
Qed.







(** ** Aggregation: the errors *)








(** ** Rate table *)




(** ** Sheets: reading after writing *)

Lemma nth_set_nth {A} (d : A) (n m : nat) (v : A) (l : list A) :
  nth m (set_nth d n v l) d = if (m =? n)%nat then v else nth m l d.
Proof.
  revert m l. induction n as [|n IH]; intros m l.
  - destruct l as [|x l]; destruct m as [|m]; cbn; try reflexivity.
    now destruct m.
  - destruct l as [|x l]; destruct m as [|m]; cbn [set_nth nth Nat.eqb];
      try reflexivity.
    + rewrite IH. now destruct m; destruct (_ =? _)%nat.
    + apply IH.
Qed.

Lemma length_set_nth {A} (d : A) (n : nat) (v : A) (l : list A) :
  length (set_nth d n v l) = Nat.max (length l) (S n).
Proof.
  revert l. induction n as [|n IH]; intros l.
  - destruct l as [|x l]; cbn; [reflexivity | lia].
  - destruct l as [|x l]; cbn [set_nth length]; rewrite IH; cbn; lia.
Qed.

Lemma getCell_writeCell (sh : sheet) (i j : nat) (v : cell) (r c : nat) :
  (1 <= r)%nat -> (1 <= c)%nat ->
  getCell (writeCell sh i j v) r c
  = if ((r - 1 =? i) && (c - 1 =? j))%nat then v else getCell sh r c.
Proof.
  intros Hr Hc. unfold getCell, writeCell. rewrite nth_set_nth.
  destruct (Nat.eqb_spec (r - 1) i) as [->|Hne]; cbn [andb]; [|reflexivity].
  apply nth_set_nth.
Qed.

Lemma length_writeCell (sh : sheet) (i j : nat) (v : cell) :
  length (writeCell sh i j v) = Nat.max (length sh) (S i).
Proof. apply length_set_nth. Qed.

Lemma nth_writeCell_other (sh : sheet) (i j : nat) (v : cell) (m : nat) :
  m <> i -> nth m (writeCell sh i j v) [] = nth m sh [].
Proof.
  intros Hne. unfold writeCell. rewrite nth_set_nth.
  destruct (Nat.eqb_spec m i); [contradiction | reflexivity].
Qed.

Lemma getLastColumn_ge (sh : sheet) (i : nat) :
  (length (nth i sh []) <= getLastColumn sh)%nat.
Proof.
  revert i. induction sh as [|x sh IH]; intros i; cbn.
  - destruct i; cbn; lia.
  - destruct i; [lia|]. specialize (IH i). unfold getLastColumn in IH. lia.
Qed.

Lemma getLastColumn_set_nth (sh : sheet) (i : nat) (row : list cell) :
  (length (nth i sh []) <= length row)%nat ->
  getLastColumn (set_nth [] i row sh) = Nat.max (getLastColumn sh) (length row).
Proof.
  revert sh. induction i as [|i IH]; intros sh Hlen.
  - destruct sh as [|x sh]; cbn in *; lia.
  - destruct sh as [|x sh]; cbn [set_nth].
    + unfold getLastColumn in *. cbn [fold_right length].
      rewrite (IH []) by (destruct i; cbn; lia). cbn. lia.
    + unfold getLastColumn in *. cbn [fold_right].
      rewrite (IH sh) by exact Hlen. lia.
Qed.

Lemma getLastColumn_writeCell (sh : sheet) (i j : nat) (v : cell) :
  getLastColumn (writeCell sh i j v) = Nat.max (getLastColumn sh) (S j).
Proof.
  unfold writeCell. rewrite getLastColumn_set_nth.
  - rewrite length_set_nth. pose proof (getLastColumn_ge sh i). lia.
  - rewrite length_set_nth. lia.
Qed.

Lemma nth_getValues (sh : sheet) (i : nat) :
  (i < length sh)%nat ->
  nth i (getValues sh) [] = padRow (getLastColumn sh) (nth i sh []).
Proof.
  intros Hi. unfold getValues.
  rewrite (nth_indep _ [] (padRow (getLastColumn sh) []))
    by now rewrite length_map.
  apply map_nth.
Qed.

Lemma nth_padRow (w : nat) (row : list cell) (n : nat) :
  (length row <= w)%nat ->
  nth n (padRow w row) CUndefined
  = if (n <? w)%nat then nth n row blank else CUndefined.
Proof.
  intros Hlen. unfold padRow.
  destruct (Nat.ltb_spec n w) as [Hn|Hn].
  - destruct (Nat.lt_ge_cases n (length row)) as [H|H].
    + rewrite app_nth1 by exact H. now apply nth_indep.
    + rewrite app_nth2 by exact H.
      rewrite (nth_indep _ CUndefined blank) by (rewrite repeat_length; lia).
      rewrite nth_repeat. symmetry. now apply nth_overflow.
  - apply nth_overflow. rewrite length_app, repeat_length. lia.
Qed.

Lemma readCell_getCell (sh : sheet) (i : nat) (j : Z) :
  (i < length sh)%nat ->
  readCell sh i j
  = if (0 <=? j) && (j <? Z.of_nat (getLastColumn sh))
    then getCell sh (i + 1) (Z.to_nat j + 1)
    else CUndefined.
Proof.
  intros Hi. unfold readCell, at_, getCell.
  rewrite nth_getValues by exact Hi.
  destruct (Z.ltb_spec j 0) as [Hj|Hj].
  - destruct (Z.leb_spec 0 j); [lia | reflexivity].
  - destruct (Z.leb_spec 0 j); [|lia]. cbn [andb].
    rewrite nth_padRow by apply getLastColumn_ge.
    replace (i + 1 - 1)%nat with i by lia.
    replace (Z.to_nat j + 1 - 1)%nat with (Z.to_nat j) by lia.
    destruct (Nat.ltb_spec (Z.to_nat j) (getLastColumn sh));
      destruct (Z.ltb_spec j (Z.of_nat (getLastColumn sh))); try lia;
      reflexivity.
Qed.

Lemma headerValues_sameShape (sh sh' : sheet) :
  sameShape sh sh' -> headerValues sh' 2 = headerValues sh 2.
Proof.
  intros (Hlen & Hw & Hrow). unfold headerValues. cbn [Nat.sub].
  destruct (Nat.lt_ge_cases 1 (length sh)) as [H|H].
  - rewrite !(nth_indep _ (repeat blank _) [])
      by (unfold getValues; rewrite length_map; lia).
    rewrite !nth_getValues by lia. now rewrite Hw, Hrow.
  - rewrite !nth_overflow by (unfold getValues; rewrite length_map; lia).
    now rewrite Hw.
Qed.

Lemma sameShape_refl (sh : sheet) : sameShape sh sh.
Proof. repeat split. Qed.

Lemma sameShape_trans (a b c : sheet) :
  sameShape a b -> sameShape b c -> sameShape a c.
Proof. unfold sameShape. intros (?&?&?) (?&?&?). repeat split; congruence. Qed.

Lemma sameShape_writeCell (sh : sheet) (i j : nat) (v : cell) :
  (i < length sh)%nat -> (j < getLastColumn sh)%nat -> i <> 1%nat ->
  sameShape sh (writeCell sh i j v).
Proof.
  intros Hi Hj Hne. split; [|split].
  - rewrite length_writeCell. lia.
  - rewrite getLastColumn_writeCell. lia.
  - now apply nth_writeCell_other.
Qed.

(** ** [indexOf] *)

Lemma indexOf_range (x : cell) (l : list cell) :
  -1 <= indexOf x l < Z.of_nat (length l).
Proof.
  induction l as [|y l IH]; cbn [indexOf length]; [lia|].
  destruct (strictEq y x); [lia|].
  destruct (Z.ltb_spec (indexOf x l) 0); lia.
Qed.

Lemma indexOf_nth (x : cell) (l : list cell) :
  0 <= indexOf x l -> nth (Z.to_nat (indexOf x l)) l CUndefined = x.
Proof.
  induction l as [|y l IH]; cbn [indexOf]; [lia|].
  destruct (strictEq y x) eqn:E; [now apply strictEq_true in E|].
  destruct (Z.ltb_spec (indexOf x l) 0) as [H|H]; [lia|]. intros _.
  replace (Z.to_nat (indexOf x l + 1)) with (S (Z.to_nat (indexOf x l))) by lia.
  cbn [nth]. now apply IH.
Qed.

Lemma indexOf_inj (x y : cell) (l : list cell) :
  0 <= indexOf x l -> indexOf x l = indexOf y l -> x = y.
Proof.
  intros H0 E. rewrite <- (indexOf_nth x l H0).
  rewrite E. apply indexOf_nth. lia.
Qed.

Lemma length_padRow (w : nat) (row : list cell) :
  (length row <= w)%nat -> length (padRow w row) = w.
Proof. intros H. unfold padRow. rewrite length_app, repeat_length. lia. Qed.

Lemma length_headerValues (sh : sheet) (hr : nat) :
  length (headerValues sh hr) = getLastColumn sh.
Proof.
  unfold headerValues.
  destruct (Nat.lt_ge_cases (hr - 1) (length sh)) as [H|H].
  - rewrite (nth_indep _ _ []) by (unfold getValues; now rewrite length_map).
    rewrite nth_getValues by exact H. apply length_padRow, getLastColumn_ge.
  - rewrite nth_overflow by (unfold getValues; now rewrite length_map).
    apply repeat_length.
Qed.

Lemma status_column_not_paid (sh : sheet) :
  let hs := headerValues sh 2 in
  0 <= indexOf (findStatusColumnName hs) hs ->
  indexOf (findStatusColumnName hs) hs <> indexOf (CStr "Paid") hs.
Proof.
  intros hs H0 E. apply indexOf_inj in E; [|exact H0].
  apply (status_key_not hs "Paid"); [reflexivity | discriminate|].
  now rewrite E.
Qed.

(** ** The ledger after [markWorkAsInvoiced] *)

Lemma markRows_spec (rows : list Z) (c : Z) (sh : sheet) :
  Forall (fun r => 3 <= r <= Z.of_nat (length sh)) rows ->
  1 <= c <= Z.of_nat (getLastColumn sh) ->
  sameShape sh (markRows sh rows c)
  /\ forall r' c', (1 <= r')%nat -> (1 <= c')%nat ->
       getCell (markRows sh rows c) r' c'
       = if (Z.of_nat c' =? c) && existsb (Z.eqb (Z.of_nat r')) rows
         then CStr "Invoiced" else getCell sh r' c'.
Proof.
  intros Hrows Hc. revert sh Hrows Hc.
  induction rows as [|r rows IH]; intros sh Hrows Hc.
  - split; [apply sameShape_refl|]. intros r' c' _ _. cbn.
    now rewrite andb_false_r.
  - apply Forall_cons_iff in Hrows. destruct Hrows as [Hr Hrows].
    unfold markRows. cbn [fold_left].
    fold (markRows (writeCell sh (Z.to_nat (r - 1)) (Z.to_nat (c - 1))
                              (CStr "Invoiced")) rows c).
    set (sh1 := writeCell sh (Z.to_nat (r - 1)) (Z.to_nat (c - 1))
                          (CStr "Invoiced")).
    assert (Hs1 : sameShape sh sh1)
      by (apply sameShape_writeCell; lia).
    destruct Hs1 as (Hl1 & Hw1 & Hh1).
    destruct (IH sh1) as [Hs Hg].
    { rewrite Hl1. exact Hrows. }
    { rewrite Hw1. exact Hc. }
    split.
    + apply sameShape_trans with sh1; [repeat split; assumption | exact Hs].
    + intros r' c' Hr' Hc'. rewrite Hg by assumption.
      subst sh1. rewrite getCell_writeCell by assumption.
      cbn [existsb].
      destruct (Z.eqb_spec (Z.of_nat c') c) as [Ec|Ec]; cbn [andb].
      * destruct (existsb (Z.eqb (Z.of_nat r')) rows);
          [now rewrite orb_true_r|]. rewrite orb_false_r.
        destruct (Z.eqb_spec (Z.of_nat r') r) as [Er|Er];
          destruct (Nat.eqb_spec (r' - 1) (Z.to_nat (r - 1)));
          destruct (Nat.eqb_spec (c' - 1) (Z.to_nat (c - 1)));
          cbn [andb]; try reflexivity; lia.
      * destruct (Nat.eqb_spec (c' - 1) (Z.to_nat (c - 1))); [lia|].
        now rewrite andb_false_r.
Qed.

Lemma filter_none {A} (p : A -> bool) (l : list A) :
  (forall x, In x l -> p x = false) -> List.filter p l = [].
Proof.
  induction l as [|x l IH]; intros H; cbn; [reflexivity|].
  rewrite (H x) by now left. apply IH. intros y Hy. apply H. now right.
Qed.

Lemma length_getValues (sh : sheet) : length (getValues sh) = length sh.
Proof. unfold getValues. apply length_map. Qed.

Lemma rowIndex_unpaidWork_spec (sh : sheet) :
  map rowIndex (unpaidWork_spec sh)
  = map (fun i => Z.of_nat i + 1)
        (List.filter (eligible_spec sh) (ledgerRowIndices sh)).
Proof. unfold unpaidWork_spec. now rewrite map_map. Qed.

Lemma unpaid_rows_in_range (sh : sheet) :
  Forall (fun r => 3 <= r <= Z.of_nat (length sh))
         (map rowIndex (unpaidWork_spec sh)).
Proof.
  rewrite rowIndex_unpaidWork_spec. apply List.Forall_forall. intros r Hr.
  apply in_map_iff in Hr. destruct Hr as (i & <- & Hi).
  apply List.filter_In in Hi. destruct Hi as [Hi _].
  unfold ledgerRowIndices in Hi. apply List.in_seq in Hi.
  rewrite length_getValues in Hi. lia.
Qed.

Lemma paidColumn_in_range (sh : sheet) :
  0 <= indexOf (CStr "Paid") (headerValues sh 2) ->
  1 <= paidColumn sh <= Z.of_nat (getLastColumn sh).
Proof.
  intros H. unfold paidColumn.
  pose proof (indexOf_range (CStr "Paid") (headerValues sh 2)) as Hr.
  rewrite length_headerValues in Hr. lia.
Qed.

Lemma existsb_rowIndex (sh : sheet) (i : nat) :
  In i (ledgerRowIndices sh) ->
  existsb (Z.eqb (Z.of_nat (i + 1))) (map rowIndex (unpaidWork_spec sh))
  = eligible_spec sh i.
Proof.
  intros Hi. rewrite rowIndex_unpaidWork_spec.
  destruct (eligible_spec sh i) eqn:E.
  - apply existsb_exists. exists (Z.of_nat i + 1).
    split; [|apply Z.eqb_eq; lia].
    apply in_map_iff. exists i. split; [reflexivity|].
    apply List.filter_In. auto.
  - apply not_true_is_false. intros H. apply existsb_exists in H.
    destruct H as (r & Hr & Er). apply in_map_iff in Hr.
    destruct Hr as (i' & <- & Hi'). apply List.filter_In in Hi'.
    apply Z.eqb_eq in Er. assert (i' = i) by lia. subst i'.
    destruct Hi' as [_ Hi']. congruence.
Qed.

(** Once the selected rows are marked, no row of the ledger is eligible. *)
Lemma no_unpaid_after_mark (sh : sheet) :
  0 <= indexOf (CStr "Paid") (headerValues sh 2) ->
  unpaidWork_spec
    (markRows sh (map rowIndex (unpaidWork_spec sh)) (paidColumn sh)) = [].
Proof.
  intros Hpaid.
  set (rows := map rowIndex (unpaidWork_spec sh)).
  set (sh' := markRows sh rows (paidColumn sh)).
  destruct (markRows_spec rows (paidColumn sh) sh
              (unpaid_rows_in_range sh) (paidColumn_in_range sh Hpaid))
    as [Hshape Hcell].
  fold sh' in Hshape, Hcell.
  pose proof (headerValues_sameShape _ _ Hshape) as Hhead.
  destruct Hshape as (Hlen & Hw & _).
  unfold unpaidWork_spec at 1. fold sh'.
  rewrite filter_none; [reflexivity|].
  intros i Hi.
  assert (Hi0 : In i (ledgerRowIndices sh)).
  { unfold ledgerRowIndices in *. now rewrite !length_getValues, <- Hlen,
      <- (length_getValues sh') . }
  assert (Hil : (2 <= i < length sh)%nat).
  { unfold ledgerRowIndices in Hi0. apply List.in_seq in Hi0.
    rewrite length_getValues in Hi0. lia. }
  pose proof (indexOf_range (CStr "Paid") (headerValues sh 2)) as Hpr.
  rewrite length_headerValues in Hpr.
  assert (HP : rowPaid sh' i
               = if eligible_spec sh i then CStr "Invoiced" else rowPaid sh i).
  { unfold rowPaid. rewrite Hhead.
    rewrite !readCell_getCell by lia. rewrite Hw.
    destruct (Z.leb_spec 0 (indexOf (CStr "Paid") (headerValues sh 2))); [|lia].
    destruct (Z.ltb_spec (indexOf (CStr "Paid") (headerValues sh 2))
                         (Z.of_nat (getLastColumn sh))); [|lia].
    cbn [andb]. rewrite Hcell by lia.
    unfold paidColumn.
    replace (Z.of_nat (Z.to_nat (indexOf (CStr "Paid") (headerValues sh 2)) + 1)
             =? indexOf (CStr "Paid") (headerValues sh 2) + 1)
      with true by (symmetry; apply Z.eqb_eq; lia).
    cbn [andb]. subst rows. now rewrite existsb_rowIndex. }
  assert (HS : rowStatus sh' i = rowStatus sh i).
  { unfold rowStatus. cbv zeta. rewrite Hhead.
    rewrite !readCell_getCell by lia. rewrite Hw.
    set (sidx := indexOf (findStatusColumnName (headerValues sh 2))
                         (headerValues sh 2)).
    destruct (Z.leb_spec 0 sidx) as [H0|H0]; [|reflexivity].
    destruct (Z.ltb_spec sidx (Z.of_nat (getLastColumn sh))); [|reflexivity].
    cbn [andb]. rewrite Hcell by lia.
    pose proof (status_column_not_paid sh H0) as Hne. fold sidx in Hne.
    unfold paidColumn.
    destruct (Z.eqb_spec (Z.of_nat (Z.to_nat sidx + 1))
                (indexOf (CStr "Paid") (headerValues sh 2) + 1)); [lia|].
    reflexivity. }
  unfold eligible_spec at 1. rewrite HP, HS.
  destruct (eligible_spec sh i) eqn:E.
  - apply bool_decide_eq_false. tauto.
  - exact E.
Qed.

(** ** Running scripts *)

Lemma withMaster_id (w : World) (sh : sheet) :
  master w = Some sh -> withMaster w sh = w.
Proof. destruct w. cbn. now intros ->. Qed.

Lemma sameLedger_refl (w : World) : sameLedger w w.
Proof. repeat split. Qed.

Lemma sameLedger_trans (a b c : World) :
  sameLedger a b -> sameLedger b c -> sameLedger a c.
Proof. unfold sameLedger. intros (?&?&?) (?&?&?). repeat split; congruence. Qed.

Lemma forEachM_frame {A} (R : World -> World -> Prop) (f : A -> M unit)
    (xs : list A) :
  (forall w, R w w) ->
  (forall a b c, R a b -> R b c -> R a c) ->
  (forall x w, R w (snd (f x w))) ->
  forall w, R w (snd (forEachM f xs w)).
Proof.
  intros Hrefl Htrans Hf. induction xs as [|x xs IH]; intros w; cbn.
  - apply Hrefl.
  - unfold bind. specialize (Hf x w). destruct (f x w) as [[[]|e] w1]; cbn in *.
    + apply Htrans with w1; [exact Hf | apply IH].
    + exact Hf.
Qed.

Lemma getUnpaidWorkFromMaster_run (w : World) :
  getUnpaidWorkFromMaster w
  = match master w with
    | Some sh => (Ok (unpaidWork_spec sh), w)
    | None =>
        (Throw "Error: MASTER sheet not found in work log spreadsheet", w)
    end.
Proof.
  unfold getUnpaidWorkFromMaster, bind, getW, ret, throw.
  destruct (master w); [now rewrite selectUnpaid_spec | reflexivity].
Qed.

Lemma setMasterValue_run (w : World) (sh : sheet) (r c : Z) (v : cell) :
  master w = Some sh -> 1 <= r -> 1 <= c ->
  setMasterValue r c v w
  = (Ok tt, withMaster w (writeCell sh (Z.to_nat (r - 1)) (Z.to_nat (c - 1)) v)).
Proof.
  intros Hm Hr Hc. unfold setMasterValue, bind, getW, putW, setValue.
  rewrite Hm.
  destruct (Z.ltb_spec r 1); [lia|]. destruct (Z.ltb_spec c 1); [lia|].
  reflexivity.
Qed.

Lemma markLoop_run (items : list WorkItem) (c : Z) :
  1 <= c ->
  Forall (fun it => 1 <= rowIndex it) items ->
  forall (w : World) (sh : sheet),
    master w = Some sh ->
    forEachM (fun work_ => setMasterValue (rowIndex work_) c (CStr "Invoiced"))
             items w
    = (Ok tt, withMaster w (markRows sh (map rowIndex items) c)).
Proof.
  intros Hc. induction items as [|it items IH]; intros Hall w sh Hm.
  - cbn. unfold ret. now rewrite withMaster_id.
  - apply Forall_cons_iff in Hall. destruct Hall as [Hit Hall].
    cbn [forEachM map]. unfold bind.
    rewrite (setMasterValue_run w sh) by assumption.
    set (sh1 := writeCell sh _ _ _).
    rewrite (IH Hall (withMaster w sh1) sh1) by reflexivity. reflexivity.
Qed.

Lemma markWorkAsInvoiced_run (items : list WorkItem) (w : World) (sh : sheet) :
  master w = Some sh ->
  Forall (fun it => 1 <= rowIndex it) items ->
  markWorkAsInvoiced items w
  = if indexOf (CStr "Paid") (headerValues sh 2) =? -1
    then (Throw ("Error: Column " +:+ quoted "Paid" +:+ " not found in sheet "
                 +:+ quoted "MASTER"), w)
    else (Ok tt, withMaster w (markRows sh (map rowIndex items) (paidColumn sh))).
Proof.
  intros Hm Hall. unfold markWorkAsInvoiced, bind at 1, getW. rewrite Hm.
  unfold getColumnIndex, bind.
  destruct (Z.eqb_spec (indexOf (CStr "Paid") (headerValues sh 2)) (-1)) as [E|E].
  - reflexivity.
  - unfold ret.
    assert (Hc : 1 <= indexOf (CStr "Paid") (headerValues sh 2) + 1).
    { pose proof (indexOf_range (CStr "Paid") (headerValues sh 2)). lia. }
    exact (markLoop_run items _ Hc Hall w sh Hm).
Qed.

Lemma markWorkAsInvoiced_frame (items : list WorkItem) (w : World) :
  payConfigSheet (snd (markWorkAsInvoiced items w)) = payConfigSheet w
  /\ staffSheet (snd (markWorkAsInvoiced items w)) = staffSheet w
  /\ invoicing (snd (markWorkAsInvoiced items w)) = invoicing w.
Proof.
  unfold markWorkAsInvoiced, getColumnIndex, bind, getW, throw, ret.
  destruct (master w) as [sh|] eqn:Hm; [|cbn; auto].
  destruct (indexOf (CStr "Paid") (headerValues sh 2) =? -1); [cbn; auto|].
  apply (forEachM_frame
           (fun a b => payConfigSheet b = payConfigSheet a
                       /\ staffSheet b = staffSheet a
                       /\ invoicing b = invoicing a)).
  - auto.
  - intros a b c (?&?&?) (?&?&?). repeat split; congruence.
  - intros x w0. unfold setMasterValue, bind, getW, putW, throw.
    destruct (master w0); [|cbn; auto].
    destruct (setValue _ _ _ _); cbn; auto.
Qed.

Lemma setInvoicingValue_frame (r c : Z) (v : cell) (w : World) :
  sameLedger w (snd (setInvoicingValue r c v w)).
Proof.
  unfold setInvoicingValue, bind, getW, putW, throw.
  destruct (invoicing w); [|apply sameLedger_refl].
  destruct (setValue _ _ _ _); cbn; repeat split.
Qed.

Lemma writeInvoiceColumn_frame (nextRow col : Z) (data : list (list cell))
    (w : World) :
  sameLedger w (snd (writeInvoiceColumn nextRow col data w)).
Proof.
  unfold writeInvoiceColumn.
  apply forEachM_frame; [apply sameLedger_refl | apply sameLedger_trans|].
  intros x w0. apply setInvoicingValue_frame.
Qed.

(** [createInvoice] writes to the Invoicing sheet only. *)
Lemma createInvoice_frame (env : Env) (payments : list (string * PaymentRecord))
    (w : World) :
  sameLedger w (snd (createInvoice env payments w)).
Proof.
  unfold createInvoice, bind, getW, throw, liftOutcome, ret.
  destruct (invoicing w) as [sh|]; [|apply sameLedger_refl].
  destruct (invoiceDataOf _ _ _ _) as [data|e]; [|apply sameLedger_refl].
  match goal with
  | |- sameLedger w (snd (let (o, w') := ?m w in _)) =>
      assert (H : sameLedger w (snd (m w))); [|destruct (m w) as [[[]|] ?]; exact H]
  end.
  destruct (0 <? length data)%nat; [|apply sameLedger_refl].
  apply forEachM_frame; [apply sameLedger_refl | apply sameLedger_trans|].
  intros x w0. destruct (negb (snd x =? -1)).
  - apply writeInvoiceColumn_frame.
  - apply sameLedger_refl.
Qed.

Lemma getPayConfiguration_run (w : World) :
  getPayConfiguration w
  = match payConfigSheet w with
    | Some rows => (Ok (payConfigOfRows rows), w)
    | None => (Throw "Error: Pay Config sheet not found", w)
    end.
Proof.
  unfold getPayConfiguration, bind, getW, ret, throw.
  now destruct (payConfigSheet w).
Qed.

Lemma getStaffMapping_run (w : World) :
  getStaffMapping w
  = match staffSheet w with
    | Some rows => (Ok (staffMappingOfRows rows), w)
    | None => (Throw "Error: Staff Key to Staff name sheet not found", w)
    end.
Proof.
  unfold getStaffMapping, bind, getW, ret, throw.
  now destruct (staffSheet w).
Qed.

(** The common opening of the three handlers: the selection, the test for
    no unpaid work, the two configuration sheets and the aggregation. *)
Ltac open_handler w :=
  unfold tryCatch, bind;
  rewrite getUnpaidWorkFromMaster_run;
  destruct (master w) as [?sh|]; [|reflexivity]; cbv zeta;
  destruct (length (unpaidWork_spec _) =? 0)%nat; [reflexivity|];
  rewrite getPayConfiguration_run;
  destruct (payConfigSheet w) as [?prows|]; [|reflexivity];
  rewrite getStaffMapping_run;
  destruct (staffSheet w) as [?srows|]; [|reflexivity];
  destruct (calculatePayments _ _ _) as [?payments ?errors].

(** The commit handler, step by step. *)
Lemma handleCalculatePayRequest_run (env : Env) (w : World) :
  handleCalculatePayRequest env w
  = match master w with
    | None =>
        (Ok (CommitError
               "Error: MASTER sheet not found in work log spreadsheet"), w)
    | Some sh =>
        let items := unpaidWork_spec sh in
        if (length items =? 0)%nat then (Ok CommitNoUnpaidWork, w)
        else
          match payConfigSheet w with
          | None => (Ok (CommitError "Error: Pay Config sheet not found"), w)
          | Some prows =>
              match staffSheet w with
              | None =>
                  (Ok (CommitError
                         "Error: Staff Key to Staff name sheet not found"), w)
              | Some srows =>
                  let r := calculatePayments items (payConfigOfRows prows)
                                             (staffMappingOfRows srows) in
                  match createInvoice env (fst r) w with
                  | (Throw e, w1) => (Ok (CommitError e), w1)
                  | (Ok _, w1) =>
                      match markWorkAsInvoiced items w1 with
                      | (Throw e, w2) => (Ok (CommitError e), w2)
                      | (Ok _, w2) =>
                          (Ok (CommitSuccess (summaryOf items (fst r)) (snd r)),
                           w2)
                      end
                  end
              end
          end
    end.
Proof.
  unfold handleCalculatePayRequest. open_handler w. cbn [fst snd].
  destruct (createInvoice env payments w) as [[r|e] w1]; [|reflexivity].
  destruct (markWorkAsInvoiced (unpaidWork_spec sh) w1) as [[[]|e] w2];
    reflexivity.
Qed.

Lemma getCell_markRows (rows : list Z) (c : Z) (sh : sheet) (r' c' : nat) :
  Forall (fun r => 1 <= r) rows -> 1 <= c ->
  (1 <= r')%nat -> (1 <= c')%nat ->
  getCell (markRows sh rows c) r' c'
  = if (Z.of_nat c' =? c) && existsb (Z.eqb (Z.of_nat r')) rows
    then CStr "Invoiced" else getCell sh r' c'.
Proof.
  intros Hrows Hc Hr' Hc'. revert sh.
  induction rows as [|r rows IH]; intros sh.
  - cbn. now rewrite andb_false_r.
  - apply Forall_cons_iff in Hrows. destruct Hrows as [Hr Hrows].
    unfold markRows. cbn [fold_left].
    fold (markRows (writeCell sh (Z.to_nat (r - 1)) (Z.to_nat (c - 1))
                              (CStr "Invoiced")) rows c).
    rewrite (IH Hrows). rewrite getCell_writeCell by assumption.
    cbn [existsb].
    destruct (Z.eqb_spec (Z.of_nat c') c) as [Ec|Ec]; cbn [andb].
    + destruct (existsb (Z.eqb (Z.of_nat r')) rows);
        [now rewrite orb_true_r|]. rewrite orb_false_r.
      destruct (Z.eqb_spec (Z.of_nat r') r) as [Er|Er];
        destruct (Nat.eqb_spec (r' - 1) (Z.to_nat (r - 1)));
        destruct (Nat.eqb_spec (c' - 1) (Z.to_nat (c - 1)));
        cbn [andb]; try reflexivity; lia.
    + destruct (Nat.eqb_spec (c' - 1) (Z.to_nat (c - 1))); [lia|].
      now rewrite andb_false_r.
Qed.

(** [createInvoicesAndMark], step by step. *)
Lemma createInvoicesAndMark_run (env : Env) (items : list WorkItem)
    (payments : list (string * PaymentRecord)) (w : World) :
  createInvoicesAndMark env items payments w
  = if (length items =? 0)%nat then (Ok (MarkError "No work data provided"), w)
    else if (length payments =? 0)%nat
    then (Ok (MarkError "No payment data provided"), w)
    else
      match createInvoice env payments w with
      | (Throw e, w1) => (Ok (MarkError e), w1)
      | (Ok r, w1) =>
          match markWorkAsInvoiced items w1 with
          | (Throw e, w2) => (Ok (MarkError e), w2)
          | (Ok _, w2) => (Ok (MarkSuccess r), w2)
          end
      end.
Proof.
  unfold createInvoicesAndMark, tryCatch.
  destruct (length items =? 0)%nat; [reflexivity|].
  destruct (length payments =? 0)%nat; [reflexivity|].
  unfold bind.
  destruct (createInvoice env payments w) as [[r|e] w1]; [|reflexivity].
  destruct (markWorkAsInvoiced items w1) as [[[]|e] w2]; reflexivity.
Qed.

(** ** The invoice rows *)

Lemma at_arr_assign (row : list cell) (i j : Z) (v : cell) :
  0 <= i -> 0 <= j ->
  at_ (arr_assign row i v) (Some j) = if j =? i then v else at_ row (Some j).
Proof.
  intros Hi Hj. unfold at_, arr_assign.
  destruct (Z.ltb_spec j 0); [lia|]. rewrite nth_set_nth.
  destruct (Z.eqb_spec j i) as [->|Hne].
  - now rewrite Nat.eqb_refl.
  - destruct (Nat.eqb_spec (Z.to_nat j) (Z.to_nat i)); [lia | reflexivity].
Qed.

Lemma at_assignIf_same (row : list cell) (j : Z) (v : cell) :
  0 <= j -> at_ (assignIf j v row) (Some j) = v.
Proof.
  intros Hj. unfold assignIf.
  destruct (Z.eqb_spec j (-1)); [lia|]. cbn [negb].
  rewrite at_arr_assign by lia. now rewrite Z.eqb_refl.
Qed.

Lemma at_assignIf_other (row : list cell) (c j : Z) (v : cell) :
  -1 <= c -> 0 <= j -> c <> j ->
  at_ (assignIf c v row) (Some j) = at_ row (Some j).
Proof.
  intros Hc Hj Hne. unfold assignIf.
  destruct (Z.eqb_spec c (-1)); [reflexivity|]. cbn [negb].
  rewrite at_arr_assign by lia.
  destruct (Z.eqb_spec j c); [congruence | reflexivity].
Qed.

Lemma invoiceRowOf_eq (ic : InvoiceColumns) (env : Env) (n : string)
    (p : PaymentRecord) (m : Z) :
  maxColumnIndex ic = Some m ->
  invoiceRowOf ic env n p
  = Ok (assignIf (colPlaybackLinks ic)
          (CStr (playbackLinksOf (groupTasksByType (tasks p))))
          (assignIf (colTotal ic) (CNum (totalAmount p))
             (assignIf (colWorkDone ic)
                (CStr (workDoneSummaryOf (groupTasksByType (tasks p))))
                (assignIf (colContractor ic) (legalName p)
                   (assignIf (colDate ic) (timestamp env)
                      (assignIf (colInvoiceNumber ic) (CStr n)
                         (repeat blank (Z.to_nat (m + 1))))))))).
Proof. intros Hm. unfold invoiceRowOf. rewrite Hm. reflexivity. Qed.

Lemma maxColumnIndex_found (ic : InvoiceColumns) :
  colInvoiceNumber ic <> -1 -> exists m, maxColumnIndex ic = Some m.
Proof.
  intros H. unfold maxColumnIndex, invoiceColumnEntries.
  cbn [map snd List.filter].
  destruct (Z.eqb_spec (colInvoiceNumber ic) (-1)); [contradiction|].
  cbn [negb]. eauto.
Qed.

Lemma invoiceColumnsOf_range (headers : list cell) :
  Forall (fun e : string * Z => -1 <= snd e)
         (invoiceColumnEntries (invoiceColumnsOf headers)).
Proof.
  unfold invoiceColumnEntries, invoiceColumnsOf. cbn.
  repeat constructor; cbn; apply indexOf_range.
Qed.



(** ** The Invoicing sheet after [createInvoice] *)

Lemma withInvoicing_id (w : World) (sh : sheet) :
  invoicing w = Some sh -> withInvoicing w sh = w.
Proof. destruct w. cbn. now intros ->. Qed.

Lemma setInvoicingValue_run (w : World) (sh : sheet) (r c : Z) (v : cell) :
  invoicing w = Some sh -> 1 <= r -> 1 <= c ->
  setInvoicingValue r c v w
  = (Ok tt,
     withInvoicing w (writeCell sh (Z.to_nat (r - 1)) (Z.to_nat (c - 1)) v)).
Proof.
  intros Hm Hr Hc. unfold setInvoicingValue, bind, getW, putW, setValue.
  rewrite Hm.
  destruct (Z.ltb_spec r 1); [lia|]. destruct (Z.ltb_spec c 1); [lia|].
  reflexivity.
Qed.

Lemma writeInvoiceColumn_run (nextRow col : Z) (data : list (list cell)) :
  1 <= nextRow -> 0 <= col ->
  forall (w : World) (sh : sheet),
    invoicing w = Some sh ->
    writeInvoiceColumn nextRow col data w
    = (Ok tt, withInvoicing w (writeColumn sh nextRow col data)).
Proof.
  intros Hn Hc. unfold writeInvoiceColumn, writeColumn.
  generalize (imap (fun k row => (k, row)) data). intros l.
  induction l as [|e l IH]; intros w sh Hw.
  - cbn. unfold ret. now rewrite withInvoicing_id.
  - cbn [forEachM fold_left]. unfold bind.
    rewrite (setInvoicingValue_run w sh) by (assumption || lia).
    set (sh1 := writeCell sh _ _ _).
    rewrite (IH (withInvoicing w sh1) sh1) by reflexivity. reflexivity.
Qed.

Lemma writeColumns_run (nextRow : Z) (data : list (list cell))
    (entries : list (string * Z)) :
  1 <= nextRow ->
  Forall (fun e : string * Z => -1 <= snd e) entries ->
  forall (w : World) (sh : sheet),
    invoicing w = Some sh ->
    forEachM
      (fun e : string * Z =>
         if negb (snd e =? -1) then writeInvoiceColumn nextRow (snd e) data
         else ret tt)
      entries w
    = (Ok tt, withInvoicing w (writeColumns sh nextRow entries data)).
Proof.
  intros Hn. unfold writeColumns.
  induction entries as [|e entries IH]; intros Hall w sh Hw.
  - cbn. unfold ret. now rewrite withInvoicing_id.
  - apply Forall_cons_iff in Hall. destruct Hall as [He Hall].
    cbn [forEachM fold_left]. unfold bind.
    destruct (Z.eqb_spec (snd e) (-1)) as [E|E]; cbn [negb].
    + unfold ret at 1. now apply IH.
    + rewrite (writeInvoiceColumn_run nextRow (snd e) data Hn) with (sh := sh)
        by (assumption || lia).
      set (sh1 := writeColumn sh _ _ _).
      rewrite (IH Hall (withInvoicing w sh1) sh1) by reflexivity. reflexivity.
Qed.

Lemma invoiceNextRow_ge (sh : sheet) : 3 <= invoiceNextRow sh.
Proof.
  unfold invoiceNextRow. destruct (Nat.ltb_spec 2 (getLastRow sh)); lia.
Qed.

(** [createInvoice] on a sheet whose rows are built without error. *)
Lemma createInvoice_run (env : Env) (payments : list (string * PaymentRecord))
    (w : World) (sh : sheet) (data : list (list cell)) :
  invoicing w = Some sh ->
  invoiceDataOf (invoiceColumnsOf (headerValues sh 2)) env
                (invoiceNumberOf env) payments = Ok data ->
  createInvoice env payments w
  = (Ok {| invoiceNumber := invoiceNumberOf env;
           invoiceDate := timestamp env;
           rowsCreated := length data |},
     if (0 <? length data)%nat
     then withInvoicing w
            (writeColumns sh (invoiceNextRow sh)
               (invoiceColumnEntries (invoiceColumnsOf (headerValues sh 2)))
               data)
     else w).
Proof.
  intros Hw Hdata. unfold createInvoice, bind at 1, getW. rewrite Hw.
  cbv zeta. unfold bind at 1, liftOutcome. rewrite Hdata.
  fold (invoiceNextRow sh). unfold bind.
  destruct (0 <? length data)%nat.
  - rewrite (writeColumns_run (invoiceNextRow sh) data _) with (sh := sh);
      [reflexivity | | apply invoiceColumnsOf_range | exact Hw].
    pose proof (invoiceNextRow_ge sh). lia.
  - reflexivity.
Qed.


Lemma imap_snoc {A B} (f : nat -> A -> B) (l : list A) (x : A) :
  imap f (l ++ [x]) = imap f l ++ [f (length l) x].
Proof.
  rewrite imap_app. cbn. now rewrite Nat.add_0_r.
Qed.



(** ** Preview and calculation *)

Lemma calculateStaffPay_run (w : World) :
  calculateStaffPay w
  = match master w with
    | None =>
        (Ok (CalcError
               "Error: MASTER sheet not found in work log spreadsheet"), w)
    | Some sh =>
        let items := unpaidWork_spec sh in
        if (length items =? 0)%nat then (Ok CalcNoUnpaidWork, w)
        else
          match payConfigSheet w with
          | None => (Ok (CalcError "Error: Pay Config sheet not found"), w)
          | Some prows =>
              match staffSheet w with
              | None =>
                  (Ok (CalcError
                         "Error: Staff Key to Staff name sheet not found"), w)
              | Some srows =>
                  let r := calculatePayments items (payConfigOfRows prows)
                                             (staffMappingOfRows srows) in
                  (Ok (CalcSuccess items (fst r) (snd r)
                                   (summaryOf items (fst r))), w)
              end
          end
    end.
Proof.
  unfold calculateStaffPay. open_handler w. reflexivity.
Qed.

Lemma handleCalculatePayPreviewRequest_run (w : World) :
  handleCalculatePayPreviewRequest w
  = match master w with
    | None =>
        (Ok (PreviewError
               "Error: MASTER sheet not found in work log spreadsheet"), w)
    | Some sh =>
        let items := unpaidWork_spec sh in
        if (length items =? 0)%nat then (Ok PreviewNoUnpaidWork, w)
        else
          match payConfigSheet w with
          | None => (Ok (PreviewError "Error: Pay Config sheet not found"), w)
          | Some prows =>
              match staffSheet w with
              | None =>
                  (Ok (PreviewError
                         "Error: Staff Key to Staff name sheet not found"), w)
              | Some srows =>
                  let r := calculatePayments items (payConfigOfRows prows)
                                             (staffMappingOfRows srows) in
                  (Ok (PreviewSuccess (summaryOf items (fst r)) (snd r)
                                      (previewPaymentsOf (fst r))), w)
              end
          end
    end.
Proof.
  unfold handleCalculatePayPreviewRequest. open_handler w. reflexivity.
Qed.

(** * Further lemmas *)

(** ** Header lookup *)



Lemma status_key_eqb_r (hs : list cell) (name : string) :
  includes "status" (toLowerCase name) = false ->
  name <> "undefined" ->
  String.eqb (toStr (findStatusColumnName hs)) name = false.
Proof.
  intros H1 H2. apply String.eqb_neq. now apply status_key_not.
Qed.

(** [cols] of the selector holds, under each literal column name, the
    index of that name in the header row. *)
Lemma masterCols_name (sh : sheet) (n : string) :
  In n masterFieldNames ->
  obj_get n (masterCols sh) = Some (indexOf (CStr n) (headerValues sh 2)).
Proof.
  intros Hn. rewrite getColumnIndices_lookup.
  unfold masterFieldNames in Hn. cbn [In] in Hn.
  repeat (destruct Hn as [<-|Hn];
          [unfold masterColumnNames; cbn [lastNamed toStr];
           rewrite ?status_key_eqb_r by (first [reflexivity | discriminate]);
           reflexivity|]).
  contradiction.
Qed.

(** ** The configuration dictionaries *)

Lemma payConfigOfRows_snoc (rows : list PayConfigRow) (r : PayConfigRow) :
  payConfigOfRows (rows ++ [r]) = payConfig_step (payConfigOfRows rows) r.
Proof. unfold payConfigOfRows. now rewrite fold_left_app. Qed.

(** The entry a turn of the loop leaves under a key. *)
Lemma payConfig_step_lookup (m : gmap string RateEntry) (r : PayConfigRow)
    (k : string) :
  payConfig_step m r !! k
  = if isOfType k r then
      let d := match m !! k with
               | Some e => defaultRate e
               | None => pc_defaultRate r
               end in
      let cs := match m !! k with
                | Some e => customRates e
                | None => ∅
                end in
      Some {| defaultRate := d;
              customRates :=
                match pc_customRate r with
                | Some c =>
                    if truthy (pc_staffName r) && num_truthy c
                    then <[toStr (pc_staffName r) := c]> cs else cs
                | None => cs
                end |}
    else m !! k.
Proof.
  unfold payConfig_step, isOfType. cbv zeta.
  set (kr := toStr (pc_taskType r)).
  destruct (String.eqb_spec kr k) as [<-|Hne].
  - destruct (m !! kr) as [e|] eqn:Em.
    + destruct (pc_customRate r) as [c|]; [|now destruct e].
      destruct (truthy (pc_staffName r) && num_truthy c); [|now destruct e].
      rewrite Em. apply lookup_insert_eq.
    + destruct (pc_customRate r) as [c|]; [|apply lookup_insert_eq].
      destruct (truthy (pc_staffName r) && num_truthy c);
        [|apply lookup_insert_eq].
      rewrite lookup_insert_eq. apply lookup_insert_eq.
  - destruct (m !! kr) as [e|] eqn:Em.
    + destruct (pc_customRate r) as [c|]; [|reflexivity].
      destruct (truthy (pc_staffName r) && num_truthy c); [|reflexivity].
      rewrite Em. now apply lookup_insert_ne.
    + destruct (pc_customRate r) as [c|];
        [|now apply lookup_insert_ne].
      destruct (truthy (pc_staffName r) && num_truthy c);
        [|now apply lookup_insert_ne].
      rewrite lookup_insert_eq.
      rewrite lookup_insert_ne by exact Hne. now apply lookup_insert_ne.
Qed.

Lemma find_snoc {A} (p : A -> bool) (l : list A) (x : A) :
  find p (l ++ [x])
  = match find p l with
    | Some y => Some y
    | None => if p x then Some x else None
    end.
Proof.
  induction l as [|y l IH]; cbn; [reflexivity|].
  destruct (p y); [reflexivity | exact IH].
Qed.

(** The rate table, key by key, as a function of the rows. *)
Lemma payConfigOfRows_lookup (rows : list PayConfigRow) (k : string) :
  match payConfigOfRows rows !! k with
  | None => find (isOfType k) rows = None
  | Some e =>
      exists r0,
        find (isOfType k) rows = Some r0
        /\ defaultRate e = pc_defaultRate r0
        /\ forall s,
             customRates e !! s
             = match find (setsCustomRate k s) (rev rows) with
               | Some r => pc_customRate r
               | None => None
               end
  end.
Proof.
  induction rows as [|r rows IH] using rev_ind.
  - unfold payConfigOfRows. cbn. now rewrite lookup_empty.
  - rewrite payConfigOfRows_snoc, payConfig_step_lookup, find_snoc.
    rewrite rev_app_distr. cbn [rev app find].
    destruct (isOfType k r) eqn:Ek.
    + cbv zeta.
      destruct (payConfigOfRows rows !! k) as [e|] eqn:Em.
      * destruct IH as (r0 & Hf & Hd & Hc). exists r0. rewrite Hf.
        split; [reflexivity|]. split; [exact Hd|]. cbn [customRates].
        intros s. unfold setsCustomRate at 1. rewrite Ek. cbn [andb].
        destruct (pc_customRate r) as [c|] eqn:Ec;
          [|rewrite !andb_false_r; apply Hc].
        destruct (String.eqb_spec (toStr (pc_staffName r)) s) as [<-|Hs].
        -- cbn [andb].
           destruct (truthy (pc_staffName r) && num_truthy c);
             [rewrite Ec; apply lookup_insert_eq | apply Hc].
        -- cbn [andb].
           destruct (truthy (pc_staffName r) && num_truthy c);
             [rewrite lookup_insert_ne by exact Hs|]; apply Hc.
      * rewrite IH. exists r. split; [reflexivity|]. split; [reflexivity|].
        cbn [customRates]. intros s.
        assert (Hnone : find (setsCustomRate k s) (rev rows) = None).
        { destruct (find (setsCustomRate k s) (rev rows)) as [r'|] eqn:Ef;
            [|reflexivity].
          apply find_some in Ef. destruct Ef as [Hin Hs].
          apply in_rev in Hin.
          pose proof (find_none _ _ IH _ Hin) as Hno.
          unfold setsCustomRate in Hs. rewrite Hno in Hs. discriminate. }
        rewrite Hnone. unfold setsCustomRate. rewrite Ek. cbn [andb].
        destruct (pc_customRate r) as [c|] eqn:Ec;
          [|rewrite !andb_false_r; apply lookup_empty].
        destruct (String.eqb_spec (toStr (pc_staffName r)) s) as [<-|Hs];
          cbn [andb].
        -- destruct (truthy (pc_staffName r) && num_truthy c);
             [rewrite Ec; apply lookup_insert_eq | apply lookup_empty].
        -- destruct (truthy (pc_staffName r) && num_truthy c);
             [rewrite lookup_insert_ne by exact Hs|]; apply lookup_empty.
    + assert (Hs : forall s, setsCustomRate k s r = false)
        by (intros s; unfold setsCustomRate; now rewrite Ek).
      destruct (payConfigOfRows rows !! k) as [e|].
      * destruct IH as (r0 & Hf & Hd & Hc). exists r0. rewrite Hf.
        split; [reflexivity|]. split; [exact Hd|].
        intros s. rewrite Hs. apply Hc.
      * now rewrite IH.
Qed.


Lemma find_first_split {A} (p : A -> bool) (l : list A) (x : A) :
  find p l = Some x ->
  exists l1 l2, l = l1 ++ x :: l2 /\ p x = true
                /\ forall y, In y l1 -> p y = false.
Proof.
  induction l as [|y l IH]; cbn; [discriminate|].
  destruct (p y) eqn:E.
  - intros [= <-]. exists [], l. repeat split; [exact E | intros ? []].
  - intros H. destruct (IH H) as (l1 & l2 & -> & Hx & Hl1).
    exists (y :: l1), l2. repeat split; [exact Hx|].
    intros z [<-|Hz]; [exact E | now apply Hl1].
Qed.

Lemma find_last_split {A} (p : A -> bool) (l : list A) (x : A) :
  find p (rev l) = Some x ->
  exists l1 l2, l = l1 ++ x :: l2 /\ p x = true
                /\ forall y, In y l2 -> p y = false.
Proof.
  intros H. apply find_first_split in H.
  destruct H as (l1 & l2 & Hrev & Hx & Hl1).
  exists (rev l2), (rev l1). split; [|split; [exact Hx|]].
  - rewrite <- (rev_involutive l), Hrev, rev_app_distr. cbn.
    now rewrite <- app_assoc.
  - intros y Hy. apply Hl1. now apply in_rev in Hy.
Qed.

Lemma find_none_iff {A} (p : A -> bool) (l : list A) :
  find p l = None <-> forall y, In y l -> p y = false.
Proof.
  split; [apply find_none|].
  intros H. destruct (find p l) as [x|] eqn:E; [|reflexivity].
  apply find_some in E. destruct E as [Hin Hx]. rewrite (H x Hin) in Hx.
  discriminate.
Qed.

Lemma find_rev_none_iff {A} (p : A -> bool) (l : list A) :
  find p (rev l) = None <-> forall y, In y l -> p y = false.
Proof.
  rewrite find_none_iff. split; intros H y Hy; apply H.
  - now apply in_rev in Hy.
  - now apply in_rev.
Qed.

(** ** First occurrences *)

Lemma In_firstOccurrences {A} `{EqDecision A} (l : list A) (x : A) :
  In x (firstOccurrences l) <-> In x l.
Proof.
  induction l as [|a l IH]; cbn; [tauto|].
  rewrite List.filter_In, IH.
  destruct (decide (x = a)) as [->|Hne].
  - intuition.
  - rewrite bool_decide_eq_false_2 by exact Hne. cbn. intuition congruence.
Qed.

Lemma NoDup_filter_list {A} (p : A -> bool) (l : list A) :
  List.NoDup l -> List.NoDup (List.filter p l).
Proof.
  induction 1 as [|x l Hx Hnd IH]; cbn; [constructor|].
  destruct (p x); [|exact IH].
  constructor; [|exact IH]. rewrite List.filter_In. tauto.
Qed.

Lemma NoDup_firstOccurrences {A} `{EqDecision A} (l : list A) :
  List.NoDup (firstOccurrences l).
Proof.
  induction l as [|a l IH]; cbn; constructor.
  - rewrite List.filter_In. intros [_ Hf].
    rewrite bool_decide_eq_true_2 in Hf by reflexivity. discriminate.
  - now apply NoDup_filter_list.
Qed.

Lemma firstOccurrences_snoc {A} `{EqDecision A} (l : list A) (x : A) :
  firstOccurrences (l ++ [x])
  = if bool_decide (x ∈ l) then firstOccurrences l
    else firstOccurrences l ++ [x].
Proof.
  induction l as [|a l IH].
  - cbn. rewrite bool_decide_eq_false_2 by apply not_elem_of_nil. reflexivity.
  - cbn [app firstOccurrences]. rewrite IH.
    destruct (decide (x = a)) as [->|Hne].
    + rewrite (bool_decide_eq_true_2 (a ∈ a :: l)) by apply list_elem_of_here.
      case_bool_decide; [reflexivity|].
      rewrite List.filter_app. cbn.
      rewrite bool_decide_eq_true_2 by reflexivity. cbn.
      now rewrite app_nil_r.
    + case_bool_decide as Hin.
      * rewrite bool_decide_eq_true_2 by now apply list_elem_of_further.
        reflexivity.
      * rewrite bool_decide_eq_false_2.
        2:{ rewrite elem_of_cons. intuition congruence. }
        rewrite List.filter_app. cbn.
        rewrite bool_decide_eq_false_2 by exact Hne. reflexivity.
Qed.



(** ** Keys of the payments *)

Lemma payments_keys cfg sm ws :
  map fst (fold_left (payments_step cfg sm) ws [])
  = firstOccurrences (map (legalKey sm) ws).
Proof.
  induction ws as [|w ws IH] using rev_ind; [reflexivity|].
  rewrite fold_left_app, map_app. cbn [fold_left map].
  rewrite firstOccurrences_snoc, payments_step_eq, obj_update_keys.
  set (p := fold_left (payments_step cfg sm) ws []) in *.
  destruct (obj_get (legalKey sm w) p) as [r|] eqn:E.
  - rewrite bool_decide_eq_true_2; [exact IH|].
    apply obj_get_In in E. apply (in_map fst) in E. cbn in E.
    rewrite IH in E. apply list_elem_of_In.
    exact (proj1 (In_firstOccurrences _ _) E).
  - rewrite bool_decide_eq_false_2.
    + rewrite map_app, IH. reflexivity.
    + apply obj_get_None in E. rewrite IH in E.
      intros Hin. apply E. apply (proj2 (In_firstOccurrences _ _)).
      now apply list_elem_of_In.
Qed.

(** ** Grouping the tasks of a payment by type *)

Lemma obj_update_absent {V} (k : string) (f : V -> V) (o : list (string * V)) :
  ~ In k (map fst o) -> obj_update k f o = o.
Proof.
  induction o as [|[k' v] o IH]; cbn; [reflexivity|].
  intros Hn. destruct (String.eqb k' k) eqn:E.
  - apply String.eqb_eq in E. tauto.
  - f_equal. apply IH. tauto.
Qed.

Lemma obj_update_app {V} (k : string) (f : V -> V) (o1 o2 : list (string * V)) :
  ~ In k (map fst o1) ->
  obj_update k f (o1 ++ o2) = o1 ++ obj_update k f o2.
Proof.
  induction o1 as [|[k' v] o IH]; cbn; [reflexivity|].
  intros Hn. destruct (String.eqb k' k) eqn:E.
  - apply String.eqb_eq in E. tauto.
  - f_equal. apply IH. tauto.
Qed.

Lemma obj_update_map {V} (k : string) (f : V -> V) (g : string -> V)
    (ks : list string) :
  List.NoDup ks ->
  obj_update k f (map (fun k' => (k', g k')) ks)
  = map (fun k' => (k', if String.eqb k' k then f (g k') else g k')) ks.
Proof.
  induction 1 as [|a ks Ha Hnd IH]; cbn; [reflexivity|].
  destruct (String.eqb a k) eqn:E.
  - f_equal. apply String.eqb_eq in E. subst a.
    apply map_ext_in. intros k' Hk'.
    destruct (String.eqb k' k) eqn:E'; [|reflexivity].
    apply String.eqb_eq in E'. congruence.
  - f_equal. exact IH.
Qed.

Lemma obj_get_map {V} (k : string) (g : string -> V) (ks : list string) :
  obj_get k (map (fun k' => (k', g k')) ks)
  = if bool_decide (k ∈ ks) then Some (g k) else None.
Proof.
  induction ks as [|a ks IH]; cbn.
  - now rewrite bool_decide_eq_false_2 by apply not_elem_of_nil.
  - destruct (String.eqb a k) eqn:E.
    + apply String.eqb_eq in E. subst a.
      now rewrite bool_decide_eq_true_2 by apply list_elem_of_here.
    + rewrite IH. apply String.eqb_neq in E.
      case_bool_decide as H1; case_bool_decide as H2; try reflexivity;
        rewrite elem_of_cons in H2; intuition congruence.
Qed.

Lemma groupTasksByType_eq (ts : list Task) :
  groupTasksByType ts
  = map (fun k => (k, List.filter (fun t => String.eqb (typeKey t) k) ts))
        (firstOccurrences (map typeKey ts)).
Proof.
  induction ts as [|t ts IH] using rev_ind; [reflexivity|].
  unfold groupTasksByType in *. rewrite fold_left_app. cbn [fold_left].
  rewrite IH. clear IH. fold (typeKey t).
  rewrite map_app. cbn [map]. rewrite firstOccurrences_snoc, obj_get_map.
  assert (Hiff : typeKey t ∈ firstOccurrences (map typeKey ts)
                 <-> typeKey t ∈ map typeKey ts)
    by (rewrite !list_elem_of_In; apply In_firstOccurrences).
  case_bool_decide as H1; case_bool_decide as H2; try tauto.
  - rewrite obj_update_map by apply NoDup_firstOccurrences.
    apply map_ext. intros k. rewrite List.filter_app. cbn.
    rewrite (String.eqb_sym k).
    destruct (String.eqb (typeKey t) k); [reflexivity | now rewrite app_nil_r].
  - rewrite obj_update_app.
    2:{ rewrite map_map. cbn. rewrite map_id. intros Hin. apply H1.
        now apply list_elem_of_In. }
    cbn. rewrite String.eqb_refl, map_app. cbn. f_equal.
    + apply map_ext_in. intros k Hk. rewrite List.filter_app. cbn.
      destruct (String.eqb (typeKey t) k) eqn:E; [|now rewrite app_nil_r].
      apply String.eqb_eq in E. subst k. exfalso. apply H1.
      now apply list_elem_of_In.
    + rewrite List.filter_app. cbn. rewrite String.eqb_refl.
      rewrite (filter_none _ ts); [reflexivity|].
      intros t' Ht'. apply String.eqb_neq. intros E. apply H2.
      rewrite <- E. apply list_elem_of_In. now apply in_map.
Qed.

Lemma concat_filter_partition {A} (key : A -> string) (ts : list A)
    (ks : list string) :
  List.NoDup ks ->
  (forall t, In t ts -> In (key t) ks) ->
  Permutation
    (concat (map (fun k => List.filter (fun t => String.eqb (key t) k) ts) ks))
    ts.
Proof.
  intros Hnd. induction ts as [|t ts IH]; intros Hcov.
  - clear Hnd Hcov. induction ks as [|k ks IHk]; cbn; [constructor|].
    exact IHk.
  - specialize (IH (fun t' Ht' => Hcov t' (or_intror Ht'))).
    transitivity
      (t :: concat (map (fun k => List.filter
                                    (fun t0 => String.eqb (key t0) k) ts) ks));
      [|now constructor].
    clear IH.
    assert (Hin : In (key t) ks) by (apply Hcov; now left).
    clear Hcov. induction ks as [|k ks IHk]; [destruct Hin|].
    cbn [map concat].
    replace (List.filter (fun t0 => String.eqb (key t0) k) (t :: ts))
      with (if String.eqb (key t) k
            then t :: List.filter (fun t0 => String.eqb (key t0) k) ts
            else List.filter (fun t0 => String.eqb (key t0) k) ts)
      by reflexivity.
    inversion Hnd as [|? ? Hk Hnd']; subst.
    destruct (String.eqb (key t) k) eqn:E.
    + apply String.eqb_eq in E. cbn [app]. constructor.
      apply Permutation_app_head.
      assert (Hsame :
        map (fun k0 => List.filter (fun t0 => String.eqb (key t0) k0) (t :: ts)) ks
        = map (fun k0 => List.filter (fun t0 => String.eqb (key t0) k0) ts) ks).
      { apply map_ext_in. intros k0 Hk0. cbn.
        destruct (String.eqb (key t) k0) eqn:E0; [|reflexivity].
        apply String.eqb_eq in E0. congruence. }
      rewrite Hsame. reflexivity.
    + apply String.eqb_neq in E.
      destruct Hin as [Hin|Hin]; [congruence|].
      specialize (IHk Hnd' Hin).
      rewrite (Permutation_app_head _ IHk).
      apply Permutation_sym, Permutation_middle.
Qed.

(** ** The Invoicing sheet, cell by cell *)

Lemma getCell_writeColumn_gen (sh : sheet) (nextRow col : Z)
    (data : list (list cell)) (r c : nat) :
  1 <= nextRow -> 0 <= col -> (1 <= r)%nat -> (1 <= c)%nat ->
  getCell (writeColumn sh nextRow col data) r c
  = if (Z.of_nat c =? col + 1) && (nextRow <=? Z.of_nat r)
       && (Z.of_nat r <? nextRow + Z.of_nat (length data))
    then at_ (nth (Z.to_nat (Z.of_nat r - nextRow)) data []) (Some col)
    else getCell sh r c.
Proof.
  intros Hn Hcol Hr Hc.
  induction data as [|row data IH] using rev_ind.
  - unfold writeColumn. cbn [imap fold_left length].
    assert (E : (nextRow <=? Z.of_nat r)
                && (Z.of_nat r <? nextRow + Z.of_nat 0) = false).
    { destruct (Z.leb_spec nextRow (Z.of_nat r));
        destruct (Z.ltb_spec (Z.of_nat r) (nextRow + Z.of_nat 0));
        try reflexivity; lia. }
    now rewrite <- andb_assoc, E, andb_false_r.
  - unfold writeColumn. rewrite imap_snoc, fold_left_app.
    cbn [fold_left fst snd]. fold (writeColumn sh nextRow col data).
    rewrite getCell_writeCell by assumption. rewrite IH. clear IH.
    rewrite length_app. cbn [length].
    destruct (Nat.eqb_spec (r - 1)
                (Z.to_nat (nextRow + Z.of_nat (length data) - 1))) as [E|E];
      destruct (Nat.eqb_spec (c - 1) (Z.to_nat (col + 1 - 1))) as [E'|E'];
      cbn [andb].
    + destruct (Z.eqb_spec (Z.of_nat c) (col + 1)); [|lia].
      destruct (Z.leb_spec nextRow (Z.of_nat r)); [|lia].
      destruct (Z.ltb_spec (Z.of_nat r)
                  (nextRow + Z.of_nat (length data + 1))); [|lia].
      cbn [andb].
      replace (Z.to_nat (Z.of_nat r - nextRow)) with (length data) by lia.
      now rewrite nth_middle.
    + destruct (Z.eqb_spec (Z.of_nat c) (col + 1)); [lia|]. reflexivity.
    + destruct (Z.eqb_spec (Z.of_nat c) (col + 1)); [|lia]. cbn [andb].
      destruct (Z.leb_spec nextRow (Z.of_nat r)); cbn [andb]; [|reflexivity].
      destruct (Z.ltb_spec (Z.of_nat r) (nextRow + Z.of_nat (length data)));
        destruct (Z.ltb_spec (Z.of_nat r)
                    (nextRow + Z.of_nat (length data + 1))); try lia;
        [|reflexivity].
      rewrite app_nth1 by lia. reflexivity.
    + destruct (Z.eqb_spec (Z.of_nat c) (col + 1)); [lia|]. reflexivity.
Qed.

Lemma getCell_writeColumns_gen (sh : sheet) (nextRow : Z)
    (entries : list (string * Z)) (data : list (list cell)) (r c : nat) :
  1 <= nextRow ->
  Forall (fun e : string * Z => -1 <= snd e) entries ->
  (1 <= r)%nat -> (1 <= c)%nat ->
  getCell (writeColumns sh nextRow entries data) r c
  = if existsb (fun e : string * Z => snd e =? Z.of_nat c - 1) entries
       && (nextRow <=? Z.of_nat r)
       && (Z.of_nat r <? nextRow + Z.of_nat (length data))
    then at_ (nth (Z.to_nat (Z.of_nat r - nextRow)) data [])
             (Some (Z.of_nat c - 1))
    else getCell sh r c.
Proof.
  intros Hn Hall Hr Hc.
  induction entries as [|e entries IH] using rev_ind; [reflexivity|].
  apply Forall_app in Hall. destruct Hall as [Hall He].
  apply Forall_cons_iff in He. destruct He as [He _].
  unfold writeColumns. rewrite fold_left_app. cbn [fold_left].
  fold (writeColumns sh nextRow entries data).
  rewrite existsb_app. cbn [existsb]. rewrite orb_false_r.
  specialize (IH Hall).
  destruct (Z.eqb_spec (snd e) (-1)) as [E1|E1]; cbn [negb].
  - rewrite IH. destruct (Z.eqb_spec (snd e) (Z.of_nat c - 1)); [lia|].
    now rewrite orb_false_r.
  - rewrite getCell_writeColumn_gen by (assumption || lia). rewrite IH.
    destruct (Z.eqb_spec (snd e) (Z.of_nat c - 1)) as [E2|E2].
    + destruct (Z.eqb_spec (Z.of_nat c) (snd e + 1)); [|lia].
      rewrite orb_true_r. cbn [andb]. rewrite E2.
      destruct (nextRow <=? Z.of_nat r);
        destruct (Z.of_nat r <? nextRow + Z.of_nat (length data));
        rewrite ?andb_false_r, ?andb_true_r; cbn [andb]; reflexivity.
    + destruct (Z.eqb_spec (Z.of_nat c) (snd e + 1)); [lia|].
      cbn [andb]. now rewrite orb_false_r.
Qed.

Lemma length_writeColumn (sh : sheet) (nextRow col : Z)
    (data : list (list cell)) :
  1 <= nextRow ->
  length (writeColumn sh nextRow col data)
  = Nat.max (length sh)
      (if (0 <? length data)%nat
       then (Z.to_nat (nextRow - 1) + length data)%nat else 0%nat).
Proof.
  intros Hn. induction data as [|row data IH] using rev_ind.
  - cbn. lia.
  - unfold writeColumn. rewrite imap_snoc, fold_left_app.
    cbn [fold_left fst snd]. fold (writeColumn sh nextRow col data).
    rewrite length_writeCell, IH, length_app. cbn [length].
    destruct (Nat.ltb_spec 0 (length data));
      destruct (Nat.ltb_spec 0 (length data + 1)); lia.
Qed.

Lemma length_writeColumns (sh : sheet) (nextRow : Z)
    (entries : list (string * Z)) (data : list (list cell)) :
  1 <= nextRow ->
  length (writeColumns sh nextRow entries data)
  = Nat.max (length sh)
      (if existsb (fun e : string * Z => negb (snd e =? -1)) entries
          && (0 <? length data)%nat
       then (Z.to_nat (nextRow - 1) + length data)%nat else 0%nat).
Proof.
  intros Hn. induction entries as [|e entries IH] using rev_ind.
  - cbn. lia.
  - unfold writeColumns. rewrite fold_left_app. cbn [fold_left].
    fold (writeColumns sh nextRow entries data).
    rewrite existsb_app. cbn [existsb]. rewrite orb_false_r.
    destruct (negb (snd e =? -1)).
    + rewrite length_writeColumn, IH by exact Hn. rewrite orb_true_r.
      cbn [andb].
      destruct (existsb _ entries); cbn [andb];
        destruct (0 <? length data)%nat; lia.
    + rewrite IH. now rewrite orb_false_r.
Qed.

(** ** The rows of an invoice *)

Lemma invoiceDataOf_rows (ic : InvoiceColumns) (env : Env) (n : string)
    (payments : list (string * PaymentRecord)) (m : Z) :
  maxColumnIndex ic = Some m ->
  exists rows,
    invoiceDataOf ic env n payments = Ok rows
    /\ length rows = length payments
    /\ forall k kp,
         payments !! k = Some kp ->
         invoiceRowOf ic env n (snd kp) = Ok (nth k rows []).
Proof.
  intros Hm. induction payments as [|p payments IH].
  - exists []. cbn. repeat split. intros k kp H. discriminate.
  - destruct IH as (rows & Hrows & Hlen & Hnth).
    pose proof (invoiceRowOf_eq ic env n (snd p) m Hm) as Hrow.
    eexists (_ :: rows). cbn [invoiceDataOf]. rewrite Hrow, Hrows.
    split; [reflexivity|]. split; [cbn; now rewrite Hlen|].
    intros [|k] kp Hk; cbn in Hk.
    + injection Hk as <-. cbn [nth]. exact Hrow.
    + cbn [nth]. now apply Hnth.
Qed.

Lemma invoiceDataOf_no_column (ic : InvoiceColumns) (env : Env) (n : string)
    (payments : list (string * PaymentRecord)) :
  maxColumnIndex ic = None ->
  invoiceDataOf ic env n payments
  = match payments with
    | [] => Ok []
    | _ :: _ => Throw "RangeError: Invalid array length"
    end.
Proof.
  intros Hm. destruct payments as [|p payments]; [reflexivity|].
  cbn [invoiceDataOf]. unfold invoiceRowOf. now rewrite Hm.
Qed.

Lemma existsb_invoiceColumn (ic : InvoiceColumns) (c : Z) :
  existsb (fun e : string * Z => snd e =? c) (invoiceColumnEntries ic)
  = (colInvoiceNumber ic =? c) || (colDate ic =? c) || (colContractor ic =? c)
    || (colWorkDone ic =? c) || (colTotal ic =? c)
    || (colPlaybackLinks ic =? c).
Proof.
  unfold invoiceColumnEntries. cbn [existsb snd].
  now rewrite orb_false_r, !orb_assoc.
Qed.

Lemma invoiceRow_cells (headers : list cell) (env : Env) (n : string)
    (p : PaymentRecord) (row : list cell) :
  let ic := invoiceColumnsOf headers in
  invoiceRowOf ic env n p = Ok row ->
  (colInvoiceNumber ic <> -1 -> at_ row (Some (colInvoiceNumber ic)) = CStr n)
  /\ (colDate ic <> -1 -> at_ row (Some (colDate ic)) = timestamp env)
  /\ (colContractor ic <> -1 ->
      at_ row (Some (colContractor ic)) = legalName p)
  /\ (colWorkDone ic <> -1 ->
      at_ row (Some (colWorkDone ic))
      = CStr (workDoneSummaryOf (groupTasksByType (tasks p))))
  /\ (colTotal ic <> -1 ->
      at_ row (Some (colTotal ic)) = CNum (totalAmount p))
  /\ (colPlaybackLinks ic <> -1 ->
      at_ row (Some (colPlaybackLinks ic))
      = CStr (playbackLinksOf (groupTasksByType (tasks p)))).
Proof.
  intros ic Hrow.
  destruct (maxColumnIndex ic) as [m|] eqn:Hm.
  2:{ unfold invoiceRowOf in Hrow. rewrite Hm in Hrow. discriminate. }
  rewrite (invoiceRowOf_eq _ _ _ _ _ Hm) in Hrow. injection Hrow as <-.
  assert (Hd : forall a b, a <> b -> 0 <= indexOf (CStr b) headers ->
                 indexOf (CStr a) headers <> indexOf (CStr b) headers).
  { intros a b Hab Hb E. symmetry in E. apply indexOf_inj in E; [|exact Hb].
    congruence. }
  assert (Hr : forall a, -1 <= indexOf (CStr a) headers)
    by (intros a; apply indexOf_range).
  subst ic. unfold invoiceColumnsOf.
  cbn [colInvoiceNumber colDate colContractor colWorkDone colTotal
       colPlaybackLinks].
  repeat split; intros Hf;
    match goal with
    | |- at_ _ (Some (indexOf (CStr ?b) _)) = _ =>
        assert (H0 : 0 <= indexOf (CStr b) headers)
          by (specialize (Hr b); lia);
        repeat (rewrite at_assignIf_other;
                  [| apply Hr | exact H0 | apply Hd; [discriminate | exact H0]]);
        apply at_assignIf_same; exact H0
    end.
Qed.

(** ** Header row kept *)

Lemma sameHeader_refl (sh : sheet) : sameHeader sh sh.
Proof. split; [lia | split; reflexivity]. Qed.

Lemma sameHeader_trans (a b c : sheet) :
  sameHeader a b -> sameHeader b c -> sameHeader a c.
Proof.
  unfold sameHeader. intros (?&?&?) (?&?&?).
  split; [lia | split; congruence].
Qed.

Lemma sameHeader_writeCell (sh : sheet) (i j : nat) (v : cell) :
  (j < getLastColumn sh)%nat -> i <> 1%nat ->
  sameHeader sh (writeCell sh i j v).
Proof.
  intros Hj Hne. split; [|split].
  - rewrite length_writeCell. lia.
  - rewrite getLastColumn_writeCell. lia.
  - now apply nth_writeCell_other.
Qed.

Lemma headerValues_sameHeader (sh sh' : sheet) :
  sameHeader sh sh' -> headerValues sh' 2 = headerValues sh 2.
Proof.
  intros (Hlen & Hw & Hrow). unfold headerValues. cbn [Nat.sub].
  destruct (Nat.lt_ge_cases 1 (length sh)) as [H|H].
  - rewrite !(nth_indep _ (repeat blank _) [])
      by (unfold getValues; rewrite length_map; lia).
    rewrite !nth_getValues by lia. now rewrite Hw, Hrow.
  - rewrite (nth_overflow (getValues sh))
      by (unfold getValues; rewrite length_map; lia).
    destruct (Nat.lt_ge_cases 1 (length sh')) as [H'|H'].
    + rewrite (nth_indep _ (repeat blank _) [])
        by (unfold getValues; rewrite length_map; lia).
      rewrite nth_getValues by lia. rewrite Hw, Hrow.
      rewrite (nth_overflow sh) by lia. unfold padRow. cbn.
      now rewrite Nat.sub_0_r.
    + rewrite nth_overflow by (unfold getValues; rewrite length_map; lia).
      now rewrite Hw.
Qed.

Lemma sameHeader_writeColumn (sh : sheet) (nextRow col : Z)
    (data : list (list cell)) :
  3 <= nextRow -> 0 <= col < Z.of_nat (getLastColumn sh) ->
  sameHeader sh (writeColumn sh nextRow col data).
Proof.
  intros Hn Hcol. induction data as [|row data IH] using rev_ind.
  - apply sameHeader_refl.
  - unfold writeColumn. rewrite imap_snoc, fold_left_app.
    cbn [fold_left fst snd]. fold (writeColumn sh nextRow col data).
    eapply sameHeader_trans; [exact IH|].
    destruct IH as (_ & Hw & _).
    apply sameHeader_writeCell; [rewrite Hw|]; lia.
Qed.

Lemma sameHeader_writeColumns (sh : sheet) (nextRow : Z)
    (entries : list (string * Z)) (data : list (list cell)) :
  3 <= nextRow ->
  Forall (fun e : string * Z => -1 <= snd e < Z.of_nat (getLastColumn sh))
         entries ->
  sameHeader sh (writeColumns sh nextRow entries data).
Proof.
  intros Hn Hall. induction entries as [|e entries IH] using rev_ind.
  - apply sameHeader_refl.
  - apply Forall_app in Hall. destruct Hall as [Hall He].
    apply Forall_cons_iff in He. destruct He as [He _].
    unfold writeColumns. rewrite fold_left_app. cbn [fold_left].
    fold (writeColumns sh nextRow entries data).
    specialize (IH Hall).
    destruct (Z.eqb_spec (snd e) (-1)); cbn [negb]; [exact IH|].
    eapply sameHeader_trans; [exact IH|].
    destruct IH as (_ & Hw & _).
    apply sameHeader_writeColumn; [exact Hn | rewrite Hw; lia].
Qed.

Lemma invoiceColumnsOf_width (sh : sheet) :
  Forall (fun e : string * Z => -1 <= snd e < Z.of_nat (getLastColumn sh))
         (invoiceColumnEntries (invoiceColumnsOf (headerValues sh 2))).
Proof.
  unfold invoiceColumnEntries, invoiceColumnsOf. cbn.
  repeat constructor; cbn;
    match goal with
    | |- context [indexOf ?x ?l] =>
        pose proof (indexOf_range x l) as H;
        rewrite length_headerValues in H; lia
    end.
Qed.

(** ** Handlers *)

Lemma calculatePayments_nonempty cfg sm w ws :
  fst (calculatePayments (w :: ws) cfg sm) <> [].
Proof.
  pose proof (payments_ok_calculatePayments cfg sm (w :: ws)) as (_ & _ & Hcov).
  specialize (Hcov w (or_introl eq_refl)).
  intros E. rewrite E in Hcov. destruct Hcov.
Qed.

Lemma unpaid_rows_positive (sh : sheet) :
  Forall (fun it => 1 <= rowIndex it) (unpaidWork_spec sh).
Proof.
  pose proof (unpaid_rows_in_range sh) as Hr.
  rewrite List.Forall_forall in *. intros it Hit.
  specialize (Hr (rowIndex it) (in_map _ _ _ Hit)). cbn in Hr. lia.
Qed.

Lemma handleStatusRequest_run (w : World) :
  handleStatusRequest w
  = match master w with
    | Some sh => (Ok (StatusSuccess (length (unpaidWork_spec sh))), w)
    | None =>
        (Ok (StatusError
               "Error: MASTER sheet not found in work log spreadsheet"), w)
    end.
Proof.
  unfold handleStatusRequest, tryCatch, bind.
  rewrite getUnpaidWorkFromMaster_run. now destruct (master w).
Qed.

(** A second call of [createInvoice] finds the columns the first one
    found. *)
Lemma createInvoice_ok_again (env env' : Env)
    (payments : list (string * PaymentRecord)) (w : World)
    (res : InvoiceResult) (w1 : World) :
  createInvoice env payments w = (Ok res, w1) ->
  exists res' w2, createInvoice env' payments w1 = (Ok res', w2).
Proof.
  intros Hinv.
  destruct (invoicing w) as [sh|] eqn:Hw.
  2:{ unfold createInvoice, bind, getW in Hinv. rewrite Hw in Hinv.
      discriminate. }
  set (ic := invoiceColumnsOf (headerValues sh 2)) in *.
  destruct (maxColumnIndex ic) as [m|] eqn:Hm.
  - destruct (invoiceDataOf_rows ic env (invoiceNumberOf env) payments m Hm)
      as (data & Hdata & _).
    rewrite (createInvoice_run env payments w sh data Hw Hdata) in Hinv.
    injection Hinv as _ <-. fold ic.
    set (sh1 := if (0 <? length data)%nat
                then writeColumns sh (invoiceNextRow sh)
                       (invoiceColumnEntries ic) data
                else sh).
    assert (Hw1 : invoicing (if (0 <? length data)%nat
                             then withInvoicing w
                                    (writeColumns sh (invoiceNextRow sh)
                                       (invoiceColumnEntries ic) data)
                             else w) = Some sh1).
    { subst sh1. destruct (0 <? length data)%nat; [reflexivity | exact Hw]. }
    assert (Hh : headerValues sh1 2 = headerValues sh 2).
    { subst sh1. destruct (0 <? length data)%nat; [|reflexivity].
      apply headerValues_sameHeader, sameHeader_writeColumns;
        [apply invoiceNextRow_ge | apply invoiceColumnsOf_width]. }
    destruct (invoiceDataOf_rows ic env' (invoiceNumberOf env') payments m Hm)
      as (data' & Hdata' & _).
    eexists. eexists. apply (createInvoice_run env' payments _ sh1 data' Hw1).
    rewrite Hh. exact Hdata'.
  - assert (Hp : payments = []).
    { destruct payments as [|p ps]; [reflexivity|].
      unfold createInvoice, bind, getW, liftOutcome in Hinv.
      rewrite Hw in Hinv. cbv zeta in Hinv. fold ic in Hinv.
      rewrite invoiceDataOf_no_column in Hinv by exact Hm. discriminate. }
    subst payments.
    unfold createInvoice, bind, getW, liftOutcome in Hinv.
    rewrite Hw in Hinv. cbn in Hinv. injection Hinv as _ <-.
    unfold createInvoice, bind, getW, liftOutcome. rewrite Hw. cbn.
    eexists. eexists. reflexivity.
Qed.

Lemma doPost_createInvoicesAndMark_run (env : Env) (preview : cell) (w : World) :
  doPost env (CStr "createInvoicesAndMark") preview w
  = match calculateStaffPay w with
    | (Ok (CalcSuccess workLogData payments errors summary), w1) =>
        match createInvoicesAndMark env workLogData payments w1 with
        | (Ok r, w2) => (Ok (PostMark r summary), w2)
        | (Throw e, w2) => (Throw e, w2)
        end
    | (Ok CalcNoUnpaidWork, w1) => (Ok (PostCalc CalcNoUnpaidWork), w1)
    | (Ok (CalcError e), w1) => (Ok (PostCalc (CalcError e)), w1)
    | (Throw e, w1) => (Throw e, w1)
    end.
Proof.
  unfold doPost. cbn [strictEq].
  rewrite bool_decide_eq_false_2 by discriminate.
  rewrite bool_decide_eq_true_2 by reflexivity.
  unfold bind at 1.
  destruct (calculateStaffPay w) as [[[| items payments errors summary | e]|e] w1];
    reflexivity.
Qed.

(** ** PDF export *)

Lemma filteri_none {A} (p : A -> nat -> bool) (xs : list A) :
  (forall idx x, xs !! idx = Some x -> p x idx = false) ->
  filteri p xs = [].
Proof.
  intros H. unfold filteri.
  rewrite (filter_none _ (imap (fun idx x => (idx, x)) xs)); [reflexivity|].
  intros [idx x] Hin. cbn [fst snd].
  apply list_elem_of_In, elem_of_lookup_imap in Hin.
  destruct Hin as (i & y & [= -> ->] & Hl). now apply H.
Qed.

Lemma hd_skipn_getValues (sh : sheet) :
  (2 <= length sh)%nat ->
  hd [] (skipn 1 (getValues sh)) = headerValues sh 2.
Proof.
  intros Hlen. unfold headerValues. cbn [Nat.sub].
  assert (Hl : (2 <= length (getValues sh))%nat)
    by now rewrite length_getValues.
  destruct (getValues sh) as [|r0 [|r1 rest]]; cbn in Hl; try lia.
  reflexivity.
Qed.

Lemma exportColIndices_found (headers : list cell) :
  (forall col, In col exportColumns -> indexOf (CStr col) headers <> -1) ->
  filteri (fun (col : string) idx =>
             nth idx (map (fun col => indexOf (CStr col) headers) exportColumns)
                 0 =? -1)
          exportColumns = [].
Proof.
  intros Hfound. apply filteri_none. intros idx x Hx.
  do 8 (destruct idx as [|idx];
        [ injection Hx as <-; apply Z.eqb_neq, Hfound; cbn; tauto |]).
  discriminate.
Qed.

(** [exportInvoicesPDF] on a sheet that has the columns. *)
Lemma exportInvoicesPDF_run (toDateString : cell -> string)
    (notBeforeCutoff : option number -> cell -> bool) (env : Env)
    (invoiceNumber : cell) (daysBack : option number) (specificDate : cell)
    (w : World) (sh : sheet) :
  invoicing w = Some sh ->
  (2 < length sh)%nat ->
  exportable sh ->
  exportInvoicesPDF toDateString notBeforeCutoff env invoiceNumber daysBack
                    specificDate w
  = let rows :=
      List.filter
        (exportFilter toDateString notBeforeCutoff invoiceNumber daysBack
           specificDate
           (indexOf (CStr "Invoice Number") (headerValues sh 2))
           (indexOf (CStr "Date") (headerValues sh 2)))
        (invoiceDataRows sh) in
    if (length rows =? 0)%nat
    then ExportFailure "ReferenceError: dataRows is not defined"
    else
      ExportSuccess
        (if truthy invoiceNumber
         then "Invoice_" +:+ toStr invoiceNumber +:+ "_" +:+ dateStr env
              +:+ ".pdf"
         else "Invoices_Recent_" +:+ dateStr env +:+ ".pdf")
        (map CStr exportColumns :: map (exportRowOf (headerValues sh 2)) rows)
        (length rows).
Proof.
  intros Hw Hlen (Hcols & Hnum). unfold exportInvoicesPDF. rewrite Hw.
  cbv zeta. unfold getLastRow.
  destruct (Nat.leb_spec (length sh) 2); [lia|].
  cbn [Nat.sub]. rewrite hd_skipn_getValues by lia.
  rewrite exportColIndices_found by exact Hcols. cbn [length Nat.ltb Nat.leb].
  destruct (Z.eqb_spec (indexOf (CStr "Invoice Number") (headerValues sh 2))
              (-1)); [contradiction|].
  fold (invoiceDataRows sh). rewrite !length_map. reflexivity.
Qed.

Lemma skipn_seq_nth {A} (d : A) (k : nat) (l : list A) :
  skipn k l = map (fun i => nth i l d) (seq k (length l - k)).
Proof.
  revert k. induction l as [|x l IH]; intros k.
  - now rewrite skipn_nil.
  - destruct k as [|k].
    + cbn [skipn length Nat.sub seq map nth]. f_equal.
      rewrite <- seq_shift, map_map. cbn [nth].
      specialize (IH 0%nat). cbn [skipn] in IH. rewrite Nat.sub_0_r in IH.
      exact IH.
    + cbn [skipn length Nat.sub]. rewrite IH.
      rewrite <- (seq_shift _ k), map_map. reflexivity.
Qed.

Lemma invoiceDataRows_seq (sh : sheet) :
  invoiceDataRows sh
  = map (fun r => nth (r - 1) (getValues sh) []) (invoiceRowNumbers sh).
Proof.
  unfold invoiceDataRows, invoiceRowNumbers.
  replace (tl (skipn 1 (getValues sh))) with (skipn 2 (getValues sh))
    by (destruct (getValues sh) as [|? [|? ?]]; reflexivity).
  rewrite (skipn_seq_nth [] 2), length_getValues.
  rewrite <- (seq_shift _ 2), map_map. apply map_ext. intros i.
  now rewrite Nat.sub_1_r.
Qed.

Lemma at_getValues (sh : sheet) (r : nat) (col : string) :
  (1 <= r <= length sh)%nat ->
  indexOf (CStr col) (headerValues sh 2) <> -1 ->
  at_ (nth (r - 1) (getValues sh) [])
      (Some (indexOf (CStr col) (headerValues sh 2)))
  = invoiceCell sh r col.
Proof.
  intros Hr Hfound.
  pose proof (indexOf_range (CStr col) (headerValues sh 2)) as Hrange.
  rewrite length_headerValues in Hrange.
  fold (readCell sh (r - 1) (indexOf (CStr col) (headerValues sh 2))).
  rewrite readCell_getCell by lia.
  destruct (Z.leb_spec 0 (indexOf (CStr col) (headerValues sh 2))); [|lia].
  destruct (Z.ltb_spec (indexOf (CStr col) (headerValues sh 2))
              (Z.of_nat (getLastColumn sh))); [|lia].
  cbn [andb]. unfold invoiceCell. f_equal; lia.
Qed.

Lemma exportRowOf_sheet (sh : sheet) (r : nat) :
  (1 <= r <= length sh)%nat ->
  (forall col, In col exportColumns ->
     indexOf (CStr col) (headerValues sh 2) <> -1) ->
  exportRowOf (headerValues sh 2) (nth (r - 1) (getValues sh) [])
  = sheetExportRow sh r.
Proof.
  intros Hr Hcols. unfold exportRowOf, sheetExportRow, exportColumns.
  cbn [map imap compose].
  rewrite !at_getValues by (try exact Hr; apply Hcols; cbn; tauto).
  assert (Hacc : indexOf (CStr "ACC NUMBER") (map CStr exportColumns) = 5)
    by (vm_compute; reflexivity).
  unfold exportCell. cbv zeta. rewrite Hacc.
  change (Z.of_nat 0 =? 5) with false. change (Z.of_nat 1 =? 5) with false.
  change (Z.of_nat 2 =? 5) with false. change (Z.of_nat 3 =? 5) with false.
  change (Z.of_nat 4 =? 5) with false. change (Z.of_nat 5 =? 5) with true.
  change (Z.of_nat 6 =? 5) with false. change (Z.of_nat 7 =? 5) with false.
  cbv iota. now destruct (invoiceCell sh r "ACC NUMBER").
Qed.

Lemma In_invoiceRowNumbers (sh : sheet) (r : nat) :
  In r (invoiceRowNumbers sh) <-> (3 <= r <= length sh)%nat.
Proof. unfold invoiceRowNumbers. rewrite List.in_seq. lia. Qed.

Lemma filter_map_comm {A B} (f : A -> B) (p : B -> bool) (l : list A) :
  List.filter p (map f l) = map f (List.filter (fun x => p (f x)) l).
Proof.
  induction l as [|x l IH]; cbn; [reflexivity|].
  destruct (p (f x)); cbn; now rewrite IH.
Qed.

Lemma filter_ext_in_list {A} (p q : A -> bool) (l : list A) :
  (forall x, In x l -> p x = q x) -> List.filter p l = List.filter q l.
Proof.
  induction l as [|x l IH]; intros H; cbn; [reflexivity|].
  rewrite (H x (or_introl eq_refl)), IH; [reflexivity|].
  intros y Hy. apply H. now right.
Qed.

(** ** The Invoicing sheet after [createInvoice], by column name *)

Lemma createInvoice_sheet (env : Env) (payments : list (string * PaymentRecord))
    (w : World) (sh : sheet) :
  invoicing w = Some sh ->
  indexOf (CStr "Invoice Number") (headerValues sh 2) <> -1 ->
  payments <> [] ->
  exists sh1,
    createInvoice env payments w
    = (Ok {| invoiceNumber := invoiceNumberOf env;
             invoiceDate := timestamp env;
             rowsCreated := length payments |},
       withInvoicing w sh1)
    /\ headerValues sh1 2 = headerValues sh 2
    /\ Z.of_nat (length sh1) = invoiceNextRow sh + Z.of_nat (length payments) - 1
    /\ forall (k : nat) kp,
         payments !! k = Some kp ->
         let r := Z.to_nat (invoiceNextRow sh + Z.of_nat k) in
         let found col := indexOf (CStr col) (headerValues sh 2) <> -1 in
         invoiceCell sh1 r "Invoice Number" = CStr (invoiceNumberOf env)
         /\ (found "Date" -> invoiceCell sh1 r "Date" = timestamp env)
         /\ (found "Contractor" ->
             invoiceCell sh1 r "Contractor" = legalName (snd kp))
         /\ (found "Work done" ->
             invoiceCell sh1 r "Work done"
             = CStr (workDoneSummaryOf (groupTasksByType (tasks (snd kp)))))
         /\ (found "Total" ->
             invoiceCell sh1 r "Total" = CNum (totalAmount (snd kp)))
         /\ (found "Playback Links" ->
             invoiceCell sh1 r "Playback Links"
             = CStr (playbackLinksOf (groupTasksByType (tasks (snd kp))))).
Proof.
  intros Hw Hfound Hne.
  set (ic := invoiceColumnsOf (headerValues sh 2)).
  assert (Hfound' : colInvoiceNumber ic <> -1) by exact Hfound.
  destruct (maxColumnIndex_found ic Hfound') as [m Hm].
  destruct (invoiceDataOf_rows ic env (invoiceNumberOf env) payments m Hm)
    as (data & Hdata & Hlen & Hrows).
  pose proof (createInvoice_run env payments w sh data Hw Hdata) as Hrun.
  fold ic in Hrun. rewrite Hlen in Hrun.
  pose proof (invoiceNextRow_ge sh) as Hn.
  assert (Hpos : (0 < length payments)%nat)
    by (destruct payments; [contradiction | cbn; lia]).
  destruct (Nat.ltb_spec 0 (length payments)); [|lia].
  set (sh1 := writeColumns sh (invoiceNextRow sh) (invoiceColumnEntries ic) data)
    in *.
  assert (Hh : headerValues sh1 2 = headerValues sh 2).
  { apply headerValues_sameHeader, sameHeader_writeColumns; [exact Hn|].
    apply invoiceColumnsOf_width. }
  exists sh1. split; [exact Hrun|]. split; [exact Hh|]. split.
  - subst sh1. rewrite length_writeColumns by lia.
    assert (Hex : existsb (fun e : string * Z => negb (snd e =? -1))
                          (invoiceColumnEntries ic) = true).
    { unfold invoiceColumnEntries. cbn [existsb snd].
      destruct (Z.eqb_spec (colInvoiceNumber ic) (-1)); [contradiction|].
      reflexivity. }
    rewrite Hex, Hlen. destruct (Nat.ltb_spec 0 (length payments)); [|lia].
    cbn [andb]. unfold invoiceNextRow, getLastRow in *.
    destruct (Nat.ltb_spec 2 (length sh)); lia.
  - intros k kp Hk r found.
    assert (Hlt : (k < length payments)%nat)
      by (apply lookup_lt_is_Some; eauto).
    assert (Hcell : forall col,
              0 <= col ->
              existsb (fun e : string * Z => snd e =? col)
                      (invoiceColumnEntries ic) = true ->
              getCell sh1 r (Z.to_nat (col + 1))
              = at_ (nth k data []) (Some col)).
    { intros col Hcol Hex. subst sh1.
      rewrite getCell_writeColumns_gen;
        [| lia | apply invoiceColumnsOf_range | subst r; lia | lia].
      replace (Z.of_nat (Z.to_nat (col + 1)) - 1) with col by lia.
      rewrite Hex, Hlen. subst r.
      destruct (Z.leb_spec (invoiceNextRow sh)
                  (Z.of_nat (Z.to_nat (invoiceNextRow sh + Z.of_nat k))));
        [|lia].
      destruct (Z.ltb_spec
                  (Z.of_nat (Z.to_nat (invoiceNextRow sh + Z.of_nat k)))
                  (invoiceNextRow sh + Z.of_nat (length payments))); [|lia].
      cbn [andb]. do 2 f_equal. lia. }
    pose proof (invoiceRow_cells (headerValues sh 2) env (invoiceNumberOf env)
                  (snd kp) (nth k data []) (Hrows k kp Hk))
      as (H1 & H2 & H3 & H4 & H5 & H6).
    pose proof (invoiceColumnsOf_range (headerValues sh 2)) as Hr.
    unfold invoiceColumnEntries in Hr.
    repeat (apply Forall_cons_iff in Hr; destruct Hr as [? Hr]).
    cbn [snd invoiceColumnsOf colInvoiceNumber colDate colContractor
         colWorkDone colTotal colPlaybackLinks] in *.
    unfold invoiceCell. rewrite Hh. subst found. cbv beta.
    split; [|repeat split; intros Hf].
    all: rewrite Hcell;
      [ auto
      | lia
      | rewrite existsb_invoiceColumn; subst ic;
        cbn [invoiceColumnsOf colInvoiceNumber colDate colContractor
             colWorkDone colTotal colPlaybackLinks];
        rewrite Z.eqb_refl, ?orb_true_r; reflexivity ].
Qed.

Lemma filteri_filter {A} (p : A -> nat -> bool) (q : A -> bool) (xs : list A) :
  (forall idx x, xs !! idx = Some x -> p x idx = q x) ->
  filteri p xs = List.filter q xs.
Proof.
  unfold filteri.
  assert (H : forall (k : nat),
             (forall idx x, xs !! idx = Some x -> p x (k + idx)%nat = q x) ->
             map snd (List.filter (fun e : nat * A => p (snd e) (fst e))
                        (imap (fun idx x => ((k + idx)%nat, x)) xs))
             = List.filter q xs).
  { induction xs as [|x xs IH]; intros k Hpq; [reflexivity|].
    cbn [imap List.filter fst snd].
    rewrite (Hpq 0%nat x eq_refl).
    assert (Hrest :
      map snd (List.filter (fun e : nat * A => p (snd e) (fst e))
                 (imap ((fun idx x0 => ((k + idx)%nat, x0)) ∘ S) xs))
      = List.filter q xs).
    { rewrite (imap_ext _ (fun idx x0 => ((S k + idx)%nat, x0)));
        [|intros i y _; cbn; f_equal; lia].
      apply IH. intros idx y Hy.
      replace (S k + idx)%nat with (k + S idx)%nat by lia.
      now apply Hpq. }
    destruct (q x); cbn [map snd]; now rewrite Hrest. }
  intros Hpq. apply (H 0%nat). exact Hpq.
Qed.

Lemma missingColumns_filter (headers : list cell) :
  filteri (fun (col : string) idx =>
             nth idx (map (fun col => indexOf (CStr col) headers) exportColumns)
                 0 =? -1)
          exportColumns
  = List.filter (fun col => indexOf (CStr col) headers =? -1) exportColumns.
Proof.
  apply filteri_filter. intros idx x Hx.
  do 8 (destruct idx as [|idx]; [injection Hx as <-; reflexivity|]).
  discriminate.
Qed.

(** ** The payment summary *)

Lemma filter_cover {A} (a b c : A -> bool) (l : list A) :
  (forall t, In t l -> a t || b t || c t = true) ->
  (forall t, In t l -> a t && b t = false) ->
  (length (List.filter a l) + length (List.filter b l) <= length l
   <= length (List.filter a l) + length (List.filter b l)
      + length (List.filter c l))%nat.
Proof.
  induction l as [|t l IH]; intros Hcov Hdis; [cbn; lia|].
  specialize (IH (fun t' H => Hcov t' (or_intror H))
                 (fun t' H => Hdis t' (or_intror H))).
  specialize (Hcov t (or_introl eq_refl)).
  specialize (Hdis t (or_introl eq_refl)).
  cbn [List.filter length].
  destruct (a t), (b t), (c t); cbn [length] in *; try discriminate; lia.
Qed.

Lemma taskOf_source cfg w :
  let t := taskOf cfg w in
  (String.eqb (rateSource t) "custom" || String.eqb (rateSource t) "default"
   || negb (hasValidRate t) = true)
  /\ String.eqb (rateSource t) "custom" && String.eqb (rateSource t) "default"
     = false.
Proof.
  unfold taskOf, resolveRate.
  destruct (cfg !! toStr (taskType w)) as [entry|]; [|split; reflexivity].
  destruct (customRates entry !! toStr (staffName w)) as [r|];
    [destruct (num_truthy r)|]; split; reflexivity.
Qed.

Lemma paymentSummaryLoop_total (formatCurrency : number -> string)
    (payments : list (string * PaymentRecord)) :
  snd (paymentSummaryLoop formatCurrency payments) = grandTotalOf payments.
Proof.
  unfold paymentSummaryLoop, grandTotalOf.
  generalize ("Payment Summary:" +:+ newline +:+ newline) (Num 0).
  induction payments as [|e payments IH]; intros s n; [reflexivity|].
  cbn [fold_left fst snd]. apply IH.
Qed.

(** ** Decimal numerals *)

Lemma pretty_N_go_head (x : N) (s : string) :
  (0 < x)%N ->
  exists c r, c <> "0"%char /\ pretty_N_go x s = String c r.
Proof.
  revert s. induction (N.lt_wf_0 x) as [x _ IH]. intros s Hx.
  rewrite pretty_N_go_step by exact Hx.
  assert (Hcases : (x < 10 \/ 10 <= x)%N) by lia.
  destruct Hcases as [Hlt|Hge].
  - rewrite N.div_small by exact Hlt. rewrite pretty_N_go_0.
    rewrite N.mod_small by exact Hlt.
    exists (pretty_N_char x), s. split; [|reflexivity].
    assert (Hx9 : (x = 1 \/ x = 2 \/ x = 3 \/ x = 4 \/ x = 5 \/ x = 6
                   \/ x = 7 \/ x = 8 \/ x = 9)%N) by lia.
    destruct Hx9 as [->|[->|[->|[->|[->|[->|[->|[->| ->]]]]]]]];
      cbn; discriminate.
  - apply IH.
    + apply N.div_lt; lia.
    + apply N.div_str_pos. lia.
Qed.

Lemma pretty_Z_head (z : Z) :
  0 < z -> exists c r, c <> "0"%char /\ pretty z = String c r.
Proof.
  intros Hz. destruct z as [|p|p]; try lia.
  unfold pretty, pretty_Z, pretty, pretty_positive, pretty, pretty_N.
  destruct (decide (N.pos p = 0%N)) as [E|_]; [discriminate|].
  apply pretty_N_go_head. lia.
Qed.

Lemma padStart3_inj (s t : string) :
  (exists c r, c <> "0"%char /\ s = String c r) ->
  (exists c r, c <> "0"%char /\ t = String c r) ->
  padStart3 s = padStart3 t -> s = t.
Proof.
  intros (c & r & Hc & ->) (d & r' & Hd & ->).
  destruct r as [|c2 [|c3 r]]; destruct r' as [|d2 [|d3 r']];
    cbn; intros H; try (injection H; intros; subst; congruence).
Qed.

Lemma append_inv_head (p s t : string) : p +:+ s = p +:+ t -> s = t.
Proof.
  induction p as [|a p IH]; cbn; [tauto|]. intros [= H]. now apply IH.
Qed.

(** ** The test of the preview *)

Lemma testPreview_run (w : World) :
  testPreview w
  = (match fst (calculateStaffPay w) with
     | Ok r => Ok (testOfCalc r)
     | Throw e => Throw e
     end, w).
Proof.
  rewrite calculateStaffPay_run.
  unfold testPreview. open_handler w. reflexivity.
Qed.

(** ** A loop that stops *)

Lemma forEachM_app {A} (f : A -> M unit) (l1 l2 : list A) (w : World) :
  forEachM f (l1 ++ l2) w
  = match forEachM f l1 w with
    | (Ok _, w1) => forEachM f l2 w1
    | (Throw e, w1) => (Throw e, w1)
    end.
Proof.
  revert w. induction l1 as [|x l1 IH]; intros w; [reflexivity|].
  cbn [app forEachM]. unfold bind.
  destruct (f x w) as [[[]|e] w1]; [apply IH | reflexivity].
Qed.

(** The commit handler always answers. *)
Lemma handleCalculatePayRequest_answers (env : Env) (w : World) :
  exists resp w', handleCalculatePayRequest env w = (Ok resp, w').
Proof.
  rewrite handleCalculatePayRequest_run.
  destruct (master w) as [sh|]; [|eauto]. cbv zeta.
  destruct (length (unpaidWork_spec sh) =? 0)%nat; [eauto|].
  destruct (payConfigSheet w) as [prows|]; [|eauto].
  destruct (staffSheet w) as [srows|]; [|eauto].
  destruct (createInvoice env _ w) as [[r|e] w1]; [|eauto].
  destruct (markWorkAsInvoiced _ w1) as [[[]|e] w2]; eauto.
Qed.

(** A branch of the GET endpoint that reads only. *)
Ltac read_only_branch Hprev Hstat :=
  unfold bind, getW, ret; rewrite ?Hprev, ?Hstat; cbn [fst snd];
  split; [eauto | split; [reflexivity | intros; contradiction]].

(** ** Column indices *)


(** * The properties of the specification *)









(** C3. Committing twice is idempotent.  When a first run of the commit
    handler succeeds, it has written "Invoiced" in the Paid cell of every
    item it selected; on the state it leaves, the selector finds no
    eligible item, and a second run answers "No unpaid work found" and
    changes no sheet: neither the ledger nor the Invoicing sheet. *)
Theorem commit_twice_is_idempotent
    (env env' : Env) (w w1 : World) (s : Summary) (e : Errors) :
  handleCalculatePayRequest env w = (Ok (CommitSuccess s e), w1) ->
  (exists sh sh1,
      master w = Some sh /\ master w1 = Some sh1
      /\ sh1 = markRows sh (map rowIndex (unpaidWork_spec sh)) (paidColumn sh)
      /\ forall it, In it (unpaidWork_spec sh) ->
           getCell sh1 (Z.to_nat (rowIndex it)) (Z.to_nat (paidColumn sh))
           = CStr "Invoiced")
  /\ getUnpaidWorkFromMaster w1 = (Ok [], w1)
  /\ handleCalculatePayRequest env' w1 = (Ok CommitNoUnpaidWork, w1).
Proof.
  intros H. rewrite handleCalculatePayRequest_run in H.
  destruct (master w) as [sh|] eqn:Hm; [|discriminate]. cbv zeta in H.
  destruct (length (unpaidWork_spec sh) =? 0)%nat; [discriminate|].
  destruct (payConfigSheet w) as [prows|]; [|discriminate].
  destruct (staffSheet w) as [srows|]; [|discriminate].
  pose proof (createInvoice_frame env
                (fst (calculatePayments (unpaidWork_spec sh)
                        (payConfigOfRows prows) (staffMappingOfRows srows))) w)
    as (Hm1 & _).
  destruct (createInvoice env _ w) as [[r|err] w0]; [|discriminate].
  cbn [snd] in Hm1. rewrite Hm in Hm1.
  assert (Hrows : Forall (fun it => 1 <= rowIndex it) (unpaidWork_spec sh)).
  { pose proof (unpaid_rows_in_range sh) as Hr.
    rewrite List.Forall_forall in *. intros it Hit.
    specialize (Hr (rowIndex it) (in_map _ _ _ Hit)). cbn in Hr. lia. }
  rewrite (markWorkAsInvoiced_run _ w0 sh Hm1 Hrows) in H.
  destruct (Z.eqb_spec (indexOf (CStr "Paid") (headerValues sh 2)) (-1))
    as [E|E]; [discriminate|].
  injection H as _ _ <-.
  assert (Hpaid : 0 <= indexOf (CStr "Paid") (headerValues sh 2)).
  { pose proof (indexOf_range (CStr "Paid") (headerValues sh 2)). lia. }
  pose proof (no_unpaid_after_mark sh Hpaid) as Hnone.
  set (sh1 := markRows sh (map rowIndex (unpaidWork_spec sh)) (paidColumn sh))
    in *.
  split; [|split].
  - exists sh, sh1. repeat split.
    intros it Hit. subst sh1.
    pose proof (paidColumn_in_range sh Hpaid) as Hc.
    rewrite List.Forall_forall in Hrows. pose proof (Hrows it Hit) as Hr.
    rewrite getCell_markRows; try lia.
    + rewrite Z2Nat.id by lia. rewrite Z.eqb_refl. cbn [andb].
      replace (existsb _ _) with true; [reflexivity|].
      symmetry. apply existsb_exists. exists (rowIndex it).
      split; [now apply in_map|]. apply Z.eqb_eq. lia.
    + apply List.Forall_forall. intros x Hx. apply in_map_iff in Hx.
      destruct Hx as (it' & <- & Hit'). now apply Hrows.
  - rewrite getUnpaidWorkFromMaster_run. cbn [withMaster master].
    now rewrite Hnone.
  - rewrite handleCalculatePayRequest_run. cbn [withMaster master].
    cbv zeta. now rewrite Hnone.
Qed.

Lemma commit_twice_is_idempotent_witness :
  let w1 := snd (handleCalculatePayRequest Sample.env Sample.world) in
  fst (handleCalculatePayRequest Sample.env Sample.world)
  = Ok (CommitSuccess
          {| totalTasks := 1; totalStaff := 1; grandTotal := Num 100000 |}
          noErrors)
  /\ handleCalculatePayRequest Sample.env w1 = (Ok CommitNoUnpaidWork, w1).
Proof.
  assert (E : exists w1,
             handleCalculatePayRequest Sample.env Sample.world
             = (Ok (CommitSuccess
                      {| totalTasks := 1; totalStaff := 1;
                         grandTotal := Num 100000 |} noErrors), w1))
    by (eexists; vm_compute; reflexivity).
  destruct E as (w1 & E). rewrite E. cbn [fst snd].
  split; [reflexivity|].
  apply (commit_twice_is_idempotent Sample.env Sample.env _ _ _ _ E).
Defined.




(** C5. In the commit path the ledger is written only after the invoice
    batch has been created.  When [createInvoice] throws, both
    [createInvoicesAndMark] and the commit handler answer with the error
    and stop in the very state [createInvoice] left: [markWorkAsInvoiced]
    has not run, and the ledger is the one the run started from, no paid
    value changed. *)
Theorem invoice_failure_leaves_ledger_untouched
    (env : Env) (w w1 : World) (payments : list (string * PaymentRecord))
    (e : string) :
  createInvoice env payments w = (Throw e, w1) ->
  master w1 = master w
  /\ (forall items,
        items <> [] -> payments <> [] ->
        createInvoicesAndMark env items payments w = (Ok (MarkError e), w1))
  /\ (forall sh prows srows,
        master w = Some sh ->
        payConfigSheet w = Some prows ->
        staffSheet w = Some srows ->
        unpaidWork_spec sh <> [] ->
        payments = fst (calculatePayments (unpaidWork_spec sh)
                          (payConfigOfRows prows) (staffMappingOfRows srows)) ->
        handleCalculatePayRequest env w = (Ok (CommitError e), w1)).
Proof.
  intros Hthrow.
  pose proof (createInvoice_frame env payments w) as (Hm & _).
  rewrite Hthrow in Hm. cbn [snd] in Hm.
  split; [exact Hm | split].
  - intros items Hi Hp. rewrite createInvoicesAndMark_run.
    destruct items; [contradiction|]. destruct payments; [contradiction|].
    cbn [length Nat.eqb]. now rewrite Hthrow.
  - intros sh prows srows Hsh Hpc Hss Hne ->.
    rewrite handleCalculatePayRequest_run, Hsh, Hpc, Hss. cbv zeta.
    destruct (unpaidWork_spec sh); [contradiction|].
    cbn [length Nat.eqb]. now rewrite Hthrow.
Qed.

Lemma invoice_failure_leaves_ledger_untouched_witness :
  handleCalculatePayRequest Sample.env Sample.worldNoInvoicing
  = (Ok (CommitError "Error: Invoicing sheet not found"),
     Sample.worldNoInvoicing).
Proof.
  assert (H : createInvoice Sample.env
                (fst (calculatePayments (unpaidWork_spec Sample.ledger)
                        (payConfigOfRows Sample.payRows)
                        (staffMappingOfRows Sample.staffRows)))
                Sample.worldNoInvoicing
              = (Throw "Error: Invoicing sheet not found",
                 Sample.worldNoInvoicing))
    by reflexivity.
  destruct (invoice_failure_leaves_ledger_untouched _ _ _ _ _ H)
    as (_ & _ & Hcommit).
  apply (Hcommit Sample.ledger Sample.payRows Sample.staffRows);
    try reflexivity.
  vm_compute. discriminate.
Defined.



(** The earlier [createInvoices] numbered row by row: its first two rows
    do not share an invoice number. *)
Lemma legacy_createInvoices_numbers_each_row :
  Legacy.invoiceNumberOfRow Sample.env 0 = "INV-20250720-001"
  /\ Legacy.invoiceNumberOfRow Sample.env 1 = "INV-20250720-002".
Proof. split; vm_compute; reflexivity. Qed.

(** C10, as the code has it.  On the same spreadsheets the preview and
    [calculateStaffPay] end alike, with no unpaid work, with the same
    error, or with the same summary and errors, and neither changes a
    sheet.  The payments of the preview are not the payments object of the
    calculation but a projection of it, [previewPaymentsOf]: the same
    legal names in the same order, and for each record its staff key and
    legal name as strings, [hasMapping], [totalAmount] (0 when it is not a
    number), a [taskCount] that is the number of its tasks, and its tasks
    in order, each without [playbackLink] and [doneDate]. *)
Theorem preview_is_projection_of_calculation (w : World) :
  handleCalculatePayPreviewRequest w
  = (match fst (calculateStaffPay w) with
     | Ok r => Ok (previewOfCalc r)
     | Throw e => Throw e
     end, snd (calculateStaffPay w))
  /\ snd (calculateStaffPay w) = w
  /\ (forall payments : list (string * PaymentRecord),
        map fst (previewPaymentsOf payments) = map fst payments
        /\ forall k p, In (k, p) payments ->
             In (k, previewPaymentOf p) (previewPaymentsOf payments)
             /\ pp_taskCount (previewPaymentOf p) = length (tasks p)
             /\ pp_hasMapping (previewPaymentOf p) = hasMapping p
             /\ pp_totalAmount (previewPaymentOf p)
                = numberOrZero (totalAmount p)
             /\ map pt_rowIndex (pp_tasks (previewPaymentOf p))
                = map (fun t => rowIndex (work t)) (tasks p)
             /\ map pt_rate (pp_tasks (previewPaymentOf p))
                = map (fun t => numberOrZero (rate t)) (tasks p)).
Proof.
  split; [|split].
  - rewrite handleCalculatePayPreviewRequest_run, calculateStaffPay_run.
    destruct (master w) as [sh|]; [|reflexivity]. cbv zeta.
    destruct (length (unpaidWork_spec sh) =? 0)%nat; [reflexivity|].
    destruct (payConfigSheet w); [|reflexivity].
    destruct (staffSheet w); reflexivity.
  - rewrite calculateStaffPay_run.
    destruct (master w) as [sh|]; [|reflexivity]. cbv zeta.
    destruct (length (unpaidWork_spec sh) =? 0)%nat; [reflexivity|].
    destruct (payConfigSheet w); [|reflexivity].
    destruct (staffSheet w); reflexivity.
  - intros payments. split.
    + unfold previewPaymentsOf. rewrite map_map. reflexivity.
    + intros k p Hin. split.
      * unfold previewPaymentsOf. apply in_map_iff. now exists (k, p).
      * unfold previewPaymentOf. cbn. rewrite !map_map. auto.
Qed.

(** C10, as the claim states it, fails: on the sample spreadsheets the
    payments of the preview and the payments of [calculateStaffPay] are
    not deep-equal; the preview record has a [taskCount] the other lacks
    and its tasks have no [playbackLink]. *)
Lemma preview_payments_not_deep_equal :
  exists items payments errors summary previewPayments,
    calculateStaffPay Sample.world
    = (Ok (CalcSuccess items payments errors summary), Sample.world)
    /\ handleCalculatePayPreviewRequest Sample.world
       = (Ok (PreviewSuccess summary errors previewPayments), Sample.world)
    /\ deepEqual (js_of_previewPayments previewPayments)
                 (js_of_payments payments) = false
    /\ deepEqual (js_of_payments payments)
                 (js_of_previewPayments previewPayments) = false
    /\ js_of_previewPayments previewPayments <> js_of_payments payments.
Proof.
  do 5 eexists. split; [vm_compute; reflexivity|].
  split; [vm_compute; reflexivity|].
  split; [vm_compute; reflexivity|].
  split; [vm_compute; reflexivity|].
  vm_compute. discriminate.
Qed.

(** * Further properties of the code *)


(** X2. Every item the selector returns is read from one eligible row of
    the ledger: its fields are the cells of that row under the first
    header cells "Assign", "STATS LEVEL", "LEAGUE", "Round", "Team 1",
    "Team 2", "Playback Link" and "Done Date", and a field whose header
    the sheet lacks is [undefined]. *)
Theorem selectUnpaid_item_fields (sh : sheet) :
  let hs := headerValues sh 2 in
  selectUnpaid sh
  = map (fun i =>
           {| rowIndex := Z.of_nat i + 1;
              staffName := readCell sh i (indexOf (CStr "Assign") hs);
              taskType := readCell sh i (indexOf (CStr "STATS LEVEL") hs);
              league := readCell sh i (indexOf (CStr "LEAGUE") hs);
              round := readCell sh i (indexOf (CStr "Round") hs);
              team1 := readCell sh i (indexOf (CStr "Team 1") hs);
              team2 := readCell sh i (indexOf (CStr "Team 2") hs);
              playbackLink := readCell sh i (indexOf (CStr "Playback Link") hs);
              doneDate := readCell sh i (indexOf (CStr "Done Date") hs) |})
        (List.filter (eligible_spec sh) (ledgerRowIndices sh))
  /\ (forall i name, ~ In (CStr name) hs ->
                     readCell sh i (indexOf (CStr name) hs) = CUndefined).
Proof.
  intros hs. split.
  - rewrite selectUnpaid_spec. unfold unpaidWork_spec.
    apply map_ext. intros i. unfold workItemOf.
    rewrite !masterCols_name
      by (unfold masterFieldNames; cbn [In]; tauto).
    reflexivity.
  - intros i name Hnot.
    assert (E : indexOf (CStr name) hs = -1).
    { pose proof (indexOf_range (CStr name) hs) as Hr.
      destruct (Z.eq_dec (indexOf (CStr name) hs) (-1)) as [E|E]; [exact E|].
      exfalso. apply Hnot. rewrite <- (indexOf_nth (CStr name) hs) by lia.
      apply nth_In. lia. }
    rewrite E. reflexivity.
Qed.


(** X4. In the rate table of [getPayConfiguration] the custom rate of a
    staff key for a task type is the custom rate of the last row of Pay
    Config that sets one, a row of that type and staff name whose staff
    name and custom rate are truthy; a later row of the pair with a blank,
    zero or unparsable custom rate does not remove it.  There is no custom
    rate when no row sets one. *)
Theorem payConfig_custom_rate_of_last_row
    (rows : list PayConfigRow) (k s : string) (e : RateEntry) :
  payConfigOfRows rows !! k = Some e ->
  (customRates e !! s = None
   <-> forall r, In r rows -> setsCustomRate k s r = false)
  /\ (forall c,
        customRates e !! s = Some c ->
        exists before r after,
          rows = before ++ r :: after
          /\ setsCustomRate k s r = true
          /\ pc_customRate r = Some c
          /\ forall r', In r' after -> setsCustomRate k s r' = false).
Proof.
  intros He. pose proof (payConfigOfRows_lookup rows k) as H.
  rewrite He in H. destruct H as (_ & _ & _ & Hc). specialize (Hc s).
  split.
  - rewrite Hc.
    destruct (find (setsCustomRate k s) (rev rows)) as [r|] eqn:Ef.
    + pose proof Ef as Ef'. apply find_some in Ef'. destruct Ef' as [Hin Hs].
      apply in_rev in Hin. split.
      * intros Hnone. exfalso. unfold setsCustomRate in Hs.
        rewrite Hnone, andb_false_r in Hs. discriminate.
      * intros Hall. rewrite (Hall r Hin) in Hs. discriminate.
    + split; [|reflexivity]. intros _. now apply find_rev_none_iff.
  - intros c Hsome. rewrite Hc in Hsome.
    destruct (find (setsCustomRate k s) (rev rows)) as [r|] eqn:Ef;
      [|discriminate].
    apply find_last_split in Ef. destruct Ef as (l1 & l2 & -> & Hs & Hl2).
    exists l1, r, l2. auto.
Qed.

Lemma payConfig_custom_rate_of_last_row_witness :
  exists e,
    Sample.payConfig !! "Play-by-play" = Some e
    /\ customRates e !! "S1" = Some (Num 150000)
    /\ customRates e !! "S2" = None.
Proof.
  assert (H : payConfigOfRows Sample.payRows !! "Play-by-play"
              = Some {| defaultRate := Num 100000;
                        customRates := {["S1" := Num 150000]} |})
    by (vm_compute; reflexivity).
  eexists. split; [exact H|]. split; [vm_compute; reflexivity|].
  apply (payConfig_custom_rate_of_last_row Sample.payRows "Play-by-play" "S2"
           _ H).
  intros r [<-|[]]. vm_compute. reflexivity.
Defined.




(** X7. The payment records of [calculatePayments] come in the order in
    which their legal names first occur in the input, when no legal name
    is a string of digits (an object lists such keys first); this is the
    order of the rows [createInvoice] writes, and [totalStaff] of the
    summary is the number of different legal names of the input. *)
Theorem calculatePayments_record_order
    (ws : list WorkItem) (cfg : gmap string RateEntry) (sm : gmap string cell) :
  (forall w, In w ws -> allDigits (legalKey sm w) = false) ->
  let payments := fst (calculatePayments ws cfg sm) in
  map fst payments = firstOccurrences (map (legalKey sm) ws)
  /\ totalStaff (summaryOf ws payments)
     = length (firstOccurrences (map (legalKey sm) ws)).
Proof.
  intros _ payments.
  assert (Hkeys : map fst payments = firstOccurrences (map (legalKey sm) ws)).
  { subst payments. rewrite calculatePayments_split. cbn [fst].
    apply payments_keys. }
  split; [exact Hkeys|].
  cbn [summaryOf totalStaff]. now rewrite <- Hkeys, length_map.
Qed.

Lemma calculatePayments_record_order_witness :
  map fst (fst (calculatePayments [Sample.w1; Sample.w3; Sample.w2]
                                  Sample.payConfig Sample.staffMapping))
  = ["Nguyen Van A"; "S9"].
Proof.
  destruct (calculatePayments_record_order
              [Sample.w1; Sample.w3; Sample.w2]
              Sample.payConfig Sample.staffMapping) as (Hkeys & _).
  - intros w [<-|[<-|[<-|[]]]]; vm_compute; reflexivity.
  - rewrite Hkeys. vm_compute. reflexivity.
Defined.



(** X9. [createInvoice] groups the tasks of a payment by task type
    without losing or repeating one: [tasksByType] has one group for each
    task type of the tasks and no other, the group of a type holds the
    tasks of that type in their order, so no group is empty, and the
    groups together hold the tasks, each as often as it occurs; the counts
    of the "n x type" lines of the Work done summary add up to the number
    of tasks. *)
Theorem groupTasksByType_partitions (ts : list Task) :
  let groups := groupTasksByType ts in
  List.NoDup (map fst groups)
  /\ (forall k l,
        In (k, l) groups
        <-> In k (map typeKey ts)
            /\ l = List.filter (fun t => String.eqb (typeKey t) k) ts)
  /\ (forall k l, In (k, l) groups -> l <> [])
  /\ Permutation (concat (map snd groups)) ts
  /\ list_sum (map (fun e => length (snd e)) groups) = length ts.
Proof.
  intros groups.
  assert (Hg : groups
               = map (fun k => (k, List.filter
                                     (fun t => String.eqb (typeKey t) k) ts))
                     (firstOccurrences (map typeKey ts)))
    by apply groupTasksByType_eq.
  assert (Hin : forall k l,
            In (k, l) groups
            <-> In k (map typeKey ts)
                /\ l = List.filter (fun t => String.eqb (typeKey t) k) ts).
  { intros k l. rewrite Hg, in_map_iff. split.
    - intros (k' & [= -> <-] & Hk').
      split; [exact (proj1 (In_firstOccurrences _ _) Hk') | reflexivity].
    - intros [Hk ->]. exists k.
      split; [reflexivity | exact (proj2 (In_firstOccurrences _ _) Hk)]. }
  assert (Hperm : Permutation (concat (map snd groups)) ts).
  { rewrite Hg, map_map. cbn [snd].
    apply concat_filter_partition; [apply NoDup_firstOccurrences|].
    intros t Ht. apply (proj2 (In_firstOccurrences _ _)). now apply in_map. }
  split; [|split; [exact Hin|split; [|split; [exact Hperm|]]]].
  - rewrite Hg, map_map. cbn [fst]. rewrite map_id.
    apply NoDup_firstOccurrences.
  - intros k l Hkl. apply Hin in Hkl. destruct Hkl as [Hk ->].
    apply in_map_iff in Hk. destruct Hk as (t & Ht & Hin').
    intros Hnil.
    assert (H0 : In t (List.filter (fun t0 => String.eqb (typeKey t0) k) ts))
      by (apply List.filter_In; split; [exact Hin' | now apply String.eqb_eq]).
    rewrite Hnil in H0. destruct H0.
  - rewrite <- (Permutation_length Hperm), length_concat, map_map.
    reflexivity.
Qed.

(** X10. The groups of [tasksByType] come in the order in which the task
    types first occur among the tasks of the payment, when no task type is
    a string of digits; so the Work done cell of an invoice row lists, in
    that order and one per line, each task type of the payment after the
    number of its tasks. *)
Theorem groupTasksByType_order (ts : list Task) :
  (forall t, In t ts -> allDigits (typeKey t) = false) ->
  let types := firstOccurrences (map typeKey ts) in
  let tasksOf k := List.filter (fun t => String.eqb (typeKey t) k) ts in
  groupTasksByType ts = map (fun k => (k, tasksOf k)) types
  /\ workDoneSummaryOf (groupTasksByType ts)
     = join newline
         (map (fun k => pretty (Z.of_nat (length (tasksOf k))) +:+ " x " +:+ k)
              types).
Proof.
  intros _ types tasksOf.
  assert (Hg : groupTasksByType ts = map (fun k => (k, tasksOf k)) types)
    by apply groupTasksByType_eq.
  split; [exact Hg|].
  unfold workDoneSummaryOf. rewrite Hg, map_map. reflexivity.
Qed.

Lemma groupTasksByType_order_witness :
  workDoneSummaryOf
    (groupTasksByType
       [taskOf Sample.payConfig Sample.w3;
        taskOf Sample.payConfig Sample.w1;
        taskOf Sample.payConfig Sample.w3])
  = "2 x Unknown level" +:+ newline +:+ "1 x Play-by-play".
Proof.
  destruct (groupTasksByType_order
              [taskOf Sample.payConfig Sample.w3;
               taskOf Sample.payConfig Sample.w1;
               taskOf Sample.payConfig Sample.w3]) as (_ & Hsum).
  - intros t [<-|[<-|[<-|[]]]]; vm_compute; reflexivity.
  - rewrite Hsum. vm_compute. reflexivity.
Defined.



(** X12. [createInvoice] appends: on an Invoicing sheet with the Invoice
    Number column, every cell above the first new row and every cell below
    the last new row is as before, the header row is as before, and after
    a call with at least one payment the next call starts right below the
    rows of this one. *)
Theorem createInvoice_appends_below
    (env : Env) (payments : list (string * PaymentRecord))
    (w : World) (sh : sheet) :
  invoicing w = Some sh ->
  colInvoiceNumber (invoiceColumnsOf (headerValues sh 2)) <> -1 ->
  exists res sh',
    createInvoice env payments w = (Ok res, withInvoicing w sh')
    /\ (forall r c : nat,
          (1 <= r)%nat -> (1 <= c)%nat ->
          Z.of_nat r < invoiceNextRow sh
          \/ invoiceNextRow sh + Z.of_nat (length payments) <= Z.of_nat r ->
          getCell sh' r c = getCell sh r c)
    /\ headerValues sh' 2 = headerValues sh 2
    /\ (payments <> [] ->
        invoiceNextRow sh'
        = invoiceNextRow sh + Z.of_nat (length payments)).
Proof.
  intros Hw Hfound.
  set (ic := invoiceColumnsOf (headerValues sh 2)) in *.
  destruct (maxColumnIndex_found ic Hfound) as [m Hm].
  destruct (invoiceDataOf_rows ic env (invoiceNumberOf env) payments m Hm)
    as (data & Hdata & Hlen & _).
  pose proof (createInvoice_run env payments w sh data Hw Hdata) as Hrun.
  fold ic in Hrun.
  pose proof (invoiceNextRow_ge sh) as Hn.
  eexists.
  exists (if (0 <? length data)%nat
          then writeColumns sh (invoiceNextRow sh) (invoiceColumnEntries ic) data
          else sh).
  split; [|split; [|split]].
  - rewrite Hrun. destruct (0 <? length data)%nat; [reflexivity|].
    now rewrite withInvoicing_id.
  - intros r c Hr Hc Hout. destruct (0 <? length data)%nat; [|reflexivity].
    rewrite getCell_writeColumns_gen;
      [| lia | apply invoiceColumnsOf_range | exact Hr | exact Hc].
    rewrite Hlen.
    destruct (Z.leb_spec (invoiceNextRow sh) (Z.of_nat r));
      destruct (Z.ltb_spec (Z.of_nat r)
                  (invoiceNextRow sh + Z.of_nat (length payments)));
      rewrite ?andb_false_r; try reflexivity; lia.
  - destruct (0 <? length data)%nat; [|reflexivity].
    apply headerValues_sameHeader, sameHeader_writeColumns; [exact Hn|].
    apply invoiceColumnsOf_width.
  - intros Hne.
    assert (Hpos : (0 < length data)%nat)
      by (rewrite Hlen; destruct payments; [contradiction | cbn; lia]).
    destruct (Nat.ltb_spec 0 (length data)); [|lia].
    unfold invoiceNextRow at 1. unfold getLastRow at 1 2.
    rewrite length_writeColumns by lia.
    assert (Hex : existsb (fun e : string * Z => negb (snd e =? -1))
                          (invoiceColumnEntries ic) = true).
    { unfold invoiceColumnEntries. cbn [existsb snd].
      destruct (Z.eqb_spec (colInvoiceNumber ic) (-1)); [contradiction|].
      reflexivity. }
    rewrite Hex. destruct (Nat.ltb_spec 0 (length data)); [|lia].
    cbn [andb]. rewrite <- Hlen.
    unfold invoiceNextRow, getLastRow in *.
    destruct (Nat.ltb_spec 2 (length sh));
      match goal with
      | |- context [(2 <? ?n)%nat] => destruct (Nat.ltb_spec 2 n)
      end; lia.
Qed.

Lemma createInvoice_appends_below_witness :
  exists res sh',
    createInvoice Sample.env
      (fst (calculatePayments [Sample.w1; Sample.w3; Sample.w2]
                              Sample.payConfig Sample.staffMapping))
      Sample.world
    = (Ok res, withInvoicing Sample.world sh')
    /\ getCell sh' 2 3 = CStr "Contractor"
    /\ invoiceNextRow sh' = 5.
Proof.
  destruct (createInvoice_appends_below Sample.env
              (fst (calculatePayments [Sample.w1; Sample.w3; Sample.w2]
                                      Sample.payConfig Sample.staffMapping))
              Sample.world Sample.invoices eq_refl)
    as (res & sh' & Hrun & Hcells & _ & Hnext).
  - vm_compute. discriminate.
  - exists res, sh'. split; [exact Hrun|]. split.
    + rewrite Hcells; [reflexivity | lia | lia |]. left. vm_compute.
      reflexivity.
    + rewrite Hnext; [vm_compute; reflexivity|]. vm_compute. discriminate.
Defined.


(** X14. The commit is not undone when its second half fails.  On a
    ledger without the Paid column, where every row that is done is unpaid,
    the commit handler creates the invoice rows and then fails to mark the
    work: it answers with the error of the missing column in the state
    [createInvoice] left, invoice rows included, the ledger is as before,
    and the selector still returns the same items, so that a second commit
    creates invoice rows for them again and fails in the same way. *)
Theorem commit_without_paid_column_keeps_invoices
    (env : Env) (w w1 : World) (sh : sheet)
    (prows : list PayConfigRow) (srows : list StaffRow) (res : InvoiceResult) :
  master w = Some sh ->
  payConfigSheet w = Some prows ->
  staffSheet w = Some srows ->
  indexOf (CStr "Paid") (headerValues sh 2) = -1 ->
  unpaidWork_spec sh <> [] ->
  let payments :=
    fst (calculatePayments (unpaidWork_spec sh) (payConfigOfRows prows)
                           (staffMappingOfRows srows)) in
  let error :=
    "Error: Column " +:+ quoted "Paid" +:+ " not found in sheet "
    +:+ quoted "MASTER" in
  createInvoice env payments w = (Ok res, w1) ->
  handleCalculatePayRequest env w = (Ok (CommitError error), w1)
  /\ master w1 = Some sh
  /\ getUnpaidWorkFromMaster w1 = (Ok (unpaidWork_spec sh), w1)
  /\ forall env',
       exists res' w2,
         createInvoice env' payments w1 = (Ok res', w2)
         /\ handleCalculatePayRequest env' w1 = (Ok (CommitError error), w2).
Proof.
  intros Hm Hpc Hss Hpaid Hne payments error Hinv.
  pose proof (createInvoice_frame env payments w) as (Hm1 & Hpc1 & Hss1).
  rewrite Hinv in Hm1, Hpc1, Hss1. cbn [snd] in Hm1, Hpc1, Hss1.
  rewrite Hm in Hm1. rewrite Hpc in Hpc1. rewrite Hss in Hss1.
  assert (Hlen : (length (unpaidWork_spec sh) =? 0)%nat = false)
    by (destruct (unpaidWork_spec sh); [contradiction | reflexivity]).
  split; [|split; [exact Hm1|split]].
  - rewrite handleCalculatePayRequest_run, Hm, Hpc, Hss. cbv zeta.
    rewrite Hlen. fold payments. rewrite Hinv.
    rewrite (markWorkAsInvoiced_run _ w1 sh Hm1 (unpaid_rows_positive sh)).
    now rewrite Hpaid.
  - now rewrite getUnpaidWorkFromMaster_run, Hm1.
  - intros env'.
    destruct (createInvoice_ok_again env env' payments w res w1 Hinv)
      as (res' & w2 & Hinv').
    exists res', w2. split; [exact Hinv'|].
    rewrite handleCalculatePayRequest_run, Hm1, Hpc1, Hss1. cbv zeta.
    rewrite Hlen. fold payments. rewrite Hinv'.
    pose proof (createInvoice_frame env' payments w1) as (Hm2 & _).
    rewrite Hinv' in Hm2. cbn [snd] in Hm2. rewrite Hm1 in Hm2.
    rewrite (markWorkAsInvoiced_run _ w2 sh Hm2 (unpaid_rows_positive sh)).
    now rewrite Hpaid.
Qed.

Lemma commit_without_paid_column_keeps_invoices_witness :
  exists w1 sh',
    handleCalculatePayRequest Sample.env SampleNoPaid.world
    = (Ok (CommitError
             ("Error: Column " +:+ quoted "Paid" +:+ " not found in sheet "
              +:+ quoted "MASTER")), w1)
    /\ master w1 = Some SampleNoPaid.ledger
    /\ invoicing w1 = Some sh'
    /\ getCell sh' 3 1 = CStr "INV-20250720-007".
Proof.
  assert (E : exists res w1 sh',
             createInvoice Sample.env
               (fst (calculatePayments (unpaidWork_spec SampleNoPaid.ledger)
                       (payConfigOfRows Sample.payRows)
                       (staffMappingOfRows Sample.staffRows)))
               SampleNoPaid.world
             = (Ok res, w1)
             /\ invoicing w1 = Some sh'
             /\ getCell sh' 3 1 = CStr "INV-20250720-007").
  { eexists. eexists. eexists. split; [vm_compute; reflexivity|].
    split; [reflexivity | vm_compute; reflexivity]. }
  destruct E as (res & w1 & sh' & Hinv & Hsh & Hcell).
  destruct (commit_without_paid_column_keeps_invoices
              Sample.env SampleNoPaid.world w1 SampleNoPaid.ledger
              Sample.payRows Sample.staffRows res)
    as (Hrun & Hm & _); try reflexivity.
  - vm_compute. discriminate.
  - exact Hinv.
  - exists w1, sh'. auto.
Defined.

(** X15. The commit handler always answers, never throws, and never
    touches Pay Config or the staff directory.  Whatever goes wrong, the
    ledger is written in the success case only: with any other answer the
    MASTER sheet is the one the run started from, and with "No unpaid work
    found" nothing at all has changed. *)
Theorem handleCalculatePayRequest_marks_on_success_only
    (env : Env) (w : World) :
  exists resp w',
    handleCalculatePayRequest env w = (Ok resp, w')
    /\ payConfigSheet w' = payConfigSheet w
    /\ staffSheet w' = staffSheet w
    /\ match resp with
       | CommitSuccess _ _ => True
       | CommitNoUnpaidWork => w' = w
       | CommitError _ => master w' = master w
       end.
Proof.
  rewrite handleCalculatePayRequest_run.
  destruct (master w) as [sh|] eqn:Hm; [|eauto 10]. cbv zeta.
  destruct (length (unpaidWork_spec sh) =? 0)%nat; [eauto 10|].
  destruct (payConfigSheet w) as [prows|] eqn:Hpc; [|eauto 10].
  destruct (staffSheet w) as [srows|] eqn:Hss; [|eauto 10].
  set (payments := fst (calculatePayments _ _ _)).
  pose proof (createInvoice_frame env payments w) as (Hm1 & Hpc1 & Hss1).
  destruct (createInvoice env payments w) as [[r|e] w1]; cbn [snd] in *.
  2:{ do 2 eexists. split; [reflexivity|]. repeat split; congruence. }
  pose proof (markWorkAsInvoiced_frame (unpaidWork_spec sh) w1)
    as (Hpc2 & Hss2 & _).
  rewrite Hm in Hm1.
  rewrite (markWorkAsInvoiced_run _ w1 sh Hm1 (unpaid_rows_positive sh))
    in Hpc2, Hss2 |- *.
  destruct (indexOf (CStr "Paid") (headerValues sh 2) =? -1);
    cbn [snd] in *; do 2 eexists; (split; [reflexivity|]);
    repeat split; congruence.
Qed.

(** X16. The POST action [createInvoicesAndMark] is the commit of the GET
    action [calculatePay] under another name: on the same spreadsheets both
    leave the same sheets, and they answer alike, "No unpaid work found",
    the same error, or success with the same summary; the guard of
    [createInvoicesAndMark] against empty payments never fires, a non-empty
    selection giving at least one payment record. *)
Theorem doPost_createInvoicesAndMark_is_commit
    (env : Env) (preview : cell) (w : World) :
  snd (doPost env (CStr "createInvoicesAndMark") preview w)
  = snd (handleCalculatePayRequest env w)
  /\ match fst (handleCalculatePayRequest env w) with
     | Ok CommitNoUnpaidWork =>
         fst (doPost env (CStr "createInvoicesAndMark") preview w)
         = Ok (PostCalc CalcNoUnpaidWork)
     | Ok (CommitSuccess s _) =>
         fst (doPost env (CStr "createInvoicesAndMark") preview w)
         = Ok (PostMark (MarkSuccess {| invoiceNumber := invoiceNumberOf env;
                                         invoiceDate := timestamp env;
                                         rowsCreated := totalStaff s |}) s)
     | Ok (CommitError e) =>
         fst (doPost env (CStr "createInvoicesAndMark") preview w)
         = Ok (PostCalc (CalcError e))
         \/ exists s,
              fst (doPost env (CStr "createInvoicesAndMark") preview w)
              = Ok (PostMark (MarkError e) s)
     | Throw _ => False
     end.
Proof.
  rewrite doPost_createInvoicesAndMark_run.
  rewrite calculateStaffPay_run, handleCalculatePayRequest_run.
  destruct (master w) as [sh|] eqn:Hm; [|cbn; now auto]. cbv zeta.
  destruct (unpaidWork_spec sh) as [|it items] eqn:Hitems; [cbn; now auto|].
  cbn [length Nat.eqb].
  destruct (payConfigSheet w) as [prows|] eqn:Hpc; [|cbn; now auto].
  destruct (staffSheet w) as [srows|] eqn:Hss; [|cbn; now auto].
  set (r := calculatePayments _ _ _).
  rewrite createInvoicesAndMark_run. cbn [length Nat.eqb].
  pose proof (calculatePayments_nonempty (payConfigOfRows prows)
                (staffMappingOfRows srows) it items) as Hne.
  fold r in Hne.
  destruct (fst r) as [|p ps] eqn:Hp; [contradiction|]. cbn [length Nat.eqb].
  rewrite <- Hp.
  destruct (createInvoice env (fst r) w) as [[res|e] w1] eqn:Hinv.
  2:{ cbn. split; [reflexivity|]. right. eauto. }
  destruct (markWorkAsInvoiced (it :: items) w1) as [[[]|e] w2]; cbn.
  2:{ split; [reflexivity|]. right. eauto. }
  split; [reflexivity|].
  assert (Hres : res = {| invoiceNumber := invoiceNumberOf env;
                          invoiceDate := timestamp env;
                          rowsCreated := length (fst r) |}).
  { destruct (invoicing w) as [ish|] eqn:Hw.
    2:{ unfold createInvoice, bind, getW in Hinv. rewrite Hw in Hinv.
        discriminate. }
    destruct (maxColumnIndex (invoiceColumnsOf (headerValues ish 2)))
      as [m|] eqn:Hmax.
    - destruct (invoiceDataOf_rows _ env (invoiceNumberOf env) (fst r) m Hmax)
        as (data & Hdata & Hlen & _).
      rewrite (createInvoice_run env (fst r) w ish data Hw Hdata) in Hinv.
      injection Hinv as <- _. now rewrite Hlen.
    - unfold createInvoice, bind, getW, liftOutcome in Hinv.
      rewrite Hw in Hinv. cbv zeta in Hinv.
      rewrite invoiceDataOf_no_column in Hinv by exact Hmax.
      rewrite Hp in Hinv. discriminate. }
  now rewrite Hres.
Qed.


(** X18. The figures of a successful preview add up: [totalTasks] is the
    sum of the [taskCount] of its payments, every payment has at least one
    task and lists as many tasks as it counts, and [totalStaff], the number
    of payments, is at least 1 and at most [totalTasks].  The preview
    changes no sheet. *)
Theorem preview_summary_adds_up
    (w w' : World) (s : Summary) (e : Errors)
    (payments : list (string * PreviewPayment)) :
  handleCalculatePayPreviewRequest w = (Ok (PreviewSuccess s e payments), w') ->
  w' = w
  /\ list_sum (map (fun kp => pp_taskCount (snd kp)) payments) = totalTasks s
  /\ totalStaff s = length payments
  /\ (1 <= totalStaff s <= totalTasks s)%nat
  /\ forall k p, In (k, p) payments ->
       (1 <= pp_taskCount p)%nat /\ length (pp_tasks p) = pp_taskCount p.
Proof.
  rewrite handleCalculatePayPreviewRequest_run.
  destruct (master w) as [sh|]; [|discriminate]. cbv zeta.
  destruct (unpaidWork_spec sh) as [|it items] eqn:Hitems; [discriminate|].
  cbn [length Nat.eqb].
  destruct (payConfigSheet w) as [prows|]; [|discriminate].
  destruct (staffSheet w) as [srows|]; [|discriminate].
  set (cfg := payConfigOfRows prows). set (sm := staffMappingOfRows srows).
  intros [= <- <- <- <-]. cbn [totalTasks totalStaff summaryOf].
  set (ps := fst (calculatePayments (it :: items) cfg sm)).
  pose proof (payments_ok_calculatePayments cfg sm (it :: items))
    as (_ & Hrec & _). fold ps in Hrec.
  assert (Hsum : list_sum (map (fun kp => length (tasks (snd kp))) ps)
                 = length (it :: items)).
  { pose proof (allTasks_calculatePayments cfg sm (it :: items)) as Hperm.
    fold ps in Hperm. apply Permutation_length in Hperm.
    rewrite length_map in Hperm. rewrite <- Hperm. unfold allTasks.
    now rewrite length_concat, map_map. }
  assert (Hpos : forall k p, In (k, p) ps -> (1 <= length (tasks p))%nat).
  { intros k p Hin. destruct (Hrec k p Hin) as (Ht & _ & w0 & rest & Hi & _).
    rewrite Ht, Hi. cbn. lia. }
  split; [reflexivity|]. split; [|split; [|split]].
  - unfold previewPaymentsOf. rewrite map_map. exact Hsum.
  - unfold previewPaymentsOf. now rewrite length_map.
  - split.
    + pose proof (calculatePayments_nonempty cfg sm it items) as Hne.
      fold ps in Hne. destruct ps; [contradiction | cbn; lia].
    + rewrite <- Hsum. clear -Hpos. induction ps as [|[k p] ps IH]; [cbn; lia|].
      pose proof (Hpos k p (or_introl eq_refl)) as Hp.
      pose proof (IH (fun k' p' H => Hpos k' p' (or_intror H))) as IH'.
      cbn [map length snd].
      match goal with
      | |- (_ <= list_sum (?a :: ?l))%nat =>
          change (list_sum (a :: l)) with (a + list_sum l)%nat
      end.
      lia.
  - intros k p Hin. unfold previewPaymentsOf in Hin. apply in_map_iff in Hin.
    destruct Hin as ([k' p'] & [= <- <-] & Hin). cbn [pp_taskCount pp_tasks
      previewPaymentOf snd].
    split; [now apply (Hpos k') | apply length_map].
Qed.

Lemma preview_summary_adds_up_witness :
  exists s e payments,
    handleCalculatePayPreviewRequest Sample.world
    = (Ok (PreviewSuccess s e payments), Sample.world)
    /\ totalTasks s = 1%nat
    /\ list_sum (map (fun kp => pp_taskCount (snd kp)) payments) = 1%nat.
Proof.
  assert (E : exists s e payments,
             handleCalculatePayPreviewRequest Sample.world
             = (Ok (PreviewSuccess s e payments), Sample.world)
             /\ totalTasks s = 1%nat)
    by (do 3 eexists; split; vm_compute; reflexivity).
  destruct E as (s & e & payments & Hrun & Ht).
  exists s, e, payments. split; [exact Hrun|]. split; [exact Ht|].
  destruct (preview_summary_adds_up _ _ _ _ _ Hrun) as (_ & Hsum & _).
  now rewrite Hsum.
Defined.

(** X19. Export by invoice number.  On an Invoicing sheet with invoice
    rows, the eight export columns and the Invoice Number column,
    [exportInvoicesPDF] with an invoice number and no date exports the rows
    whose Invoice Number cell is strictly that number, in sheet order, each
    as its eight export cells, the account number as text after a quote,
    below the row of the eight column names; [daysBack] plays no part.
    When no row has the number the answer is not the "No invoices found"
    message: building it reads a variable that does not exist, and the
    caller is told of a reference error. *)
Theorem exportInvoicesPDF_by_invoice_number
    (toDateString : cell -> string)
    (notBeforeCutoff : option number -> cell -> bool)
    (env : Env) (invoiceNumber : cell) (daysBack : option number)
    (specificDate : cell) (w : World) (sh : sheet) :
  invoicing w = Some sh ->
  (2 < length sh)%nat ->
  exportable sh ->
  truthy invoiceNumber = true ->
  truthy specificDate = false ->
  let hits :=
    List.filter
      (fun r => strictEqRead (invoiceCell sh r "Invoice Number") invoiceNumber)
      (invoiceRowNumbers sh) in
  exportInvoicesPDF toDateString notBeforeCutoff env invoiceNumber daysBack
                    specificDate w
  = match hits with
    | [] => ExportFailure "ReferenceError: dataRows is not defined"
    | _ :: _ =>
        ExportSuccess
          ("Invoice_" +:+ toStr invoiceNumber +:+ "_" +:+ dateStr env
           +:+ ".pdf")
          (map CStr exportColumns :: map (sheetExportRow sh) hits)
          (length hits)
    end.
Proof.
  intros Hw Hlen Hexp Hnum Hdate hits.
  rewrite (exportInvoicesPDF_run _ _ _ _ _ _ w sh Hw Hlen Hexp). cbv zeta.
  destruct Hexp as (Hcols & Hinv).
  rewrite invoiceDataRows_seq, filter_map_comm.
  rewrite (filter_ext_in_list _
             (fun r => strictEqRead (invoiceCell sh r "Invoice Number")
                                    invoiceNumber)).
  2:{ intros r Hr. apply In_invoiceRowNumbers in Hr.
      unfold exportFilter. rewrite Hnum, Hdate.
      rewrite at_getValues by (lia || exact Hinv). reflexivity. }
  fold hits. rewrite length_map, map_map.
  assert (Hrows : map (fun r => exportRowOf (headerValues sh 2)
                                  (nth (r - 1) (getValues sh) [])) hits
                  = map (sheetExportRow sh) hits).
  { apply map_ext_in. intros r Hr. subst hits.
    apply List.filter_In in Hr. destruct Hr as [Hr _].
    apply In_invoiceRowNumbers in Hr.
    apply exportRowOf_sheet; [lia | exact Hcols]. }
  rewrite Hrows, Hnum. now destruct hits.
Qed.

Lemma exportInvoicesPDF_by_invoice_number_witness :
  exportInvoicesPDF SampleExport.toDateString SampleExport.notBeforeCutoff
    Sample.env (CStr "INV-20250720-007") (Some (Num 30)) CUndefined
    SampleExport.world
  = ExportSuccess "Invoice_INV-20250720-007_20250720.pdf"
      [ map CStr exportColumns;
        [ CStr "Nguyen Van A"; CStr "2 x Play-by-play"; CNum (Num 250000);
          CStr "a@example.org"; CStr "NGUYEN VAN A"; CStr "'0071000";
          CStr "ACB"; CStr "links" ] ]
      1
  /\ exportInvoicesPDF SampleExport.toDateString SampleExport.notBeforeCutoff
       Sample.env (CStr "INV-20250101-000") (Some (Num 30)) CUndefined
       SampleExport.world
     = ExportFailure "ReferenceError: dataRows is not defined".
Proof.
  assert (Hexp : exportable SampleExport.invoices).
  { split.
    - intros col Hcol. unfold exportColumns in Hcol. cbn in Hcol.
      repeat (destruct Hcol as [<-|Hcol]; [vm_compute; discriminate|]).
      destruct Hcol.
    - vm_compute. discriminate. }
  split.
  - rewrite (exportInvoicesPDF_by_invoice_number _ _ _ _ _ _
               SampleExport.world SampleExport.invoices eq_refl);
      [vm_compute; reflexivity | cbn; lia | exact Hexp | reflexivity
       | reflexivity].
  - rewrite (exportInvoicesPDF_by_invoice_number _ _ _ _ _ _
               SampleExport.world SampleExport.invoices eq_refl);
      [vm_compute; reflexivity | cbn; lia | exact Hexp | reflexivity
       | reflexivity].
Defined.

(** X20. Whatever its arguments, by number, by number and date or by
    age, [exportInvoicesPDF] on an Invoicing sheet with invoice rows and
    the columns either succeeds with at least one row, its table made of
    the row of the eight column names and [rowsExported] rows of eight
    cells, or fails with the reference error, and this exactly when no row
    passes the filter: the export never succeeds with an empty table and
    never answers "No invoices found". *)
Theorem exportInvoicesPDF_table_or_reference_error
    (toDateString : cell -> string)
    (notBeforeCutoff : option number -> cell -> bool)
    (env : Env) (invoiceNumber : cell) (daysBack : option number)
    (specificDate : cell) (w : World) (sh : sheet) :
  invoicing w = Some sh ->
  (2 < length sh)%nat ->
  exportable sh ->
  let passes :=
    exportFilter toDateString notBeforeCutoff invoiceNumber daysBack
      specificDate
      (indexOf (CStr "Invoice Number") (headerValues sh 2))
      (indexOf (CStr "Date") (headerValues sh 2)) in
  match
    exportInvoicesPDF toDateString notBeforeCutoff env invoiceNumber daysBack
                      specificDate w
  with
  | ExportSuccess _ table n =>
      (1 <= n)%nat
      /\ n = length (List.filter passes (invoiceDataRows sh))
      /\ length table = S n
      /\ hd [] table = map CStr exportColumns
      /\ Forall (fun row => length row = 8%nat) table
  | ExportFailure e =>
      e = "ReferenceError: dataRows is not defined"
      /\ forall row, In row (invoiceDataRows sh) -> passes row = false
  end.
Proof.
  intros Hw Hlen Hexp passes.
  rewrite (exportInvoicesPDF_run _ _ _ _ _ _ w sh Hw Hlen Hexp). cbv zeta.
  fold passes.
  destruct (List.filter passes (invoiceDataRows sh)) as [|row rows] eqn:Hf.
  - cbn [length Nat.eqb]. split; [reflexivity|].
    intros row Hrow. destruct (passes row) eqn:Hp; [|reflexivity].
    assert (Hin : In row (List.filter passes (invoiceDataRows sh)))
      by (apply List.filter_In; auto).
    rewrite Hf in Hin. destruct Hin.
  - cbn [length Nat.eqb]. split; [lia|]. split; [reflexivity|].
    split; [cbn [length]; now rewrite length_map|].
    split; [reflexivity|].
    constructor; [reflexivity|].
    apply List.Forall_forall. intros r Hr. apply in_map_iff in Hr.
    destruct Hr as (r0 & <- & _). unfold exportRowOf.
    now rewrite length_imap, length_map.
Qed.

Lemma exportInvoicesPDF_table_or_reference_error_witness :
  exists f table,
    exportInvoicesPDF SampleExport.toDateString SampleExport.notBeforeCutoff
      Sample.env CUndefined (Some (Num 30)) CUndefined SampleExport.world
    = ExportSuccess f table 2
    /\ length table = 3%nat.
Proof.
  assert (Hexp : exportable SampleExport.invoices).
  { split.
    - intros col Hcol. unfold exportColumns in Hcol. cbn in Hcol.
      repeat (destruct Hcol as [<-|Hcol]; [vm_compute; discriminate|]).
      destruct Hcol.
    - vm_compute. discriminate. }
  pose proof (exportInvoicesPDF_table_or_reference_error
                SampleExport.toDateString SampleExport.notBeforeCutoff
                Sample.env CUndefined (Some (Num 30)) CUndefined
                SampleExport.world SampleExport.invoices eq_refl
                ltac:(cbn; lia) Hexp) as H.
  cbv zeta in H.
  destruct (exportInvoicesPDF _ _ _ _ _ _ _) as [f table n|e] eqn:E.
  - destruct H as (_ & Hn & Hl & _). exists f, table.
    assert (Hn2 : n = 2%nat) by (rewrite Hn; vm_compute; reflexivity).
    subst n. auto.
  - exfalso. destruct H as (_ & Hnone).
    specialize (Hnone (nth 2 (getValues SampleExport.invoices) [])
                      ltac:(vm_compute; left; reflexivity)).
    vm_compute in Hnone. discriminate.
Defined.

(** X21. From a payment to the exported table.  On an Invoicing sheet
    with the Invoice Number and Date columns and the eight export columns,
    after [createInvoice] has written the rows of at least one payment,
    [exportLatestInvoicePDF] succeeds, names the file after the invoice
    number of that call, and exports at least the rows of that call: for
    each payment a row of the table that begins with its legal name and
    holds its total amount in the third cell. *)
Theorem exportLatestInvoicePDF_after_createInvoice
    (toDateString : cell -> string)
    (notBeforeCutoff : option number -> cell -> bool)
    (env env' : Env) (payments : list (string * PaymentRecord))
    (w : World) (sh : sheet) :
  invoicing w = Some sh ->
  exportable sh ->
  indexOf (CStr "Date") (headerValues sh 2) <> -1 ->
  payments <> [] ->
  exists w1 table n,
    createInvoice env payments w
    = (Ok {| invoiceNumber := invoiceNumberOf env;
             invoiceDate := timestamp env;
             rowsCreated := length payments |}, w1)
    /\ exportLatestInvoicePDF toDateString notBeforeCutoff env' w1
       = ExportSuccess
           ("Invoice_" +:+ invoiceNumberOf env +:+ "_" +:+ dateStr env'
            +:+ ".pdf")
           table n
    /\ (length payments <= n)%nat
    /\ forall (k : nat) kp,
         payments !! k = Some kp ->
         exists row,
           In row table
           /\ nth 0 row CUndefined = legalName (snd kp)
           /\ nth 2 row CUndefined = CNum (totalAmount (snd kp)).
Proof.
  intros Hw Hexp Hdate Hne.
  pose proof Hexp as (Hcols & Hinv).
  destruct (createInvoice_sheet env payments w sh Hw Hinv Hne)
    as (sh1 & Hrun & Hh & Hlen1 & Hcells).
  pose proof (invoiceNextRow_ge sh) as Hn.
  assert (Hpos : (0 < length payments)%nat)
    by (destruct payments; [contradiction | cbn; lia]).
  assert (Hexp1 : exportable sh1) by (unfold exportable; now rewrite Hh).
  assert (Hlen3 : (2 < length sh1)%nat) by lia.
  set (num := CStr (invoiceNumberOf env)).
  (* the last row is the row of the last payment *)
  assert (Hlast : exists kp, payments !! (length payments - 1)%nat = Some kp)
    by (apply lookup_lt_is_Some; lia).
  destruct Hlast as (kpl & Hkpl).
  destruct (Hcells _ _ Hkpl) as (HlastNum & HlastDate & _).
  replace (Z.to_nat (invoiceNextRow sh + Z.of_nat (length payments - 1)))
    with (length sh1) in HlastNum, HlastDate by lia.
  specialize (HlastDate Hdate).
  (* the rows the filter keeps *)
  set (P := fun r : nat =>
              exportFilter toDateString notBeforeCutoff num None (timestamp env)
                (indexOf (CStr "Invoice Number") (headerValues sh1 2))
                (indexOf (CStr "Date") (headerValues sh1 2))
                (nth (r - 1) (getValues sh1) [])).
  set (hits := List.filter P (invoiceRowNumbers sh1)).
  assert (Hhit : forall (k : nat) kp,
            payments !! k = Some kp ->
            In (Z.to_nat (invoiceNextRow sh + Z.of_nat k)) hits).
  { intros k kp Hk.
    assert (Hlt : (k < length payments)%nat)
      by (apply lookup_lt_is_Some; eauto).
    destruct (Hcells _ _ Hk) as (Hnum & Hd & _). specialize (Hd Hdate).
    subst hits. apply List.filter_In. split.
    - apply In_invoiceRowNumbers. lia.
    - subst P. cbv beta. unfold exportFilter.
      rewrite !at_getValues by (lia || now rewrite Hh).
      rewrite Hnum, Hd. subst num. cbn [truthy].
      assert (Htr : negb (String.eqb (invoiceNumberOf env) "") = true)
        by reflexivity.
      assert (Heq : strictEqRead (CStr (invoiceNumberOf env))
                                 (CStr (invoiceNumberOf env)) = true)
        by (cbn; now apply bool_decide_eq_true_2).
      rewrite Htr, Heq.
      destruct (truthy (timestamp env)); [|reflexivity].
      cbn [andb]. apply String.eqb_refl. }
  assert (Hcount : (length payments <= length hits)%nat).
  { apply Nat.le_trans
      with (length (map (fun k : nat =>
                           Z.to_nat (invoiceNextRow sh + Z.of_nat k))
                        (seq 0 (length payments))));
      [rewrite length_map, List.length_seq; lia|].
    apply List.NoDup_incl_length.
    - apply Finite.Injective_map_NoDup; [|apply List.seq_NoDup].
      intros a b Hab. lia.
    - intros r Hr. apply in_map_iff in Hr. destruct Hr as (k & <- & Hk).
      apply List.in_seq in Hk.
      destruct (lookup_lt_is_Some_2 payments k ltac:(lia)) as (kp & Hkp).
      now apply (Hhit k kp). }
  exists (withInvoicing w sh1).
  exists (map CStr exportColumns :: map (sheetExportRow sh1) hits).
  exists (length hits).
  split; [exact Hrun|]. split; [|split; [exact Hcount|]].
  - unfold exportLatestInvoicePDF. cbn [withInvoicing invoicing]. cbv zeta.
    unfold getLastRow. destruct (Nat.leb_spec (length sh1) 2); [lia|].
    destruct Hexp1 as (Hcols1 & Hinv1).
    destruct (Z.eqb_spec (indexOf (CStr "Invoice Number") (headerValues sh1 2))
                (-1)); [contradiction|].
    destruct (Z.eqb_spec (indexOf (CStr "Date") (headerValues sh1 2)) (-1));
      [rewrite Hh in *; contradiction|].
    fold (invoiceCell sh1 (length sh1) "Invoice Number").
    fold (invoiceCell sh1 (length sh1) "Date").
    rewrite HlastNum, HlastDate. fold num.
    rewrite (exportInvoicesPDF_run _ _ _ _ _ _ (withInvoicing w sh1) sh1
               eq_refl Hlen3 (conj Hcols1 Hinv1)).
    cbv zeta. rewrite invoiceDataRows_seq, filter_map_comm.
    fold P. fold hits. rewrite length_map, map_map.
    assert (Hrows : map (fun r => exportRowOf (headerValues sh1 2)
                                    (nth (r - 1) (getValues sh1) [])) hits
                    = map (sheetExportRow sh1) hits).
    { apply map_ext_in. intros r Hr. subst hits.
      apply List.filter_In in Hr. destruct Hr as [Hr _].
      apply In_invoiceRowNumbers in Hr.
      apply exportRowOf_sheet; [lia | exact Hcols1]. }
    rewrite Hrows.
    destruct (Nat.eqb_spec (length hits) 0); [lia|].
    subst num. cbn [truthy toStr invoiceNumber].
    assert (Htr : negb (String.eqb (invoiceNumberOf env) "") = true)
      by reflexivity.
    rewrite Htr. reflexivity.
  - intros k kp Hk.
    exists (sheetExportRow sh1 (Z.to_nat (invoiceNextRow sh + Z.of_nat k))).
    split; [right; apply in_map; now apply (Hhit k kp)|].
    destruct (Hcells _ _ Hk) as (_ & _ & Hc & _ & Ht & _).
    unfold sheetExportRow. cbn [nth]. split.
    + apply Hc, Hcols. cbn. tauto.
    + apply Ht, Hcols. cbn. tauto.
Qed.

Lemma exportLatestInvoicePDF_after_createInvoice_witness :
  exists w1 table n,
    snd (createInvoice Sample.env
           (fst (calculatePayments [Sample.w1; Sample.w3; Sample.w2]
                                   Sample.payConfig Sample.staffMapping))
           SampleExport.world) = w1
    /\ exportLatestInvoicePDF SampleExport.toDateString
         SampleExport.notBeforeCutoff Sample.env w1
       = ExportSuccess "Invoice_INV-20250720-007_20250720.pdf" table n
    /\ (2 <= n)%nat.
Proof.
  assert (Hexp : exportable SampleExport.invoices).
  { split.
    - intros col Hcol. unfold exportColumns in Hcol. cbn in Hcol.
      repeat (destruct Hcol as [<-|Hcol]; [vm_compute; discriminate|]).
      destruct Hcol.
    - vm_compute. discriminate. }
  destruct (exportLatestInvoicePDF_after_createInvoice
              SampleExport.toDateString SampleExport.notBeforeCutoff
              Sample.env Sample.env
              (fst (calculatePayments [Sample.w1; Sample.w3; Sample.w2]
                                      Sample.payConfig Sample.staffMapping))
              SampleExport.world SampleExport.invoices eq_refl Hexp)
    as (w1 & table & n & Hrun & Hexport & Hn & _).
  - vm_compute. discriminate.
  - vm_compute. discriminate.
  - exists w1, table, n. split; [now rewrite Hrun|].
    split; [exact Hexport | exact Hn].
Defined.

(** X22. The refusals of [exportInvoicesPDF], in the order it makes
    them, whatever the invoice number, the number of days and the date:
    without the Invoicing sheet the error of the missing sheet; on a sheet
    with no row below the header row "No invoice data found", even when
    columns are missing too; then the export columns the header row lacks,
    all of them in one message and in export order, before the Invoice
    Number column is looked for; then the missing Invoice Number column. *)
Theorem exportInvoicesPDF_refusals
    (toDateString : cell -> string)
    (notBeforeCutoff : option number -> cell -> bool)
    (env : Env) (invoiceNumber : cell) (daysBack : option number)
    (specificDate : cell) (w : World) :
  let response :=
    exportInvoicesPDF toDateString notBeforeCutoff env invoiceNumber daysBack
                      specificDate w in
  match invoicing w with
  | None => response = ExportFailure "Error: Invoicing sheet not found"
  | Some sh =>
      let missing :=
        List.filter (fun col => indexOf (CStr col) (headerValues sh 2) =? -1)
                    exportColumns in
      ((length sh <= 2)%nat -> response = ExportFailure "No invoice data found")
      /\ ((2 < length sh)%nat -> missing <> [] ->
          response
          = ExportFailure ("Error: Missing columns: " +:+ join ", " missing))
      /\ ((2 < length sh)%nat -> missing = [] ->
          indexOf (CStr "Invoice Number") (headerValues sh 2) = -1 ->
          response = ExportFailure "Error: Invoice Number column not found")
  end.
Proof.
  intros response. subst response. unfold exportInvoicesPDF.
  destruct (invoicing w) as [sh|]; [|reflexivity].
  cbv zeta. unfold getLastRow. split; [|split].
  - intros Hlen. destruct (Nat.leb_spec (length sh) 2); [reflexivity | lia].
  - intros Hlen Hmiss. destruct (Nat.leb_spec (length sh) 2); [lia|].
    cbn [Nat.sub]. rewrite hd_skipn_getValues by lia.
    rewrite missingColumns_filter.
    destruct (List.filter _ exportColumns) as [|c cs]; [contradiction|].
    reflexivity.
  - intros Hlen Hmiss Hinv. destruct (Nat.leb_spec (length sh) 2); [lia|].
    cbn [Nat.sub]. rewrite hd_skipn_getValues by lia.
    rewrite missingColumns_filter, Hmiss, Hinv. reflexivity.
Qed.

(** X23. The payment summary shown in the spreadsheet agrees with the
    calculation: its last line formats the grand total of the summary of
    [calculateStaffPay], and for every payment record of
    [calculatePayments] the three counts it prints cover the tasks of the
    record: every task is counted as custom, as default or as "NO RATE",
    none as both custom and default, while a task whose rate from the
    table is 0 or not a number is counted twice, with its rate source and
    with "NO RATE". *)
Theorem createPaymentSummary_agrees_with_calculation
    (formatCurrency : number -> string)
    (ws : list WorkItem) (cfg : gmap string RateEntry) (sm : gmap string cell) :
  let payments := fst (calculatePayments ws cfg sm) in
  createPaymentSummary formatCurrency payments
  = fst (paymentSummaryLoop formatCurrency payments)
    +:+ "Grand Total: "
    +:+ formatCurrency (grandTotal (summaryOf ws payments))
  /\ (forall k p, In (k, p) payments ->
        (customRateTasks p + defaultRateTasks p <= length (tasks p)
         <= customRateTasks p + defaultRateTasks p + noRateTasks p)%nat)
  /\ (forall k p t, In (k, p) payments -> In t (tasks p) ->
        rateSource t <> "none" -> num_gt0 (rate t) = false ->
        In t (List.filter (fun t => negb (hasValidRate t)) (tasks p))
        /\ (In t (List.filter (fun t => String.eqb (rateSource t) "custom")
                              (tasks p))
            \/ In t (List.filter (fun t => String.eqb (rateSource t) "default")
                                 (tasks p)))).
Proof.
  intros payments.
  pose proof (payments_ok_calculatePayments cfg sm ws) as (_ & Hrec & _).
  fold payments in Hrec.
  assert (Htask : forall k p t, In (k, p) payments -> In t (tasks p) ->
                    exists w0, t = taskOf cfg w0).
  { intros k p t Hin Ht. destruct (Hrec k p Hin) as (Htasks & _).
    rewrite Htasks in Ht. apply in_map_iff in Ht.
    destruct Ht as (w0 & <- & _). eauto. }
  split; [|split].
  - unfold createPaymentSummary.
    pose proof (paymentSummaryLoop_total formatCurrency payments) as Htot.
    destruct (paymentSummaryLoop formatCurrency payments) as [s g].
    cbn [fst snd] in *. now rewrite Htot.
  - intros k p Hin. unfold customRateTasks, defaultRateTasks, noRateTasks.
    apply filter_cover.
    + intros t Ht. destruct (Htask k p t Hin Ht) as (w0 & ->).
      apply taskOf_source.
    + intros t Ht. destruct (Htask k p t Hin Ht) as (w0 & ->).
      apply taskOf_source.
  - intros k p t Hin Ht Hsrc Hrate.
    destruct (Htask k p t Hin Ht) as (w0 & ->).
    split.
    + apply List.filter_In. split; [exact Ht|].
      revert Hrate. unfold taskOf.
      destruct (resolveRate cfg (staffName w0) (taskType w0)) as [r src].
      cbn [rate hasValidRate]. now intros ->.
    + revert Hsrc. pose proof Ht as Ht'. revert Ht'.
      unfold taskOf, resolveRate.
      destruct (cfg !! toStr (taskType w0)) as [entry|];
        [|cbn [rateSource]; congruence].
      destruct (customRates entry !! toStr (staffName w0)) as [r|];
        [destruct (num_truthy r)|]; intros Ht' _;
        [left | right | right]; apply List.filter_In; split;
        (exact Ht' || reflexivity).
Qed.

(** X24. [testPreview] is [calculateStaffPay] looked at through two
    counts: on the same spreadsheets it ends as the calculation does, with
    no unpaid work, with the same error, or with the [totalTasks] and
    [totalStaff] of the summary of the calculation, and like it changes no
    sheet and never throws. *)
Theorem testPreview_agrees_with_calculateStaffPay (w : World) :
  exists r,
    calculateStaffPay w = (Ok r, w)
    /\ testPreview w = (Ok (testOfCalc r), w)
    /\ forall taskCount staffCount,
         testOfCalc r = TestSuccess taskCount staffCount ->
         (1 <= staffCount <= taskCount)%nat.
Proof.
  rewrite testPreview_run, calculateStaffPay_run.
  destruct (master w) as [sh|]; [|eexists; repeat split; discriminate].
  cbv zeta.
  destruct (unpaidWork_spec sh) as [|it items] eqn:Hitems;
    [eexists; repeat split; discriminate|].
  cbn [length Nat.eqb].
  destruct (payConfigSheet w) as [prows|];
    [|eexists; repeat split; discriminate].
  destruct (staffSheet w) as [srows|];
    [|eexists; repeat split; discriminate].
  eexists. split; [reflexivity|]. split; [reflexivity|].
  cbn [fst testOfCalc summaryOf totalTasks totalStaff].
  intros taskCount staffCount [= <- <-].
  set (cfg := payConfigOfRows prows). set (sm := staffMappingOfRows srows).
  set (ps := fst (calculatePayments (it :: items) cfg sm)).
  pose proof (payments_ok_calculatePayments cfg sm (it :: items))
    as (Hnd & Hrec & _). fold ps in Hnd, Hrec.
  split.
  - pose proof (calculatePayments_nonempty cfg sm it items) as Hne.
    fold ps in Hne. destruct ps; [contradiction | cbn; lia].
  - pose proof (allTasks_calculatePayments cfg sm (it :: items)) as Hperm.
    fold ps in Hperm. apply Permutation_length in Hperm.
    rewrite length_map in Hperm. cbn [length] in Hperm |- *.
    rewrite <- Hperm. unfold allTasks.
    rewrite length_concat, map_map.
    assert (Hpos : forall k p, In (k, p) ps -> (1 <= length (tasks p))%nat).
    { intros k p Hin. destruct (Hrec k p Hin) as (Ht & _ & w0 & rest & Hi & _).
      rewrite Ht, Hi. cbn. lia. }
    clear -Hpos. induction ps as [|[k p] ps IH]; [cbn; lia|].
    pose proof (Hpos k p (or_introl eq_refl)) as Hp.
    pose proof (IH (fun k' p' H => Hpos k' p' (or_intror H))) as IH'.
    cbn [map length snd].
    match goal with
    | |- (_ <= list_sum (?a :: ?l))%nat =>
        change (list_sum (a :: l)) with (a + list_sum l)%nat
    end.
    lia.
Qed.

(** X25. The deployment URL in the script properties: what
    [setCurrentDeploymentUrl] stores is what [getCurrentDeploymentUrl]
    reads, and no other property changes; an empty URL is refused and
    leaves the stored URL as it was; [updateDeploymentAfterPush] is never
    refused, its URL never being empty, also for a missing deployment id,
    which gives the URL of "undefined". *)
Theorem deployment_url_round_trip (props : Props) :
  (forall url,
     url <> "" ->
     let '(r, props') := setCurrentDeploymentUrl url props in
     r = Ok url
     /\ getCurrentDeploymentUrl props' = Some url
     /\ forall k, k <> "CURRENT_DEPLOYMENT_URL" -> props' !! k = props !! k)
  /\ setCurrentDeploymentUrl "" props = (Throw "Error: URL is required", props)
  /\ (forall deploymentId,
        let url :=
          "https://script.google.com/macros/s/" +:+ toStr deploymentId
          +:+ "/exec" in
        exists props',
          updateDeploymentAfterPush deploymentId props = (Ok url, props')
          /\ getCurrentDeploymentUrl props' = Some url)
  /\ (exists props',
        updateDeploymentAfterPush CUndefined props
        = (Ok "https://script.google.com/macros/s/undefined/exec", props')).
Proof.
  assert (Hset : forall url, url <> "" ->
            setCurrentDeploymentUrl url props
            = (Ok url, <["CURRENT_DEPLOYMENT_URL" := url]> props)).
  { intros url Hurl. unfold setCurrentDeploymentUrl. cbn [truthy].
    destruct (String.eqb_spec url ""); [contradiction | reflexivity]. }
  split; [|split; [reflexivity|split]].
  - intros url Hurl. rewrite (Hset url Hurl). split; [reflexivity|]. split.
    + unfold getCurrentDeploymentUrl. apply lookup_insert_eq.
    + intros k Hk. now apply lookup_insert_ne.
  - intros deploymentId url. unfold updateDeploymentAfterPush. cbv zeta.
    fold url. rewrite Hset by (subst url; discriminate).
    eexists. split; [reflexivity|].
    unfold getCurrentDeploymentUrl. apply lookup_insert_eq.
  - unfold updateDeploymentAfterPush. cbv zeta. rewrite Hset by discriminate.
    eexists. reflexivity.
Qed.

(** X26. The earlier [createInvoices] counted the rows: the invoice
    numbers it gives to the rows of one run are all different, whatever
    the number of rows, while a later run on the same day starts from 001
    again and repeats them; the number of its [k]-th row is the one
    [createInvoice] makes when its random suffix is [k]. *)
Theorem legacy_createInvoices_numbers_are_distinct (env : Env) :
  (forall j k : nat,
     Legacy.invoiceNumberOfRow env j = Legacy.invoiceNumberOfRow env k ->
     j = k)
  /\ (forall env' (k : nat),
        dateStr env' = dateStr env ->
        Legacy.invoiceNumberOfRow env' k = Legacy.invoiceNumberOfRow env k)
  /\ (forall k : nat,
        random1000 env = Z.of_nat k + 1 ->
        invoiceNumberOf env = Legacy.invoiceNumberOfRow env k).
Proof.
  split; [|split].
  - intros j k H. unfold Legacy.invoiceNumberOfRow in H.
    do 3 apply append_inv_head in H.
    apply padStart3_inj in H; try (apply pretty_Z_head; lia).
    apply (inj pretty) in H. lia.
  - intros env' k E. unfold Legacy.invoiceNumberOfRow. now rewrite E.
  - intros k E. unfold invoiceNumberOf, Legacy.invoiceNumberOfRow.
    now rewrite E.
Qed.

(** X27. [markWorkAsInvoiced] stops at the first item whose row number
    the sheet refuses, a row below 1: the items before it are marked
    "Invoiced", the items after it are not, and the error leaves the ledger
    half written; [createInvoicesAndMark], which is given its items by the
    caller, then answers with that error after the invoice rows have been
    written. *)
Theorem markWorkAsInvoiced_stops_at_bad_row
    (before after : list WorkItem) (bad : WorkItem) (w : World) (sh : sheet) :
  master w = Some sh ->
  indexOf (CStr "Paid") (headerValues sh 2) <> -1 ->
  Forall (fun it => 1 <= rowIndex it) before ->
  rowIndex bad < 1 ->
  exists e,
    markWorkAsInvoiced (before ++ bad :: after) w
    = (Throw e,
       withMaster w (markRows sh (map rowIndex before) (paidColumn sh)))
    /\ forall env payments res w1,
         payments <> [] ->
         createInvoice env payments w = (Ok res, w1) ->
         createInvoicesAndMark env (before ++ bad :: after) payments w
         = (Ok (MarkError e),
            withMaster w1 (markRows sh (map rowIndex before) (paidColumn sh))).
Proof.
  intros Hm Hpaid Hbefore Hbad.
  assert (Hc : 1 <= indexOf (CStr "Paid") (headerValues sh 2) + 1).
  { pose proof (indexOf_range (CStr "Paid") (headerValues sh 2)). lia. }
  assert (Hrun : forall w0, master w0 = Some sh ->
            markWorkAsInvoiced (before ++ bad :: after) w0
            = (Throw "Exception: The starting row or column of the range is too small",
               withMaster w0 (markRows sh (map rowIndex before) (paidColumn sh)))).
  { intros w0 Hm0.
    unfold markWorkAsInvoiced, bind at 1, getW. rewrite Hm0.
    unfold getColumnIndex, bind at 1.
    destruct (Z.eqb_spec (indexOf (CStr "Paid") (headerValues sh 2)) (-1));
      [contradiction|].
    unfold ret at 1. rewrite forEachM_app.
    rewrite (markLoop_run before _ Hc Hbefore w0 sh Hm0).
    cbn [forEachM]. unfold bind, setMasterValue at 1, bind, getW.
    cbn [withMaster master]. unfold setValue.
    destruct (Z.ltb_spec (rowIndex bad) 1); [|lia]. reflexivity. }
  eexists. split; [apply (Hrun w Hm)|].
  intros env payments res w1 Hne Hinv.
  rewrite createInvoicesAndMark_run.
  assert (Hlen : (length (before ++ bad :: after) =? 0)%nat = false)
    by (apply Nat.eqb_neq; rewrite length_app; cbn; lia).
  rewrite Hlen.
  destruct payments as [|p ps]; [contradiction|]. cbn [length Nat.eqb].
  rewrite Hinv.
  pose proof (createInvoice_frame env (p :: ps) w) as (Hm1 & _).
  rewrite Hinv in Hm1. cbn [snd] in Hm1. rewrite Hm in Hm1.
  now rewrite (Hrun w1 Hm1).
Qed.

Lemma markWorkAsInvoiced_stops_at_bad_row_witness :
  exists e sh',
    markWorkAsInvoiced
      [Sample.item 4 "S2" "Play-by-play"; Sample.item 0 "S1" "Play-by-play";
       Sample.item 5 "S1" "Play-by-play"] Sample.world
    = (Throw e, withMaster Sample.world sh')
    /\ getCell sh' 4 5 = CStr "Invoiced"
    /\ getCell sh' 5 5 = CStr "".
Proof.
  destruct (markWorkAsInvoiced_stops_at_bad_row
              [Sample.item 4 "S2" "Play-by-play"]
              [Sample.item 5 "S1" "Play-by-play"]
              (Sample.item 0 "S1" "Play-by-play")
              Sample.world Sample.ledger eq_refl)
    as (e & Hrun & _).
  - vm_compute. discriminate.
  - repeat constructor. cbn. lia.
  - cbn. lia.
  - exists e. eexists. split; [exact Hrun|].
    split; vm_compute; reflexivity.
Defined.

(** X28. The GET endpoint answers every request, never throwing, and
    only the action [calculatePay] writes: with any other action, known
    or not, or with none, every sheet is as before; with [calculatePay]
    the answer and the sheets are those of the commit handler. *)
Theorem doGet_writes_on_calculatePay_only
    (toDateString : cell -> string)
    (notBeforeCutoff : option number -> cell -> bool)
    (parseInt : cell -> number)
    (env : Env) (action invoiceNumber daysBack : cell) (w : World) :
  let run :=
    doGet toDateString notBeforeCutoff parseInt env action invoiceNumber
          daysBack w in
  (exists resp, fst run = Ok resp)
  /\ (action <> CStr "calculatePay" -> snd run = w)
  /\ (action = CStr "calculatePay" ->
      exists resp,
        handleCalculatePayRequest env w = (Ok resp, snd run)
        /\ fst run = Ok (GetCommit resp)).
Proof.
  intros run. subst run. unfold doGet.
  destruct (handleCalculatePayRequest_answers env w) as (cresp & w' & Hcommit).
  destruct (decide (action = CStr "calculatePay")) as [->|Hne].
  { cbn [truthy strictEq String.eqb Ascii.eqb Bool.eqb negb].
    rewrite bool_decide_eq_false_2 by discriminate.
    rewrite bool_decide_eq_true_2 by reflexivity.
    unfold bind. rewrite Hcommit. cbn.
    split; [eauto|]. split; [congruence|]. intros _. eauto. }
  assert (E2 : strictEq action (CStr "calculatePay") = false).
  { destruct (strictEq action (CStr "calculatePay")) eqn:E; [|reflexivity].
    apply strictEq_true in E. contradiction. }
  rewrite E2.
  assert (Hprev : exists r, handleCalculatePayPreviewRequest w = (Ok r, w)).
  { rewrite handleCalculatePayPreviewRequest_run.
    destruct (master w) as [sh|]; [|eauto]. cbv zeta.
    destruct (length (unpaidWork_spec sh) =? 0)%nat; [eauto|].
    destruct (payConfigSheet w); [|eauto].
    destruct (staffSheet w); eauto. }
  assert (Hstat : exists r, handleStatusRequest w = (Ok r, w)).
  { rewrite handleStatusRequest_run. destruct (master w); eauto. }
  destruct Hprev as (pr & Hprev). destruct Hstat as (sr & Hstat).
  destruct (truthy action); cbn [negb]; [|read_only_branch Hprev Hstat].
  destruct (strictEq action (CStr "preview"));
    [read_only_branch Hprev Hstat|].
  destruct (strictEq action (CStr "getStatus"));
    [read_only_branch Hprev Hstat|].
  destruct (strictEq action (CStr "getDebugLog"));
    [read_only_branch Hprev Hstat|].
  destruct (strictEq action (CStr "test"));
    [read_only_branch Hprev Hstat|].
  destruct (strictEq action (CStr "exportLatestInvoice"));
    [read_only_branch Hprev Hstat|].
  destruct (strictEq action (CStr "exportInvoicePDF"));
    read_only_branch Hprev Hstat.
Qed.

